(** * Fill simulator: a shallow embedding of [FillSimulator] and its properties

    The development follows the C++ sources of the simulator.  Two revisions
    of [fill_simulator.cpp] are covered: the queue-capable one (with
    [runQueueSimulation], the [MAX_REASONABLE_PRICE] filter and the plain
    notional) and the earlier latency revision (sentinel-only filter, notional
    truncated to a multiple of 1000).  In what is modelled here they differ
    in these two places only, which the [Revision] switch selects.

    Fixed-width integers are mathematical integers with the wrap-around
    written out: [N] for [uint32_t] / [uint64_t], [Z] for [int64_t]. *)

From stdpp Require Import gmap list sorting.
From Stdlib Require Import ZArith NArith Lia.

Local Open Scope Z_scope.

(** ** Machine integers *)

Module Int.

Definition INT64_MAX : Z := 2 ^ 63 - 1.
Definition INT64_MIN : Z := - 2 ^ 63.
Definition UINT32_MOD : N := (2 ^ 32)%N.
Definition UINT64_MOD : N := (2 ^ 64)%N.

(** Two's complement reduction of a mathematical integer to [int64_t]. *)
Definition wrap_i64 (z : Z) : Z := (z + 2 ^ 63) mod 2 ^ 64 - 2 ^ 63.

Definition add_i64 (a b : Z) : Z := wrap_i64 (a + b).
Definition sub_i64 (a b : Z) : Z := wrap_i64 (a - b).
Definition mul_i64 (a b : Z) : Z := wrap_i64 (a * b).

(** [uint64_t] and [uint32_t] arithmetic. *)
Definition add_u64 (a b : N) : N := ((a + b) mod UINT64_MOD)%N.
Definition sub_u64 (a b : N) : N := Z.to_N ((Z.of_N a - Z.of_N b) mod 2 ^ 64).
Definition add_u32 (a b : N) : N := ((a + b) mod UINT32_MOD)%N.
Definition sub_u32 (a b : N) : N := Z.to_N ((Z.of_N a - Z.of_N b) mod 2 ^ 32).

Definition in_i64 (z : Z) : Prop := INT64_MIN <= z <= INT64_MAX.
Definition in_u32 (n : N) : Prop := (n < UINT32_MOD)%N.
Definition in_u64 (n : N) : Prop := (n < UINT64_MOD)%N.

End Int.

Import Int.

(** ** Market data records ([types/market_data_types.h]) *)

Record book_top_level_t := {
  bid_nanos : Z;
  ask_nanos : Z;
  bid_qty : N;
  ask_qty : N
}.

Record book_top_t := {
  ts : N;
  seqno : N;
  top_level : book_top_level_t;
  second_level : book_top_level_t;
  third_level : book_top_level_t
}.

Record book_fill_snapshot_t := {
  fill_ts : N;
  fill_seq_no : N;
  resting_order_id : N;
  was_hidden : bool;
  trade_price : Z;
  trade_qty : N;
  execution_id : N;
  resting_original_qty : N;
  resting_order_remaining_qty : N;
  resting_order_last_update_ts : N;
  resting_side_is_bid : bool;
  resting_side_price : Z;
  resting_side_qty : N;
  opposing_side_price : Z;
  opposing_side_qty : N;
  resting_side_number_of_orders : N
}.

Definition with_ts (t : N) (b : book_top_t) : book_top_t :=
  {| ts := t; seqno := seqno b; top_level := top_level b;
     second_level := second_level b; third_level := third_level b |}.

Definition with_fill_ts (t : N) (f : book_fill_snapshot_t) : book_fill_snapshot_t :=
  {| fill_ts := t; fill_seq_no := fill_seq_no f;
     resting_order_id := resting_order_id f; was_hidden := was_hidden f;
     trade_price := trade_price f; trade_qty := trade_qty f;
     execution_id := execution_id f;
     resting_original_qty := resting_original_qty f;
     resting_order_remaining_qty := resting_order_remaining_qty f;
     resting_order_last_update_ts := resting_order_last_update_ts f;
     resting_side_is_bid := resting_side_is_bid f;
     resting_side_price := resting_side_price f;
     resting_side_qty := resting_side_qty f;
     opposing_side_price := opposing_side_price f;
     opposing_side_qty := opposing_side_qty f;
     resting_side_number_of_orders := resting_side_number_of_orders f |}.

(** ** Strategy interface *)

Inductive ActionType := ADD | CANCEL | REPLACE.

(** Modelled from the spec: [strategies/strategy.h], which declares
    [OrderAction] and the abstract [Strategy], is not among the sources.  The
    fields are the ones the simulator reads and the spec lists: a tagged
    variant [{ADD, CANCEL, REPLACE}] with
    [{order_id, symbol_id, sent_ts, md_ts, price, quantity, is_bid, is_post_only}]. *)
Record OrderAction := {
  type : ActionType;
  orderId : N;
  symbolId : N;
  sent_ts : N;
  md_ts : N;
  price : Z;
  quantity : N;
  isBid : bool;
  isPostOnly : bool
}.

(** The three callbacks of the abstract [Strategy]; a strategy object carries
    its own state [SS], threaded through every call. *)
Class Strategy (SS : Type) := {
  onBookTopUpdate : book_top_t -> SS -> list OrderAction * SS;
  onFill : book_fill_snapshot_t -> SS -> list OrderAction * SS;
  onOrderFilled : N -> Z -> N -> bool -> SS -> list OrderAction * SS
}.

(** [quantity] is a [uint32_t]: what the C++ type guarantees of every action
    a strategy hands back. *)
Definition action_typed (a : OrderAction) : Prop := in_u32 (quantity a).

Class StrategyTyped (SS : Type) `{Strategy SS} := {
  onBookTopUpdate_typed bt ss : Forall action_typed (onBookTopUpdate bt ss).1;
  onFill_typed f ss : Forall action_typed (onFill f ss).1;
  onOrderFilled_typed id px q b ss :
    Forall action_typed (onOrderFilled id px q b ss).1
}.

(** ** Simulator state ([fill_simulator.h]) *)

Record OrderInfo := {
  o_orderId : N;
  o_symbolId : N;
  o_sent_ts : N;
  o_md_ts : N;
  o_price : Z;
  o_quantity : N;
  filledQuantity : N;
  o_isBid : bool;
  o_isPostOnly : bool
}.

(** [old_price] and [old_quantity] are left uninitialised by the constructor
    of [OrderRecord]; only the replace record assigns them. *)
Record OrderRecord := {
  timestamp : N;
  event_type : N;
  order_id : N;
  symbol_id : N;
  r_price : Z;
  old_price : option Z;
  r_quantity : N;
  old_quantity : option N;
  is_bid : bool
}.

Record MarketState := {
  lastBookTop : book_top_t;
  bidLevels : gmap Z N;
  askLevels : gmap Z N;
  lastValidMidPrice : Z
}.

Record LatencyStats := {
  totalMdEvents : N;
  totalMdToStrategyLatencyNs : N;
  totalStrategyToExchangeLatencyNs : N;
  totalExchangeToNotificationLatencyNs : N
}.

(** The members of [FillSimulator] that the simulation reads or writes.
    [outputFile_] is the sequence of records written so far (the constructor
    throws unless the file is open, so every [writeOrderRecord] appends).
    [lastProcessedTime] is the function-local [static] of [processBookTop].
    The two [double] totals, used for the final report only, are left out. *)
Record FillSimulator (SS : Type) := {
  marketState_ : MarketState;
  strategy_ : SS;
  activeOrders_ : gmap N OrderInfo;
  position_ : Z;
  cashFlow_ : Z;
  outputFile_ : list OrderRecord;
  totalOrdersPlaced_ : N;
  totalOrdersFilled_ : N;
  totalBuyVolume_ : N;
  totalSellVolume_ : N;
  strategyMdLatencyNs_ : N;
  exchangeLatencyNs_ : N;
  latencyStats_ : LatencyStats;
  lastProcessedTime : N
}.

Arguments marketState_ {SS} _.
Arguments strategy_ {SS} _.
Arguments activeOrders_ {SS} _.
Arguments position_ {SS} _.
Arguments cashFlow_ {SS} _.
Arguments outputFile_ {SS} _.
Arguments totalOrdersPlaced_ {SS} _.
Arguments totalOrdersFilled_ {SS} _.
Arguments totalBuyVolume_ {SS} _.
Arguments totalSellVolume_ {SS} _.
Arguments strategyMdLatencyNs_ {SS} _.
Arguments exchangeLatencyNs_ {SS} _.
Arguments latencyStats_ {SS} _.
Arguments lastProcessedTime {SS} _.

Definition zero_level : book_top_level_t :=
  {| bid_nanos := 0; ask_nanos := 0; bid_qty := 0; ask_qty := 0 |}.

Definition zero_top : book_top_t :=
  {| ts := 0; seqno := 0; top_level := zero_level;
     second_level := zero_level; third_level := zero_level |}.

Definition zero_stats : LatencyStats :=
  {| totalMdEvents := 0; totalMdToStrategyLatencyNs := 0;
     totalStrategyToExchangeLatencyNs := 0;
     totalExchangeToNotificationLatencyNs := 0 |}.

(** The constructor: every counter zero, the market state value-initialised. *)
Definition newFillSimulator {SS} (strategy : SS)
    (strategyMdLatencyNs exchangeLatencyNs : N) : FillSimulator SS :=
  {| marketState_ := {| lastBookTop := zero_top; bidLevels := ∅;
                        askLevels := ∅; lastValidMidPrice := 0 |};
     strategy_ := strategy;
     activeOrders_ := ∅;
     position_ := 0;
     cashFlow_ := 0;
     outputFile_ := [];
     totalOrdersPlaced_ := 0;
     totalOrdersFilled_ := 0;
     totalBuyVolume_ := 0;
     totalSellVolume_ := 0;
     strategyMdLatencyNs_ := strategyMdLatencyNs;
     exchangeLatencyNs_ := exchangeLatencyNs;
     latencyStats_ := zero_stats;
     lastProcessedTime := 0 |}.

(** Outcome of running a piece of the simulator.  [OutOfFuel] stands for a
    run that has not finished within the given recursion budget; [Undefined]
    for an execution that reads through an iterator or reference whose
    element has been erased. *)
Inductive Fault := UseAfterErase | DanglingIterator.

Inductive Outcome (A : Type) :=
  | Done (a : A)
  | OutOfFuel
  | Undefined (f : Fault).

Arguments Done {A} a.
Arguments OutOfFuel {A}.
Arguments Undefined {A} f.

#[export] Instance outcome_ret : MRet Outcome := fun A a => Done a.
#[export] Instance outcome_bind : MBind Outcome := fun A B k m =>
  match m with
  | Done a => k a
  | OutOfFuel => OutOfFuel
  | Undefined f => Undefined f
  end.

Section FieldUpdates.
Context {SS : Type}.
Implicit Type sim : FillSimulator SS.

Definition set_marketState (v : MarketState) sim : FillSimulator SS :=
  {| marketState_ := v; strategy_ := strategy_ sim;
     activeOrders_ := activeOrders_ sim; position_ := position_ sim;
     cashFlow_ := cashFlow_ sim; outputFile_ := outputFile_ sim;
     totalOrdersPlaced_ := totalOrdersPlaced_ sim;
     totalOrdersFilled_ := totalOrdersFilled_ sim;
     totalBuyVolume_ := totalBuyVolume_ sim;
     totalSellVolume_ := totalSellVolume_ sim;
     strategyMdLatencyNs_ := strategyMdLatencyNs_ sim;
     exchangeLatencyNs_ := exchangeLatencyNs_ sim;
     latencyStats_ := latencyStats_ sim;
     lastProcessedTime := lastProcessedTime sim |}.

Definition set_strategy (v : SS) sim : FillSimulator SS :=
  {| marketState_ := marketState_ sim; strategy_ := v;
     activeOrders_ := activeOrders_ sim; position_ := position_ sim;
     cashFlow_ := cashFlow_ sim; outputFile_ := outputFile_ sim;
     totalOrdersPlaced_ := totalOrdersPlaced_ sim;
     totalOrdersFilled_ := totalOrdersFilled_ sim;
     totalBuyVolume_ := totalBuyVolume_ sim;
     totalSellVolume_ := totalSellVolume_ sim;
     strategyMdLatencyNs_ := strategyMdLatencyNs_ sim;
     exchangeLatencyNs_ := exchangeLatencyNs_ sim;
     latencyStats_ := latencyStats_ sim;
     lastProcessedTime := lastProcessedTime sim |}.

Definition set_activeOrders (v : gmap N OrderInfo) sim : FillSimulator SS :=
  {| marketState_ := marketState_ sim; strategy_ := strategy_ sim;
     activeOrders_ := v; position_ := position_ sim;
     cashFlow_ := cashFlow_ sim; outputFile_ := outputFile_ sim;
     totalOrdersPlaced_ := totalOrdersPlaced_ sim;
     totalOrdersFilled_ := totalOrdersFilled_ sim;
     totalBuyVolume_ := totalBuyVolume_ sim;
     totalSellVolume_ := totalSellVolume_ sim;
     strategyMdLatencyNs_ := strategyMdLatencyNs_ sim;
     exchangeLatencyNs_ := exchangeLatencyNs_ sim;
     latencyStats_ := latencyStats_ sim;
     lastProcessedTime := lastProcessedTime sim |}.

Definition set_outputFile (v : list OrderRecord) sim : FillSimulator SS :=
  {| marketState_ := marketState_ sim; strategy_ := strategy_ sim;
     activeOrders_ := activeOrders_ sim; position_ := position_ sim;
     cashFlow_ := cashFlow_ sim; outputFile_ := v;
     totalOrdersPlaced_ := totalOrdersPlaced_ sim;
     totalOrdersFilled_ := totalOrdersFilled_ sim;
     totalBuyVolume_ := totalBuyVolume_ sim;
     totalSellVolume_ := totalSellVolume_ sim;
     strategyMdLatencyNs_ := strategyMdLatencyNs_ sim;
     exchangeLatencyNs_ := exchangeLatencyNs_ sim;
     latencyStats_ := latencyStats_ sim;
     lastProcessedTime := lastProcessedTime sim |}.

Definition set_totalOrdersPlaced (v : N) sim : FillSimulator SS :=
  {| marketState_ := marketState_ sim; strategy_ := strategy_ sim;
     activeOrders_ := activeOrders_ sim; position_ := position_ sim;
     cashFlow_ := cashFlow_ sim; outputFile_ := outputFile_ sim;
     totalOrdersPlaced_ := v;
     totalOrdersFilled_ := totalOrdersFilled_ sim;
     totalBuyVolume_ := totalBuyVolume_ sim;
     totalSellVolume_ := totalSellVolume_ sim;
     strategyMdLatencyNs_ := strategyMdLatencyNs_ sim;
     exchangeLatencyNs_ := exchangeLatencyNs_ sim;
     latencyStats_ := latencyStats_ sim;
     lastProcessedTime := lastProcessedTime sim |}.

Definition set_latencyStats (v : LatencyStats) sim : FillSimulator SS :=
  {| marketState_ := marketState_ sim; strategy_ := strategy_ sim;
     activeOrders_ := activeOrders_ sim; position_ := position_ sim;
     cashFlow_ := cashFlow_ sim; outputFile_ := outputFile_ sim;
     totalOrdersPlaced_ := totalOrdersPlaced_ sim;
     totalOrdersFilled_ := totalOrdersFilled_ sim;
     totalBuyVolume_ := totalBuyVolume_ sim;
     totalSellVolume_ := totalSellVolume_ sim;
     strategyMdLatencyNs_ := strategyMdLatencyNs_ sim;
     exchangeLatencyNs_ := exchangeLatencyNs_ sim;
     latencyStats_ := v;
     lastProcessedTime := lastProcessedTime sim |}.

Definition set_lastProcessedTime (v : N) sim : FillSimulator SS :=
  {| marketState_ := marketState_ sim; strategy_ := strategy_ sim;
     activeOrders_ := activeOrders_ sim; position_ := position_ sim;
     cashFlow_ := cashFlow_ sim; outputFile_ := outputFile_ sim;
     totalOrdersPlaced_ := totalOrdersPlaced_ sim;
     totalOrdersFilled_ := totalOrdersFilled_ sim;
     totalBuyVolume_ := totalBuyVolume_ sim;
     totalSellVolume_ := totalSellVolume_ sim;
     strategyMdLatencyNs_ := strategyMdLatencyNs_ sim;
     exchangeLatencyNs_ := exchangeLatencyNs_ sim;
     latencyStats_ := latencyStats_ sim;
     lastProcessedTime := v |}.

(** The four latency accumulators. *)
Definition noteMdEvent sim : FillSimulator SS :=
  let st := latencyStats_ sim in
  set_latencyStats
    {| totalMdEvents := add_u64 (totalMdEvents st) 1;
       totalMdToStrategyLatencyNs :=
         add_u64 (totalMdToStrategyLatencyNs st) (strategyMdLatencyNs_ sim);
       totalStrategyToExchangeLatencyNs := totalStrategyToExchangeLatencyNs st;
       totalExchangeToNotificationLatencyNs :=
         totalExchangeToNotificationLatencyNs st |} sim.

Definition noteStrategyToExchange sim : FillSimulator SS :=
  let st := latencyStats_ sim in
  set_latencyStats
    {| totalMdEvents := totalMdEvents st;
       totalMdToStrategyLatencyNs := totalMdToStrategyLatencyNs st;
       totalStrategyToExchangeLatencyNs :=
         add_u64 (totalStrategyToExchangeLatencyNs st) (exchangeLatencyNs_ sim);
       totalExchangeToNotificationLatencyNs :=
         totalExchangeToNotificationLatencyNs st |} sim.

Definition noteExchangeToNotification sim : FillSimulator SS :=
  let st := latencyStats_ sim in
  set_latencyStats
    {| totalMdEvents := totalMdEvents st;
       totalMdToStrategyLatencyNs := totalMdToStrategyLatencyNs st;
       totalStrategyToExchangeLatencyNs := totalStrategyToExchangeLatencyNs st;
       totalExchangeToNotificationLatencyNs :=
         add_u64 (totalExchangeToNotificationLatencyNs st)
                 (exchangeLatencyNs_ sim) |} sim.

Definition applyMdLatency sim (t : N) : N :=
  add_u64 t (strategyMdLatencyNs_ sim).

Definition applyExchangeLatency sim (t : N) : N :=
  add_u64 t (exchangeLatencyNs_ sim).

Definition writeOrderRecord (record : OrderRecord) sim : FillSimulator SS :=
  set_outputFile (outputFile_ sim ++ [record]) sim.

End FieldUpdates.

(** The two revisions of [fill_simulator.cpp]. *)
Inductive Revision :=
  | QueueRevision    (* the revision with [runQueueSimulation] *)
  | LatencyRevision. (* [fill_simulator.cpp]: tops/fills mode only *)

Definition MAX_REASONABLE_PRICE : Z := 10000 * 1000000000.
Definition MIN_PROCESSING_INTERVAL : N := 100000.

(** The amount that a fill of [fillQty] at [fillPrice] moves [cashFlow_] by.
    The queue revision uses [fillPrice * fillQty]; the latency revision
    divides the product by 1000 (C++ division truncates) and multiplies the
    quotient by 1000 again. *)
Definition fillNotional (rev : Revision) (fillPrice : Z) (fillQty : N) : Z :=
  match rev with
  | QueueRevision => mul_i64 fillPrice (Z.of_N fillQty)
  | LatencyRevision =>
      mul_i64 (Z.quot (mul_i64 fillPrice (Z.of_N fillQty)) 1000) 1000
  end.

(** The validation at the head of [processBookTop]: [true] when the top is
    to be dropped. *)
Definition invalidBookTop (rev : Revision) (bookTop : book_top_t) : bool :=
  let bid := bid_nanos (top_level bookTop) in
  let ask := ask_nanos (top_level bookTop) in
  (bid <=? 0) || (ask <=? 0) || (bid >=? ask) ||
  match rev with
  | QueueRevision =>
      (bid >? MAX_REASONABLE_PRICE) || (ask >? MAX_REASONABLE_PRICE)
  | LatencyRevision => (bid =? INT64_MAX) || (ask =? INT64_MAX)
  end.

(** The coalescer at the head of [processBookTop]: [true] when the top comes
    too soon after the last accepted one.  The difference is taken in
    [uint64_t]. *)
Definition tooSoon (last : N) (bookTop : book_top_t) : bool :=
  (0 <? last)%N && (sub_u64 (ts bookTop) last <? MIN_PROCESSING_INTERVAL)%N.

Section Simulator.
Context {SS : Type} `{!Strategy SS}.
Variable rev : Revision.
Implicit Type sim : FillSimulator SS.

(** [FillSimulator::wouldOrderBeFilled].  A non-const member function: it
    is given the simulator and hands it back. *)
Definition wouldOrderBeFilled (orderId : N) (isBid : bool) (price : Z)
    (quantity : N) sim : bool * FillSimulator SS :=
  if (price <=? 0) || (quantity =? 0)%N then (false, sim)
  else if isBid then
    let bestAsk := ask_nanos (top_level (lastBookTop (marketState_ sim))) in
    if (bestAsk <=? 0) || (bestAsk =? INT64_MAX) then (false, sim)
    else if price >=? bestAsk then (true, sim)
    else (false, sim)
  else
    let bestBid := bid_nanos (top_level (lastBookTop (marketState_ sim))) in
    if (bestBid <=? 0) || (bestBid =? INT64_MAX) then (false, sim)
    else if price <=? bestBid then (true, sim)
    else (false, sim).

(** The price an order of the given side trades at against [bookTop]. *)
Definition opposingPrice (isBid : bool) (bookTop : book_top_t) : Z :=
  if isBid then ask_nanos (top_level bookTop)
  else bid_nanos (top_level bookTop).

Definition fillRecord (t orderId symbolId : N) (fillPrice : Z) (fillQty : N)
    (isBid : bool) : OrderRecord :=
  {| timestamp := t; event_type := 3; order_id := orderId;
     symbol_id := symbolId; r_price := fillPrice; old_price := None;
     r_quantity := fillQty; old_quantity := None; is_bid := isBid |}.

(** [FillSimulator::processFill] up to the point where the strategy is
    told about the fill: the checks, the notification time, the fill
    record, position and cash, the counters and the removal of a fully
    filled order.  [None] when the fill is refused (unknown order, bad
    price, zero quantity); otherwise the notification time and the new
    simulator. *)
Definition bookFill (orderId : N) (fillPrice : Z) (fillQty : N)
    (isBid : bool) (fillNotificationTime : N) sim
    : option (N * FillSimulator SS) :=
  match activeOrders_ sim !! orderId with
  | None => None
  | Some order =>
    if (fillPrice <=? 0) || (fillPrice =? INT64_MAX) || (fillQty =? 0)%N
    then None
    else
      let t :=
        if (fillNotificationTime =? 0)%N
        then applyExchangeLatency sim (ts (lastBookTop (marketState_ sim)))
        else fillNotificationTime in
      let stats :=
        if (0 <? t)%N then latencyStats_ (noteExchangeToNotification sim)
        else latencyStats_ sim in
      let symbolId := o_symbolId order in
      let totalQuantity := o_quantity order in
      let filled := add_u32 (filledQuantity order) fillQty in
      let isFullyFilled := (totalQuantity <=? filled)%N in
      let order' :=
        {| o_orderId := o_orderId order; o_symbolId := o_symbolId order;
           o_sent_ts := o_sent_ts order; o_md_ts := o_md_ts order;
           o_price := o_price order; o_quantity := o_quantity order;
           filledQuantity := filled; o_isBid := o_isBid order;
           o_isPostOnly := o_isPostOnly order |} in
      let notional := fillNotional rev fillPrice fillQty in
      Some (t,
        {| marketState_ := marketState_ sim;
           strategy_ := strategy_ sim;
           activeOrders_ :=
             if isFullyFilled then delete orderId (activeOrders_ sim)
             else <[orderId := order']> (activeOrders_ sim);
           position_ :=
             if isBid then add_i64 (position_ sim) (Z.of_N fillQty)
             else sub_i64 (position_ sim) (Z.of_N fillQty);
           cashFlow_ :=
             if isBid then sub_i64 (cashFlow_ sim) notional
             else add_i64 (cashFlow_ sim) notional;
           outputFile_ :=
             outputFile_ sim
               ++ [fillRecord t orderId symbolId fillPrice fillQty isBid];
           totalOrdersPlaced_ := totalOrdersPlaced_ sim;
           totalOrdersFilled_ := add_u64 (totalOrdersFilled_ sim) 1;
           totalBuyVolume_ :=
             if isBid then add_u64 (totalBuyVolume_ sim) fillQty
             else totalBuyVolume_ sim;
           totalSellVolume_ :=
             if isBid then totalSellVolume_ sim
             else add_u64 (totalSellVolume_ sim) fillQty;
           strategyMdLatencyNs_ := strategyMdLatencyNs_ sim;
           exchangeLatencyNs_ := exchangeLatencyNs_ sim;
           latencyStats_ := stats;
           lastProcessedTime := lastProcessedTime sim |})
  end.

(** What every loop over a strategy's answer does to an action before it
    is processed: [sent_ts] defaults to the time [t] the strategy was
    called at, [md_ts] becomes [t] plus the exchange latency. *)
Definition delayAction sim (t : N) (action : OrderAction) : OrderAction :=
  {| type := type action; orderId := orderId action;
     symbolId := symbolId action;
     sent_ts := if (sent_ts action =? 0)%N then t else sent_ts action;
     md_ts := applyExchangeLatency sim t;
     price := price action; quantity := quantity action;
     isBid := isBid action; isPostOnly := isPostOnly action |}.

(** The body shared by the three loops
    [for (const auto& action : actions) { ... processAction(...); }],
    over a given [processAction]. *)
Fixpoint submitWith
    (process : OrderAction -> book_top_t -> FillSimulator SS ->
               Outcome (FillSimulator SS))
    (t : N) (bookTop : book_top_t) (actions : list OrderAction) sim
    : Outcome (FillSimulator SS) :=
  match actions with
  | [] => Done sim
  | action :: rest =>
      sim' ← process (delayAction sim t action) bookTop
                     (noteStrategyToExchange sim);
      submitWith process t bookTop rest sim'
  end.

(** The first lines of [processAction]: an ADD or REPLACE that would fill
    adds the exchange latency to the notification accumulator. *)
Definition noteCrossing (action : OrderAction) sim : FillSimulator SS :=
  match type action with
  | CANCEL => sim
  | _ =>
      let '(cross, sim) :=
        wouldOrderBeFilled (orderId action) (isBid action) (price action)
                           (quantity action) sim in
      if cross then noteExchangeToNotification sim else sim
  end.

Definition orderOfAction (action : OrderAction) : OrderInfo :=
  {| o_orderId := orderId action; o_symbolId := symbolId action;
     o_sent_ts := sent_ts action; o_md_ts := md_ts action;
     o_price := price action; o_quantity := quantity action;
     filledQuantity := 0; o_isBid := isBid action;
     o_isPostOnly := isPostOnly action |}.

Definition addRecord (action : OrderAction) : OrderRecord :=
  {| timestamp := md_ts action; event_type := 1; order_id := orderId action;
     symbol_id := symbolId action; r_price := price action;
     old_price := None; r_quantity := quantity action; old_quantity := None;
     is_bid := isBid action |}.

Definition cancelRecord (t orderId symbolId : N) (price : Z) (quantity : N)
    (isBid : bool) : OrderRecord :=
  {| timestamp := t; event_type := 2; order_id := orderId;
     symbol_id := symbolId; r_price := price; old_price := None;
     r_quantity := quantity; old_quantity := None; is_bid := isBid |}.

(** ADD, first half: [activeOrders_[action.orderId] = order], the counter
    and the add record. *)
Definition placeOrder (action : OrderAction) sim : FillSimulator SS :=
  writeOrderRecord (addRecord action)
    (set_totalOrdersPlaced (add_u64 (totalOrdersPlaced_ sim) 1)
      (set_activeOrders
        (<[orderId action := orderOfAction action]> (activeOrders_ sim)) sim)).

(** ADD of a post-only order that would cross: erased again, and a cancel
    record with the action's own fields. *)
Definition cancelPostOnly (action : OrderAction) sim : FillSimulator SS :=
  writeOrderRecord
    (cancelRecord (md_ts action) (orderId action) (symbolId action)
                  (price action) (quantity action) (isBid action))
    (set_activeOrders (delete (orderId action) (activeOrders_ sim)) sim).

(** CANCEL: the record carries the stored order's side, price and
    quantity. *)
Definition cancelOrder (action : OrderAction) sim : FillSimulator SS :=
  match activeOrders_ sim !! orderId action with
  | Some order =>
      writeOrderRecord
        (cancelRecord (md_ts action) (orderId action) (o_symbolId order)
                      (o_price order) (o_quantity order) (o_isBid order))
        (set_activeOrders (delete (orderId action) (activeOrders_ sim)) sim)
  | None => sim
  end.

(** REPLACE, first half: price, quantity and the nonzero timestamps are
    overwritten in place, [filledQuantity] stays; then the replace
    record. *)
Definition replaceOrder (action : OrderAction) (order : OrderInfo) sim
    : FillSimulator SS :=
  let order' :=
    {| o_orderId := o_orderId order; o_symbolId := o_symbolId order;
       o_sent_ts := if (0 <? sent_ts action)%N then sent_ts action
                    else o_sent_ts order;
       o_md_ts := if (0 <? md_ts action)%N then md_ts action
                  else o_md_ts order;
       o_price := price action; o_quantity := quantity action;
       filledQuantity := filledQuantity order; o_isBid := o_isBid order;
       o_isPostOnly := o_isPostOnly order |} in
  writeOrderRecord
    {| timestamp := md_ts action; event_type := 4;
       order_id := orderId action; symbol_id := o_symbolId order;
       r_price := price action; old_price := Some (o_price order);
       r_quantity := quantity action;
       old_quantity := Some (o_quantity order); is_bid := o_isBid order |}
    (set_activeOrders (<[orderId action := order']> (activeOrders_ sim)) sim).

(** [FillSimulator::processAction] and [FillSimulator::processFill].  They
    call each other through the strategy's [onOrderFilled], without bound
    on the depth: [fuel] bounds it here.

    In the REPLACE arm a crossing post-only order is erased with
    [activeOrders_.erase(action.orderId)] and the cancel record is then
    filled from [it->second]: a read through the erased iterator. *)
Fixpoint processAction (fuel : nat) (action : OrderAction)
    (bookTop : book_top_t) sim {struct fuel} : Outcome (FillSimulator SS) :=
  match fuel with
  | O => OutOfFuel
  | S fuel' =>
    let sim := noteCrossing action sim in
    match type action with
    | ADD =>
        let sim := placeOrder action sim in
        let '(cross, sim) :=
          wouldOrderBeFilled (orderId action) (isBid action) (price action)
                             (quantity action) sim in
        if cross then
          if isPostOnly action then Done (cancelPostOnly action sim)
          else
            processFill fuel' (orderId action)
              (opposingPrice (isBid action) bookTop) (quantity action)
              (isBid action) (applyExchangeLatency sim (md_ts action)) sim
        else Done sim
    | CANCEL => Done (cancelOrder action sim)
    | REPLACE =>
        match activeOrders_ sim !! orderId action with
        | None => Done sim
        | Some order =>
            let sim := replaceOrder action order sim in
            let '(cross, sim) :=
              wouldOrderBeFilled (orderId action) (o_isBid order)
                                 (price action) (quantity action) sim in
            if cross then
              if o_isPostOnly order then Undefined UseAfterErase
              else
                processFill fuel' (orderId action)
                  (opposingPrice (o_isBid order) bookTop) (quantity action)
                  (o_isBid order) (applyExchangeLatency sim (md_ts action))
                  sim
            else Done sim
        end
    end
  end
with processFill (fuel : nat) (orderId : N) (fillPrice : Z) (fillQty : N)
    (isBid : bool) (fillNotificationTime : N) sim {struct fuel}
    : Outcome (FillSimulator SS) :=
  match fuel with
  | O => OutOfFuel
  | S fuel' =>
    match bookFill orderId fillPrice fillQty isBid fillNotificationTime sim with
    | None => Done sim
    | Some (t, sim) =>
        let notificationBookTop := with_ts t (lastBookTop (marketState_ sim)) in
        let '(actions, strategy) :=
          onOrderFilled orderId fillPrice fillQty isBid (strategy_ sim) in
        submitWith (processAction fuel') t notificationBookTop actions
                   (set_strategy strategy sim)
    end
  end.

End Simulator.

Section Dispatch.
Context {SS : Type} `{!Strategy SS}.
Variable rev : Revision.
Implicit Type sim : FillSimulator SS.

(** The market-state assignments of an accepted top. *)
Definition acceptBookTop (bookTop : book_top_t) sim : FillSimulator SS :=
  let ms := marketState_ sim in
  let top := top_level bookTop in
  let second := second_level bookTop in
  let third := third_level bookTop in
  set_marketState
    {| lastBookTop := bookTop;
       bidLevels :=
         <[bid_nanos third := bid_qty third]>
           (<[bid_nanos second := bid_qty second]>
             (<[bid_nanos top := bid_qty top]> (bidLevels ms)));
       askLevels :=
         <[ask_nanos third := ask_qty third]>
           (<[ask_nanos second := ask_qty second]>
             (<[ask_nanos top := ask_qty top]> (askLevels ms)));
       lastValidMidPrice :=
         Z.quot (add_i64 (bid_nanos top) (ask_nanos top)) 2 |}
    (set_lastProcessedTime (ts bookTop) sim).

(** The loop over [activeOrders_] that closes [processBookTop].  The
    traversal order of an [unordered_map] is not specified; the model
    visits the keys present when the loop starts, in the order [ids], and
    looks each one up again when its turn comes, passing over the ones
    that have gone in the meantime. *)
Fixpoint reevaluate (fuel : nat) (bookTop : book_top_t) (ids : list N) sim
    : Outcome (FillSimulator SS) :=
  match ids with
  | [] => Done sim
  | id :: rest =>
      match activeOrders_ sim !! id with
      | None => reevaluate fuel bookTop rest sim
      | Some order =>
          let remainingQty :=
            sub_u32 (o_quantity order) (filledQuantity order) in
          let '(cross, sim) :=
            wouldOrderBeFilled (o_orderId order) (o_isBid order)
                               (o_price order) remainingQty sim in
          if cross then
            sim' ← processFill rev fuel (o_orderId order)
                     (opposingPrice (o_isBid order) bookTop) remainingQty
                     (o_isBid order)
                     (applyExchangeLatency sim (o_md_ts order)) sim;
            reevaluate fuel bookTop rest sim'
          else reevaluate fuel bookTop rest sim
      end
  end.

(** [FillSimulator::processBookTop], from the point where the top has
    passed both checks: the market state, the strategy's callback with the
    delayed copy, its actions, and the loop over the active orders. *)
Definition deliverBookTop (fuel : nat) (bookTop : book_top_t) sim
    : Outcome (FillSimulator SS) :=
  let sim := acceptBookTop bookTop sim in
  let delayedBookTop := with_ts (applyMdLatency sim (ts bookTop)) bookTop in
  let sim := noteMdEvent sim in
  let '(actions, strategy) :=
    onBookTopUpdate delayedBookTop (strategy_ sim) in
  sim' ← submitWith (processAction rev fuel) (ts delayedBookTop) bookTop
           actions (set_strategy strategy sim);
  reevaluate fuel bookTop (map_to_list (activeOrders_ sim')).*1 sim'.

(** [FillSimulator::processBookTop]: the two early returns, then the
    delivery. *)
Definition processBookTop (fuel : nat) (bookTop : book_top_t) sim
    : Outcome (FillSimulator SS) :=
  if tooSoon (lastProcessedTime sim) bookTop then Done sim
  else if invalidBookTop rev bookTop then Done sim
  else deliverBookTop fuel bookTop sim.

(** [FillSimulator::processBookFill]. *)
Definition processBookFill (fuel : nat) (fill : book_fill_snapshot_t) sim
    : Outcome (FillSimulator SS) :=
  let delayedFill := with_fill_ts (applyMdLatency sim (fill_ts fill)) fill in
  let sim := noteMdEvent sim in
  let '(actions, strategy) := onFill delayedFill (strategy_ sim) in
  let sim := set_strategy strategy sim in
  submitWith (processAction rev fuel) (fill_ts delayedFill)
             (lastBookTop (marketState_ sim)) actions sim.

(** The market-data events of tops/fills mode, in the order
    [runSimulation] has merged them into. *)
Inductive MdEvent :=
  | TopEvent (bookTop : book_top_t)
  | FillEvent (fill : book_fill_snapshot_t).

Definition dispatch (fuel : nat) (ev : MdEvent) sim
    : Outcome (FillSimulator SS) :=
  match ev with
  | TopEvent bookTop => processBookTop fuel bookTop sim
  | FillEvent fill => processBookFill fuel fill sim
  end.

Fixpoint dispatchAll (fuel : nat) (evs : list MdEvent) sim
    : Outcome (FillSimulator SS) :=
  match evs with
  | [] => Done sim
  | ev :: rest => sim' ← dispatch fuel ev sim; dispatchAll fuel rest sim'
  end.

End Dispatch.

(** The loop of [FillSimulator::runSimulation]: the next top is handed over
    when the fills have run out, or when a top is left and its [ts] is not
    after the next fill's; else the next fill.  The result lists the calls
    of [processBookTop] and [processBookFill] in the order they are made. *)
Fixpoint mergeStreams (tops : list book_top_t)
    (fills : list book_fill_snapshot_t) : list MdEvent :=
  let fix withFills (fills : list book_fill_snapshot_t) : list MdEvent :=
    match tops, fills with
    | [], _ => FillEvent <$> fills
    | _, [] => TopEvent <$> tops
    | bookTop :: tops', bookFill :: fills' =>
        if (ts bookTop <=? fill_ts bookFill)%N
        then TopEvent bookTop :: mergeStreams tops' fills
        else FillEvent bookFill :: withFills fills'
    end in
  withFills fills.

(** [FillSimulator::runSimulation], from the records of the two files on;
    the strategy state passed in is the one [setSymbolId] has left. *)
Definition runSimulation {SS : Type} `{!Strategy SS} (rev : Revision)
    (fuel : nat) (tops : list book_top_t) (fills : list book_fill_snapshot_t)
    (sim : FillSimulator SS) : Outcome (FillSimulator SS) :=
  dispatchAll rev fuel (mergeStreams tops fills) sim.

(** ** Queue mode: the book of [runQueueSimulation] *)

Record order_t := {
  q_order_id : N;
  qty : N;
  q_timestamp : N
}.

(** [order_queue_t] is a [std::list<order_t>], and [order_ref_t] keeps an
    iterator into it.  A list node is named here by the handle it got when
    it was pushed; handles are never reused, so a handle that is not in the
    queue it is looked for in is an iterator whose node has been
    destroyed. *)
Definition order_queue_t := list (nat * order_t).
Definition level_t := (N * order_queue_t)%type.

Record order_ref_t := {
  ref_price : Z;
  ref_is_bid : bool;
  order_it : nat
}.

Fixpoint queue_find (h : nat) (q : order_queue_t) : option order_t :=
  match q with
  | [] => None
  | (h', o) :: rest => if Nat.eqb h h' then Some o else queue_find h rest
  end.

Fixpoint queue_set (h : nat) (o : order_t) (q : order_queue_t) : order_queue_t :=
  match q with
  | [] => []
  | (h', o') :: rest =>
      if Nat.eqb h h' then (h', o) :: rest else (h', o') :: queue_set h o rest
  end.

Fixpoint queue_erase (h : nat) (q : order_queue_t) : order_queue_t :=
  match q with
  | [] => []
  | (h', o') :: rest =>
      if Nat.eqb h h' then rest else (h', o') :: queue_erase h rest
  end.

(** A [book_side_t] is a [std::map<price_t, level_t>]; [ascending] lists its
    levels from [begin()] on, [descending] from [rbegin()] on. *)
Definition price_le (a b : Z * level_t) : Prop := a.1 <= b.1.

#[export] Instance price_le_dec a b : Decision (price_le a b) :=
  decide (a.1 <= b.1).

Definition ascending (book : gmap Z level_t) : list (Z * level_t) :=
  merge_sort price_le (map_to_list book).

Definition descending (book : gmap Z level_t) : list (Z * level_t) :=
  reverse (ascending book).

Record BookState := {
  bid_book : gmap Z level_t;
  ask_book : gmap Z level_t;
  order_map : gmap N order_ref_t;
  currentTop : book_top_t;
  next_handle : nat
}.

Definition side (is_bid : bool) (b : BookState) : gmap Z level_t :=
  if is_bid then bid_book b else ask_book b.

Definition set_side (is_bid : bool) (book : gmap Z level_t) (b : BookState)
    : BookState :=
  {| bid_book := if is_bid then book else bid_book b;
     ask_book := if is_bid then ask_book b else book;
     order_map := order_map b; currentTop := currentTop b;
     next_handle := next_handle b |}.

Definition set_order_map (m : gmap N order_ref_t) (b : BookState) : BookState :=
  {| bid_book := bid_book b; ask_book := ask_book b; order_map := m;
     currentTop := currentTop b; next_handle := next_handle b |}.

Definition set_currentTop (t : book_top_t) (b : BookState) : BookState :=
  {| bid_book := bid_book b; ask_book := ask_book b;
     order_map := order_map b; currentTop := t;
     next_handle := next_handle b |}.

Definition set_next_handle (h : nat) (b : BookState) : BookState :=
  {| bid_book := bid_book b; ask_book := ask_book b;
     order_map := order_map b; currentTop := currentTop b;
     next_handle := h |}.

(** The book before the first event.  [currentTop] gets its first level
    assigned; the other two levels stay unassigned until the first
    [updateTopLevels], and are zero here. *)
Definition emptyBook : BookState :=
  {| bid_book := ∅; ask_book := ∅; order_map := ∅;
     currentTop :=
       {| ts := 0; seqno := 0;
          top_level := {| bid_nanos := 0; ask_nanos := INT64_MAX;
                          bid_qty := 0; ask_qty := 0 |};
          second_level := zero_level; third_level := zero_level |};
     next_handle := 0 |}.

(** The lambda [updateTopLevels]. *)
Definition bidOf (l : option (Z * level_t)) : Z * N :=
  match l with Some (p, (q, _)) => (p, q) | None => (0, 0%N) end.

Definition askOf (l : option (Z * level_t)) : Z * N :=
  match l with Some (p, (q, _)) => (p, q) | None => (INT64_MAX, 0%N) end.

Definition updateTopLevels (b : BookState) : BookState :=
  let bids := descending (bid_book b) in
  let asks := ascending (ask_book b) in
  let level (i : nat) : book_top_level_t :=
    {| bid_nanos := (bidOf (bids !! i)).1; ask_nanos := (askOf (asks !! i)).1;
       bid_qty := (bidOf (bids !! i)).2; ask_qty := (askOf (asks !! i)).2 |} in
  let top := level 0%nat in
  let bidOk := negb (bid_nanos top >? MAX_REASONABLE_PRICE) in
  let askOk :=
    negb ((ask_nanos top >? MAX_REASONABLE_PRICE)
          && negb (ask_nanos top =? INT64_MAX)) in
  set_currentTop
    {| ts := ts (currentTop b); seqno := seqno (currentTop b);
       top_level :=
         {| bid_nanos := if bidOk then bid_nanos top else 0;
            ask_nanos := if askOk then ask_nanos top else INT64_MAX;
            bid_qty := if bidOk then bid_qty top else 0%N;
            ask_qty := if askOk then ask_qty top else 0%N |};
       second_level := level 1%nat;
       third_level := level 2%nat |} b.

(** The payloads of the book events; [ev_ts] and [ev_seq_no] are the fields
    of the [book_event_hdr_t] read before each of them. *)
Inductive BookPayload :=
  | add_order (price : Z) (order_id : N) (qty : N) (is_bid : bool)
  | delete_order (order_id : N)
  | replace_order (price : Z) (orig_order_id new_order_id : N) (qty : N)
  | amend_order (order_id : N) (new_qty : N)
  | reduce_order (order_id : N) (cxled_qty : N)
  | execute_order (order_id : N) (traded_qty : N) (execution_id : N)
  | execute_order_at_price (order_id : N) (traded_qty : N) (execution_id : N)
                           (execution_price : Z)
  | clear_book
  | other_event.

Record BookEvent := {
  ev_ts : N;
  ev_seq_no : N;
  payload : BookPayload
}.

(** [currentTop.ts] and [currentTop.seqno] take the header's values before
    the event is looked at. *)
Definition stampTop (ev : BookEvent) (b : BookState) : BookState :=
  set_currentTop
    {| ts := ev_ts ev; seqno := ev_seq_no ev;
       top_level := top_level (currentTop b);
       second_level := second_level (currentTop b);
       third_level := third_level (currentTop b) |} b.

(** Whether a price sits at the stored top on its side. *)
Definition atTop (r : order_ref_t) (b : BookState) : bool :=
  if ref_is_bid r then ref_price r =? bid_nanos (top_level (currentTop b))
  else ref_price r =? ask_nanos (top_level (currentTop b)).

(** The insertion shared by the add and replace cases: the level is created
    when missing, the order goes to the back of its queue, [order_map] gets
    the reference.  The second component is [topChanged]. *)
Definition insertOrder (is_bid : bool) (price : Z) (order_id : N) (q : N)
    (t : N) (b : BookState) : BookState * bool :=
  let book := side is_bid b in
  let '(total, queue) := default (0%N, []) (book !! price) in
  let h := next_handle b in
  let level : level_t :=
    (add_u32 total q,
     queue ++ [(h, {| q_order_id := order_id; qty := q; q_timestamp := t |})]) in
  let r := {| ref_price := price; ref_is_bid := is_bid; order_it := h |} in
  let b :=
    set_next_handle (S h)
      (set_order_map (<[order_id := r]> (order_map b))
        (set_side is_bid (<[price := level]> book) b)) in
  let topChanged :=
    if is_bid then
      match descending (bid_book b) with
      | [] => true
      | (best, _) :: _ => price >=? best
      end
    else
      match ascending (ask_book b) with
      | [] => true
      | (best, _) :: _ => price <=? best
      end in
  (b, topChanged).

(** The removal shared by the delete and replace cases, for an order found
    in [order_map]. *)
Definition removeOrder (order_id : N) (r : order_ref_t) (b : BookState)
    : Outcome (BookState * bool) :=
  let book := side (ref_is_bid r) b in
  match book !! ref_price r with
  | None => Done (set_order_map (delete order_id (order_map b)) b, false)
  | Some (total, queue) =>
      match queue_find (order_it r) queue with
      | None => Undefined DanglingIterator
      | Some o =>
          let total' := sub_u32 total (qty o) in
          let topChanged := atTop r b in
          let queue' := queue_erase (order_it r) queue in
          let book' :=
            if (total' =? 0)%N then delete (ref_price r) book
            else <[ref_price r := (total', queue')]> book in
          Done (set_order_map (delete order_id (order_map b))
                  (set_side (ref_is_bid r) book' b), topChanged)
      end
  end.

Section QueueSimulation.
Context {SS : Type} `{!Strategy SS}.
Variable rev : Revision.
Implicit Type sim : FillSimulator SS.

(** The snapshot built by the two execute cases; [trade] is the stored
    price for [execute_order] and the event's price for
    [execute_order_at_price].  [resting_side_number_of_orders] is never
    assigned by the source and is zero here. *)
Definition executionFill (ev : BookEvent) (order_id traded_qty exec_id : N)
    (trade : Z) (r : order_ref_t) (o : order_t) (total : N) (b : BookState)
    : book_fill_snapshot_t :=
  let opposing :=
    if ref_is_bid r then askOf (head (ascending (ask_book b)))
    else bidOf (head (descending (bid_book b))) in
  {| fill_ts := ev_ts ev; fill_seq_no := ev_seq_no ev;
     resting_order_id := order_id; was_hidden := false;
     trade_price := trade; trade_qty := traded_qty;
     execution_id := exec_id;
     resting_original_qty := qty o;
     resting_order_remaining_qty := sub_u32 (qty o) traded_qty;
     resting_order_last_update_ts := q_timestamp o;
     resting_side_is_bid := ref_is_bid r;
     resting_side_price := ref_price r;
     resting_side_qty := total;
     opposing_side_price := opposing.1;
     opposing_side_qty := opposing.2;
     resting_side_number_of_orders := 0 |}.

(** Both execute cases, for an order found in [order_map] whose level
    exists.  When the order is drained it is erased from the queue and
    from [order_map], and the top-of-book test that follows reads [ref], a
    reference into the erased [order_map] entry. *)
Definition executeOrder (fuel : nat) (ev : BookEvent)
    (order_id traded_qty exec_id : N) (trade : option Z) (r : order_ref_t)
    (total : N) (queue : order_queue_t) (b : BookState) sim
    : Outcome (BookState * FillSimulator SS * bool) :=
  match queue_find (order_it r) queue with
  | None => Undefined DanglingIterator
  | Some o =>
      let fill :=
        executionFill ev order_id traded_qty exec_id
                      (default (ref_price r) trade) r o total b in
      let o' := {| q_order_id := q_order_id o;
                   qty := sub_u32 (qty o) traded_qty;
                   q_timestamp := q_timestamp o |} in
      let level : level_t :=
        (sub_u32 total traded_qty, queue_set (order_it r) o' queue) in
      let b' :=
        set_side (ref_is_bid r)
                 (<[ref_price r := level]> (side (ref_is_bid r) b)) b in
      sim' ← processBookFill rev fuel fill sim;
      if (qty o' =? 0)%N then Undefined UseAfterErase
      else Done (b', sim', false)
  end.

(** The [switch] over the event type: the new book, the simulator, and
    [topChanged]. *)
Definition applyPayload (fuel : nat) (ev : BookEvent) (b : BookState) sim
    : Outcome (BookState * FillSimulator SS * bool) :=
  match payload ev with
  | add_order price order_id q is_bid =>
      let '(b', topChanged) :=
        insertOrder is_bid price order_id q (ev_ts ev) b in
      Done (b', sim, topChanged)
  | delete_order order_id =>
      match order_map b !! order_id with
      | None => Done (b, sim, false)
      | Some r =>
          '(b', topChanged) ← removeOrder order_id r b;
          Done (b', sim, topChanged)
      end
  | replace_order price orig_order_id new_order_id q =>
      match order_map b !! orig_order_id with
      | Some r =>
          (* the original is removed and [order_map.erase(orderIt)] run;
             the side of the new order is then taken from
             [orderIt->second.is_bid] *)
          _ ← removeOrder orig_order_id r b;
          Undefined UseAfterErase
      | None =>
          let '(b', topChanged) :=
            insertOrder (price >? 0) price new_order_id q (ev_ts ev) b in
          Done (b', sim, topChanged)
      end
  | amend_order order_id new_qty =>
      match order_map b !! order_id with
      | None => Done (b, sim, false)
      | Some r =>
          match side (ref_is_bid r) b !! ref_price r with
          | None => Done (b, sim, false)
          | Some (total, queue) =>
              match queue_find (order_it r) queue with
              | None => Undefined DanglingIterator
              | Some o =>
                  let qtyDelta := sub_u32 new_qty (qty o) in
                  let o' := {| q_order_id := q_order_id o; qty := new_qty;
                               q_timestamp := ev_ts ev |} in
                  let level : level_t :=
                    (add_u32 total qtyDelta,
                     queue_set (order_it r) o' queue) in
                  Done (set_side (ref_is_bid r)
                          (<[ref_price r := level]> (side (ref_is_bid r) b)) b,
                        sim, atTop r b)
              end
          end
      end
  | reduce_order order_id cxled_qty =>
      match order_map b !! order_id with
      | None => Done (b, sim, false)
      | Some r =>
          match side (ref_is_bid r) b !! ref_price r with
          | None => Done (b, sim, false)
          | Some (total, queue) =>
              match queue_find (order_it r) queue with
              | None => Undefined DanglingIterator
              | Some o =>
                  let o' := {| q_order_id := q_order_id o;
                               qty := sub_u32 (qty o) cxled_qty;
                               q_timestamp := ev_ts ev |} in
                  let level : level_t :=
                    (sub_u32 total cxled_qty,
                     queue_set (order_it r) o' queue) in
                  if (qty o' =? 0)%N then
                    (* the order is erased from its queue and from
                       [order_map]; [ref], a reference into the erased
                       entry, is read for the top-of-book test *)
                    Undefined UseAfterErase
                  else
                    Done (set_side (ref_is_bid r)
                            (<[ref_price r := level]> (side (ref_is_bid r) b))
                            b,
                          sim, false)
              end
          end
      end
  | execute_order order_id traded_qty exec_id =>
      match order_map b !! order_id with
      | None => Done (b, sim, false)
      | Some r =>
          match side (ref_is_bid r) b !! ref_price r with
          | None => Done (b, sim, false)
          | Some (total, queue) =>
              executeOrder fuel ev order_id traded_qty exec_id None r
                           total queue b sim
          end
      end
  | execute_order_at_price order_id traded_qty exec_id exec_price =>
      match order_map b !! order_id with
      | None => Done (b, sim, false)
      | Some r =>
          match side (ref_is_bid r) b !! ref_price r with
          | None => Done (b, sim, false)
          | Some (total, queue) =>
              executeOrder fuel ev order_id traded_qty exec_id
                           (Some exec_price) r total queue b sim
          end
      end
  | clear_book =>
      Done ({| bid_book := ∅; ask_book := ∅; order_map := ∅;
               currentTop := currentTop b;
               next_handle := next_handle b |}, sim, true)
  | other_event => Done (b, sim, false)
  end.

(** One turn of the [while] loop of [runQueueSimulation]. *)
Definition processBookEvent (fuel : nat) (ev : BookEvent)
    (st : BookState * FillSimulator SS)
    : Outcome (BookState * FillSimulator SS) :=
  let '(b, sim) := st in
  '(b', sim', topChanged) ← applyPayload fuel ev (stampTop ev b) sim;
  if topChanged : bool then
    let b'' := updateTopLevels b' in
    sim'' ← processBookTop rev fuel (currentTop b'') sim';
    Done (b'', sim'')
  else Done (b', sim').

Fixpoint runQueueSimulation (fuel : nat) (evs : list BookEvent)
    (st : BookState * FillSimulator SS)
    : Outcome (BookState * FillSimulator SS) :=
  match evs with
  | [] => Done st
  | ev :: rest =>
      st' ← processBookEvent fuel ev st;
      runQueueSimulation fuel rest st'
  end.

End QueueSimulation.

(** ** [BasicStrategy::updateOrdersForBookTop] *)

Module BasicStrategy.

Record OrderInfo := {
  b_orderId : N;
  creationTime : N;
  b_price : Z;
  b_quantity : N;
  b_isBid : bool
}.

(** The members of [BasicStrategy], and the two function-local statics of
    [updateOrdersForBookTop]. *)
Record State := {
  symbolId_ : N;
  nextOrderId_ : N;
  activeOrders_ : list OrderInfo;
  currentBidOrderId_ : N;
  currentAskOrderId_ : N;
  currentBidPrice_ : Z;
  currentAskPrice_ : Z;
  placeBuyOrder : bool;
  lastOrderTime : N
}.

Definition newBasicStrategy : State :=
  {| symbolId_ := 0; nextOrderId_ := 1; activeOrders_ := [];
     currentBidOrderId_ := 0; currentAskOrderId_ := 0;
     currentBidPrice_ := 0; currentAskPrice_ := 0;
     placeBuyOrder := true; lastOrderTime := 0 |}.

(** One share bid at the best bid and one share offered at the best ask, in
    turn, at least 10_000 ns apart; both timestamps of the action are the
    timestamp of the top the strategy was given. *)
Definition updateOrdersForBookTop (bookTop : book_top_t) (st : State)
    : list OrderAction * State :=
  let bid := bid_nanos (top_level bookTop) in
  let ask := ask_nanos (top_level bookTop) in
  if (bid <=? 0) || (ask <=? 0) || (bid >=? ask)
     || (bid =? INT64_MAX) || (ask =? INT64_MAX)
  then ([], st)
  else if (sub_u64 (ts bookTop) (lastOrderTime st) <? 10000)%N then ([], st)
  else
    let buy := placeBuyOrder st in
    let px := if buy then bid else ask in
    let id := nextOrderId_ st in
    let action :=
      {| type := ADD; orderId := id; symbolId := symbolId_ st;
         sent_ts := ts bookTop; md_ts := ts bookTop;
         price := px; quantity := 1; isBid := buy;
         isPostOnly := false |} in
    ([action],
     {| symbolId_ := symbolId_ st;
        nextOrderId_ := add_u64 id 1;
        activeOrders_ :=
          activeOrders_ st
            ++ [{| b_orderId := id; creationTime := ts bookTop;
                   b_price := px; b_quantity := 1; b_isBid := buy |}];
        currentBidOrderId_ := if buy then id else currentBidOrderId_ st;
        currentAskOrderId_ := if buy then currentAskOrderId_ st else id;
        currentBidPrice_ := if buy then px else currentBidPrice_ st;
        currentAskPrice_ := if buy then currentAskPrice_ st else px;
        placeBuyOrder := negb buy;
        lastOrderTime := ts bookTop |}).

Definition set_activeOrders (orders : list OrderInfo) (st : State) : State :=
  {| symbolId_ := symbolId_ st; nextOrderId_ := nextOrderId_ st;
     activeOrders_ := orders;
     currentBidOrderId_ := currentBidOrderId_ st;
     currentAskOrderId_ := currentAskOrderId_ st;
     currentBidPrice_ := currentBidPrice_ st;
     currentAskPrice_ := currentAskPrice_ st;
     placeBuyOrder := placeBuyOrder st; lastOrderTime := lastOrderTime st |}.

Definition set_currentBidOrderId (id : N) (st : State) : State :=
  {| symbolId_ := symbolId_ st; nextOrderId_ := nextOrderId_ st;
     activeOrders_ := activeOrders_ st;
     currentBidOrderId_ := id;
     currentAskOrderId_ := currentAskOrderId_ st;
     currentBidPrice_ := currentBidPrice_ st;
     currentAskPrice_ := currentAskPrice_ st;
     placeBuyOrder := placeBuyOrder st; lastOrderTime := lastOrderTime st |}.

Definition set_currentAskOrderId (id : N) (st : State) : State :=
  {| symbolId_ := symbolId_ st; nextOrderId_ := nextOrderId_ st;
     activeOrders_ := activeOrders_ st;
     currentBidOrderId_ := currentBidOrderId_ st;
     currentAskOrderId_ := id;
     currentBidPrice_ := currentBidPrice_ st;
     currentAskPrice_ := currentAskPrice_ st;
     placeBuyOrder := placeBuyOrder st; lastOrderTime := lastOrderTime st |}.

(** The tracking variable of the order's side is cleared when it names the
    order; shared by [onOrderFilled] and the loop of
    [checkForStaleOrders]. *)
Definition untrack (id : N) (isBid : bool) (st : State) : State :=
  if isBid && (id =? currentBidOrderId_ st)%N
  then set_currentBidOrderId 0 st
  else if negb isBid && (id =? currentAskOrderId_ st)%N
  then set_currentAskOrderId 0 st
  else st.

(** [BasicStrategy::removeOrder]: [erase(remove_if(...))] drops every entry
    with the id and keeps the order of the others. *)
Definition removeOrder (id : N) (st : State) : State :=
  if (id =? 0)%N then st
  else
    let st := set_activeOrders
                (filter (fun order => b_orderId order <> id) (activeOrders_ st))
                st in
    let st := if (id =? currentBidOrderId_ st)%N
              then set_currentBidOrderId 0 st else st in
    if (id =? currentAskOrderId_ st)%N
    then set_currentAskOrderId 0 st else st.

(** [BasicStrategy::onOrderFilled]. *)
Definition onOrderFilled (id : N) (fillPrice : Z) (fillQty : N)
    (isBid : bool) (st : State) : list OrderAction * State :=
  if (id =? 0)%N then ([], st)
  else
    let st := untrack id isBid st in
    if bool_decide (Exists (fun order => b_orderId order = id)
                           (activeOrders_ st))
    then ([], removeOrder id st)
    else ([], st).

(** [BasicStrategy::onFill]. *)
Definition onFill (fill : book_fill_snapshot_t) (st : State)
    : list OrderAction * State :=
  ([], st).

Section Expiry.

(** [checkForStaleOrders] compares the age of an order with
    [ORDER_EXPIRY_TIME_NS], a constant that none of the headers at hand
    declares, and fills in three fields of a default-constructed
    [OrderAction]; the constant and the default-constructed action are left
    open. *)
Variable ORDER_EXPIRY_TIME_NS : N.
Variable defaultAction : OrderAction.

Definition cancelAction (id : N) (st : State) : OrderAction :=
  {| type := CANCEL; orderId := id; symbolId := symbolId_ st;
     sent_ts := sent_ts defaultAction; md_ts := md_ts defaultAction;
     price := price defaultAction; quantity := quantity defaultAction;
     isBid := isBid defaultAction; isPostOnly := isPostOnly defaultAction |}.

(** Whether the loop of [checkForStaleOrders] cancels an order. *)
Definition expired (currentTimestamp : N) (order : OrderInfo) : bool :=
  negb (currentTimestamp <? creationTime order)%N
  && (ORDER_EXPIRY_TIME_NS
        <=? sub_u64 currentTimestamp (creationTime order))%N.

(** One turn of the first loop of [checkForStaleOrders]: the actions and
    the ids collected so far, and the strategy. *)
Definition staleStep (currentTimestamp : N)
    (acc : list OrderAction * list N * State) (order : OrderInfo)
    : list OrderAction * list N * State :=
  let '(actions, orderIdsToRemove, st) := acc in
  if expired currentTimestamp order then
    (actions ++ [cancelAction (b_orderId order) st],
     orderIdsToRemove ++ [b_orderId order],
     untrack (b_orderId order) (b_isBid order) st)
  else acc.

(** [BasicStrategy::checkForStaleOrders]. *)
Definition checkForStaleOrders (currentTimestamp : N) (st : State)
    : list OrderAction * State :=
  match activeOrders_ st with
  | [] => ([], st)
  | _ =>
      let '(actions, orderIdsToRemove, st) :=
        foldl (staleStep currentTimestamp) ([], [], st) (activeOrders_ st) in
      (actions, foldl (fun st id => removeOrder id st) st orderIdsToRemove)
  end.

(** [BasicStrategy::onBookTopUpdate]. *)
Definition onBookTopUpdate (bookTop : book_top_t) (st : State)
    : list OrderAction * State :=
  let bid := bid_nanos (top_level bookTop) in
  let ask := ask_nanos (top_level bookTop) in
  if (bid <=? 0) || (ask <=? 0) || (bid >=? ask) then ([], st)
  else
    let '(cancelActions, st) := checkForStaleOrders (ts bookTop) st in
    let '(newOrderActions, st) := updateOrdersForBookTop bookTop st in
    (cancelActions ++ newOrderActions, st).

(** The strategy as the simulator sees it. *)
Definition strategy : Strategy State :=
  Build_Strategy State onBookTopUpdate onFill onOrderFilled.

End Expiry.

(** [setSymbolId]. *)
Definition setSymbolId (symbolId : N) (st : State) : State :=
  {| symbolId_ := symbolId; nextOrderId_ := nextOrderId_ st;
     activeOrders_ := activeOrders_ st;
     currentBidOrderId_ := currentBidOrderId_ st;
     currentAskOrderId_ := currentAskOrderId_ st;
     currentBidPrice_ := currentBidPrice_ st;
     currentAskPrice_ := currentAskPrice_ st;
     placeBuyOrder := placeBuyOrder st; lastOrderTime := lastOrderTime st |}.

End BasicStrategy.

(** ** Strategies and inputs of the worked examples *)

Module Examples.

(** A strategy that plays a script: each market-data callback answers with
    the next entry; a fill notification gets no answer. *)
#[global] Instance scripted : Strategy (list (list OrderAction)) := {
  onBookTopUpdate _ script := (default [] (head script), tail script);
  onFill _ script := (default [] (head script), tail script);
  onOrderFilled _ _ _ _ script := ([], script)
}.

Definition mkTop (t : N) (bid ask : Z) : book_top_t :=
  {| ts := t; seqno := 0;
     top_level := {| bid_nanos := bid; ask_nanos := ask;
                     bid_qty := 1; ask_qty := 1 |};
     second_level := zero_level; third_level := zero_level |}.

Definition mkAction (ty : ActionType) (id : N) (sent : N) (px : Z) (q : N)
    (bid postOnly : bool) : OrderAction :=
  {| type := ty; orderId := id; symbolId := 7; sent_ts := sent; md_ts := 0;
     price := px; quantity := q; isBid := bid; isPostOnly := postOnly |}.

Definition mkEvent (t : N) (p : BookPayload) : BookEvent :=
  {| ev_ts := t; ev_seq_no := t; payload := p |}.

(** The empty book next to a new simulator, latencies zero, whose scripted
    strategy has nothing to say. *)
Definition startState : BookState * FillSimulator (list (list OrderAction)) :=
  (emptyBook, newFillSimulator [] 0 0).

(** Where a queue-mode run from [startState] ends. *)
Definition afterEvents (evs : list BookEvent)
    : BookState * FillSimulator (list (list OrderAction)) :=
  match runQueueSimulation QueueRevision 1 evs startState with
  | Done st => st
  | _ => startState
  end.

(** One resting bid: order 1, five shares at 99. *)
Definition oneBid : BookState * FillSimulator (list (list OrderAction)) :=
  afterEvents [mkEvent 1000000 (add_order 99 1 5 true)].

(** A two-sided book, 99 bid and 101 offered, the ask added 1 ns after the
    bid. *)
Definition twoSided : BookState * FillSimulator (list (list OrderAction)) :=
  afterEvents [mkEvent 1000000 (add_order 99 1 5 true);
               mkEvent 1000001 (add_order 101 2 5 false)].

(** A strategy in the manner of [BasicStrategy]: on every book top one
    share is bid for at the best bid, under the next free order id. *)
#[global] Instance quoting : Strategy N := {
  onBookTopUpdate bookTop next :=
    ([{| type := ADD; orderId := next; symbolId := 7;
         sent_ts := ts bookTop; md_ts := ts bookTop;
         price := bid_nanos (top_level bookTop); quantity := 1;
         isBid := true; isPostOnly := false |}],
     (next + 1)%N);
  onFill _ next := ([], next);
  onOrderFilled _ _ _ _ next := ([], next)
}.

(** Its actions are for one share each. *)
#[global] Instance quoting_typed : StrategyTyped N.
Proof.
  split; intros; simpl; repeat constructor.
Qed.

(** The quoting strategy after its first book top, 99 bid and 101 offered. *)
Definition quoted : FillSimulator N :=
  match processBookTop QueueRevision 1 (mkTop 1000000 99 101)
                       (newFillSimulator 1%N 1000 10000) with
  | Done sim => sim
  | _ => newFillSimulator 1%N 1000 10000
  end.

(** The quoting strategy after a second book top, 97 bid and 99 offered,
    200_000 ns later: a second bid goes in at 97 and the first one, resting
    at 99, is filled at the new ask. *)
Definition quotedTwice : FillSimulator N :=
  match processBookTop QueueRevision 1 (mkTop 1200000 97 99) quoted with
  | Done sim => sim
  | _ => quoted
  end.

End Examples.

(** ** Vocabulary of the statements *)

(** The notional of a fill as a mathematical integer: the product in the
    queue revision, the product truncated to a multiple of 1000 in the
    latency revision. *)
Definition exactNotional (rev : Revision) (fillPrice : Z) (fillQty : N) : Z :=
  match rev with
  | QueueRevision => fillPrice * Z.of_N fillQty
  | LatencyRevision => Z.quot (fillPrice * Z.of_N fillQty) 1000 * 1000
  end.

(** A price that can be traded at: positive and not the sentinel. *)
Definition validPrice (p : Z) : Prop := 0 < p /\ p <> INT64_MAX.

(** The tops that the validation of [processBookTop] turns away. *)
Definition dropped (rev : Revision) (bookTop : book_top_t) : Prop :=
  let bid := bid_nanos (top_level bookTop) in
  let ask := ask_nanos (top_level bookTop) in
  bid <= 0 \/ ask <= 0 \/ bid >= ask \/
  match rev with
  | QueueRevision => bid > MAX_REASONABLE_PRICE \/ ask > MAX_REASONABLE_PRICE
  | LatencyRevision => bid = INT64_MAX \/ ask = INT64_MAX
  end.

(** Every active order is stored under its own id, with a 32-bit quantity
    and nothing filled yet. *)
Definition tidy {SS} (sim : FillSimulator SS) : Prop :=
  forall id order,
    activeOrders_ sim !! id = Some order ->
    filledQuantity order = 0%N /\ o_orderId order = id /\
    in_u32 (o_quantity order).

(** The states a simulation passes through: a new simulator, and from any
    such state the one left by a book top, by a public fill, or by one
    action of the strategy. *)
Inductive reachable {SS} `{!Strategy SS} (rev : Revision)
    : FillSimulator SS -> Prop :=
  | reach_new strategy md exch :
      reachable rev (newFillSimulator strategy md exch)
  | reach_top fuel bookTop sim sim' :
      reachable rev sim ->
      processBookTop rev fuel bookTop sim = Done sim' ->
      reachable rev sim'
  | reach_fill fuel fill sim sim' :
      reachable rev sim ->
      processBookFill rev fuel fill sim = Done sim' ->
      reachable rev sim'
  | reach_action fuel action bookTop sim sim' :
      reachable rev sim ->
      action_typed action ->
      processAction rev fuel action bookTop sim = Done sim' ->
      reachable rev sim'.

(** What no action and no fill of an order touches: the market state, the
    time of the last accepted top and the count of market-data events. *)
Definition sameMarket {SS} (sim sim' : FillSimulator SS) : Prop :=
  marketState_ sim' = marketState_ sim /\
  lastProcessedTime sim' = lastProcessedTime sim /\
  totalMdEvents (latencyStats_ sim') = totalMdEvents (latencyStats_ sim).

(** The events of a stream that get past the two early returns of
    [processBookTop], when the last top that did was at [last]: every fill,
    and every top that is neither too soon nor dropped. *)
Fixpoint delivered (rev : Revision) (last : N) (evs : list MdEvent)
    : list MdEvent :=
  match evs with
  | [] => []
  | FillEvent fill :: rest => FillEvent fill :: delivered rev last rest
  | TopEvent bookTop :: rest =>
      if tooSoon last bookTop || invalidBookTop rev bookTop
      then delivered rev last rest
      else TopEvent bookTop :: delivered rev (ts bookTop) rest
  end.

(** The time of an event, and the order of two calls in a merged stream: by
    time, a top before a fill of the same time. *)
Definition evTime (ev : MdEvent) : N :=
  match ev with
  | TopEvent bookTop => ts bookTop
  | FillEvent fill => fill_ts fill
  end.

Definition evBefore (e1 e2 : MdEvent) : Prop :=
  match e1, e2 with
  | FillEvent fill, TopEvent bookTop => (fill_ts fill < ts bookTop)%N
  | _, _ => (evTime e1 <= evTime e2)%N
  end.

Definition topsOf (evs : list MdEvent) : list book_top_t :=
  omap (fun ev => match ev with TopEvent t => Some t | _ => None end) evs.

Definition fillsOf (evs : list MdEvent) : list book_fill_snapshot_t :=
  omap (fun ev => match ev with FillEvent f => Some f | _ => None end) evs.

(** What a price level of the queue book holds: the quantities of its
    queue added up, and the order ids of the queue from front to back. *)
Definition sumQty (queue : order_queue_t) : N :=
  foldr (fun e acc => (qty e.2 + acc)%N) 0%N queue.

Definition queueIds (queue : order_queue_t) : list N :=
  (fun e => q_order_id e.2) <$> queue.

(** Every level's quantity is the sum of its queue, in [uint32_t]. *)
Definition levelSums (book : gmap Z level_t) : Prop :=
  map_Forall (fun _ (l : level_t) => l.1 = (sumQty l.2 mod UINT32_MOD)%N) book.

Definition bookSums (b : BookState) : Prop :=
  levelSums (bid_book b) /\ levelSums (ask_book b).

(** The payloads that look an order up and touch nothing but that order:
    amend, reduce and the two executions. *)
Definition inPlace (p : BookPayload) : bool :=
  match p with
  | amend_order _ _ | reduce_order _ _
  | execute_order _ _ _ | execute_order_at_price _ _ _ _ => true
  | _ => false
  end.

(** The order id a payload looks up in [order_map] before anything else;
    [replace_order] is left out, it inserts when the id is missing. *)
Definition namedOrder (p : BookPayload) : option N :=
  match p with
  | delete_order id | amend_order id _ | reduce_order id _
  | execute_order id _ _ | execute_order_at_price id _ _ _ => Some id
  | _ => None
  end.

(** The calls the simulator makes on a strategy, and a strategy taken
    through a sequence of them: the actions it answers with, in order, and
    its state at the end. *)
Inductive Callback :=
  | CallBookTop (bookTop : book_top_t)
  | CallFill (fill : book_fill_snapshot_t)
  | CallOrderFilled (id : N) (fillPrice : Z) (fillQty : N) (isBid : bool).

Definition call {SS : Type} `{!Strategy SS} (c : Callback) (ss : SS)
    : list OrderAction * SS :=
  match c with
  | CallBookTop bookTop => onBookTopUpdate bookTop ss
  | CallFill fill => onFill fill ss
  | CallOrderFilled id fillPrice fillQty isBid =>
      onOrderFilled id fillPrice fillQty isBid ss
  end.

Fixpoint callAll {SS : Type} `{!Strategy SS} (cs : list Callback) (ss : SS)
    : list OrderAction * SS :=
  match cs with
  | [] => ([], ss)
  | c :: rest =>
      let '(actions, ss) := call c ss in
      let '(more, ss) := callAll rest ss in
      (actions ++ more, ss)
  end.

Definition isAdd (a : OrderAction) : bool :=
  match type a with ADD => true | _ => false end.

(** [n] order ids counted up from [next] in [uint64_t], and [n] sides in
    turn from [buy]. *)
Fixpoint idsFrom (next : N) (n : nat) : list N :=
  match n with
  | O => []
  | S n => next :: idsFrom (add_u64 next 1) n
  end.

Fixpoint sidesFrom (buy : bool) (n : nat) : list bool :=
  match n with
  | O => []
  | S n => buy :: sidesFrom (negb buy) n
  end.

(** What only [updateOrdersForBookTop] writes of a [BasicStrategy]. *)
Definition sameCounters (st st' : BasicStrategy.State) : Prop :=
  BasicStrategy.nextOrderId_ st' = BasicStrategy.nextOrderId_ st /\
  BasicStrategy.placeBuyOrder st' = BasicStrategy.placeBuyOrder st /\
  BasicStrategy.lastOrderTime st' = BasicStrategy.lastOrderTime st /\
  BasicStrategy.symbolId_ st' = BasicStrategy.symbolId_ st.

(** The ids of the orders a [BasicStrategy] holds, in the order of its
    list. *)
Definition heldIds (st : BasicStrategy.State) : list N :=
  BasicStrategy.b_orderId <$> BasicStrategy.activeOrders_ st.

(** A [BasicStrategy] whose list holds each id once, every id above zero
    and below the id counter, which is not zero either. *)
Definition wellKept (st : BasicStrategy.State) : Prop :=
  NoDup (heldIds st) /\
  (0 < BasicStrategy.nextOrderId_ st)%N /\
  Forall (fun id => (0 < id < BasicStrategy.nextOrderId_ st)%N) (heldIds st).

(** The simulator's active orders are the orders with the ids [ids], each
    stored under its id, for one share, with nothing filled. *)
Definition holds {SS} (ids : list N) (sim : FillSimulator SS) : Prop :=
  (forall id, id ∈ ids <-> is_Some (activeOrders_ sim !! id)) /\
  (forall id order,
     activeOrders_ sim !! id = Some order ->
     o_orderId order = id /\ o_quantity order = 1%N /\
     filledQuantity order = 0%N).

(** The strategy's list of its orders and the simulator's active orders
    agree. *)
Definition mirrored (sim : FillSimulator BasicStrategy.State) : Prop :=
  wellKept (strategy_ sim) /\ holds (heldIds (strategy_ sim)) sim.

(** What the fill of an order leaves alone: the strategy's id counter, the
    market state and the time of the last accepted top. *)
Definition undisturbed (sim sim' : FillSimulator BasicStrategy.State) : Prop :=
  BasicStrategy.nextOrderId_ (strategy_ sim')
    = BasicStrategy.nextOrderId_ (strategy_ sim) /\
  marketState_ sim' = marketState_ sim /\
  lastProcessedTime sim' = lastProcessedTime sim.

(** The latency totals are multiples of the configured latencies, in
    [uint64_t]: the market-data total is the latency times the number of
    market-data events. *)
Definition paced {SS} (sim : FillSimulator SS) : Prop :=
  let st := latencyStats_ sim in
  totalMdToStrategyLatencyNs st
    = ((totalMdEvents st * strategyMdLatencyNs_ sim) mod UINT64_MOD)%N /\
  (exists k, totalStrategyToExchangeLatencyNs st
             = ((k * exchangeLatencyNs_ sim) mod UINT64_MOD)%N) /\
  (exists k, totalExchangeToNotificationLatencyNs st
             = ((k * exchangeLatencyNs_ sim) mod UINT64_MOD)%N).

Definition keepsPace {SS} (sim sim' : FillSimulator SS) : Prop :=
  strategyMdLatencyNs_ sim' = strategyMdLatencyNs_ sim /\
  exchangeLatencyNs_ sim' = exchangeLatencyNs_ sim /\
  (paced sim -> paced sim').

(** The stored market state fits the stored top: the time of the last
    accepted top is the top's, the mid price is the mid of its first level
    (in [int64_t], rounded towards zero), and the top is either the
    value-initialised one or one the validation lets through. *)
Definition coherent {SS} (rev : Revision) (sim : FillSimulator SS) : Prop :=
  let ms := marketState_ sim in
  let top := top_level (lastBookTop ms) in
  lastProcessedTime sim = ts (lastBookTop ms) /\
  lastValidMidPrice ms = Z.quot (add_i64 (bid_nanos top) (ask_nanos top)) 2 /\
  (lastBookTop ms = zero_top \/ invalidBookTop rev (lastBookTop ms) = false).

(** Adds whose [sent_ts] are each at least 10_000 ns after the one before,
    the first after [last], the difference taken in [uint64_t]. *)
Fixpoint spaced (last : N) (adds : list OrderAction) : Prop :=
  match adds with
  | [] => True
  | a :: rest =>
      (10000 <= sub_u64 (sent_ts a) last)%N /\ spaced (sent_ts a) rest
  end.




Fixpoint countType (ty : N) (records : list OrderRecord) : nat :=
  match records with
  | [] => 0
  | r :: rest =>
      ((if (event_type r =? ty)%N then 1 else 0) + countType ty rest)%nat
  end.


(** Nothing written is taken back, and the two latencies stay as
    configured. *)
Definition extends {SS} (sim sim' : FillSimulator SS) : Prop :=
  outputFile_ sim `prefix_of` outputFile_ sim' /\
  strategyMdLatencyNs_ sim' = strategyMdLatencyNs_ sim /\
  exchangeLatencyNs_ sim' = exchangeLatencyNs_ sim.

(** Fill records and active orders together never outnumber the add
    records. *)
Definition balanced {SS} (sim : FillSimulator SS) : Prop :=
  (countType 3 (outputFile_ sim) + size (activeOrders_ sim)
   <= countType 1 (outputFile_ sim))%nat.

(** * Properties *)

(** ** Machine arithmetic *)

Lemma wrap_i64_id z : in_i64 z -> wrap_i64 z = z.
Proof.
  unfold in_i64, INT64_MIN, INT64_MAX, wrap_i64. intros Hz.
  rewrite Z.mod_small by lia. lia.
Qed.

Lemma add_u32_0_l n : in_u32 n -> add_u32 0 n = n.
Proof.
  unfold in_u32, add_u32. intros Hn. rewrite N.add_0_l.
  by apply N.mod_small.
Qed.

Lemma add_u32_lt a b : (add_u32 a b < UINT32_MOD)%N.
Proof. unfold add_u32. apply N.mod_lt. done. Qed.

Lemma sub_u32_0_r n : in_u32 n -> sub_u32 n 0 = n.
Proof.
  unfold in_u32, sub_u32, UINT32_MOD. intros Hn.
  rewrite Z.sub_0_r, Z.mod_small by lia. lia.
Qed.

(** Subtracting more than there is wraps to [a + 2^32 - b]. *)
Lemma sub_u32_wrap a b :
  in_u32 a -> in_u32 b -> (a < b)%N ->
  sub_u32 a b = (a + UINT32_MOD - b)%N.
Proof.
  unfold in_u32, sub_u32, UINT32_MOD. intros Ha Hb Hlt.
  rewrite <- (Z_mod_plus_full (Z.of_N a - Z.of_N b) 1 (2 ^ 32)).
  rewrite Z.mod_small by lia. lia.
Qed.


(** ** Matching against the stored top *)

Section Matching.
Context {SS : Type} `{!Strategy SS}.
Implicit Type sim : FillSimulator SS.

Lemma wouldOrderBeFilled_state id b p q sim :
  (wouldOrderBeFilled id b p q sim).2 = sim.
Proof.
  unfold wouldOrderBeFilled.
  repeat (case_match; simpl; try reflexivity).
Qed.

(** The answer depends on the stored top only. *)
Lemma wouldOrderBeFilled_market id b p q sim1 sim2 :
  marketState_ sim1 = marketState_ sim2 ->
  (wouldOrderBeFilled id b p q sim1).1 = (wouldOrderBeFilled id b p q sim2).1.
Proof.
  intros Hm. unfold wouldOrderBeFilled. rewrite Hm.
  repeat (case_match; simpl; try reflexivity).
Qed.

Lemma wouldOrderBeFilled_eta id b p q sim :
  wouldOrderBeFilled id b p q sim = ((wouldOrderBeFilled id b p q sim).1, sim).
Proof.
  rewrite <- (wouldOrderBeFilled_state id b p q sim) at 3.
  by destruct (wouldOrderBeFilled id b p q sim).
Qed.

(** C1.  [wouldOrderBeFilled] leaves the simulator as it was, and answers
    [true] exactly when the price is positive, the quantity nonzero and,
    for a bid, the stored best ask is valid (positive, not [INT64_MAX])
    and at most the price; for an ask, the stored best bid is valid and at
    least the price.  So a non-positive price or a zero quantity always
    gives [false]. *)
Theorem wouldOrderBeFilled_spec (id : N) (isBid : bool) (price : Z)
    (quantity : N) sim :
  let bestAsk := ask_nanos (top_level (lastBookTop (marketState_ sim))) in
  let bestBid := bid_nanos (top_level (lastBookTop (marketState_ sim))) in
  (wouldOrderBeFilled id isBid price quantity sim).2 = sim /\
  ((wouldOrderBeFilled id isBid price quantity sim).1 = true <->
   0 < price /\ quantity <> 0%N /\
   if isBid then validPrice bestAsk /\ price >= bestAsk
   else validPrice bestBid /\ price <= bestBid).
Proof.
  intros bestAsk bestBid. split; [apply wouldOrderBeFilled_state|].
  unfold wouldOrderBeFilled, validPrice. fold bestAsk bestBid.
  destruct (Z.leb_spec price 0), (N.eqb_spec quantity 0); simpl;
    try (split; [discriminate | intros (? & ? & _); lia]).
  destruct isBid.
  - destruct (Z.leb_spec bestAsk 0), (Z.eqb_spec bestAsk INT64_MAX); simpl;
      try (split; [discriminate | intros (_ & _ & [? ?] & _); lia]).
    destruct (Z.geb_spec price bestAsk); simpl.
    + split; [intros _; repeat split; try lia; done | done].
    + split; [discriminate | intros (_ & _ & _ & ?); lia].
  - destruct (Z.leb_spec bestBid 0), (Z.eqb_spec bestBid INT64_MAX); simpl;
      try (split; [discriminate | intros (_ & _ & [? ?] & _); lia]).
    destruct (Z.leb_spec price bestBid); simpl.
    + split; [intros _; repeat split; try lia; done | done].
    + split; [discriminate | intros (_ & _ & _ & ?); lia].
Qed.

End Matching.

(** ** Processing an ADD *)

Section Adding.
Context {SS : Type} `{!Strategy SS}.
Variable rev : Revision.
Implicit Type sim : FillSimulator SS.

Lemma noteCrossing_market action sim :
  marketState_ (noteCrossing action sim) = marketState_ sim.
Proof.
  unfold noteCrossing. destruct (type action); try reflexivity;
    rewrite wouldOrderBeFilled_eta; by case_match.
Qed.

Lemma noteCrossing_orders action sim :
  activeOrders_ (noteCrossing action sim) = activeOrders_ sim.
Proof.
  unfold noteCrossing. destruct (type action); try reflexivity;
    rewrite wouldOrderBeFilled_eta; by case_match.
Qed.

Lemma noteCrossing_books action sim :
  position_ (noteCrossing action sim) = position_ sim /\
  cashFlow_ (noteCrossing action sim) = cashFlow_ sim /\
  outputFile_ (noteCrossing action sim) = outputFile_ sim /\
  totalOrdersPlaced_ (noteCrossing action sim) = totalOrdersPlaced_ sim /\
  totalOrdersFilled_ (noteCrossing action sim) = totalOrdersFilled_ sim.
Proof.
  unfold noteCrossing. destruct (type action); try done;
    rewrite wouldOrderBeFilled_eta; by case_match.
Qed.

(** How [processAction] runs an ADD, in terms of the state [placed] that
    holds once the order is inserted and its add record written. *)
Lemma processAction_add fuel action bookTop sim :
  type action = ADD ->
  let placed := placeOrder action (noteCrossing action sim) in
  processAction rev (S fuel) action bookTop sim =
    if (wouldOrderBeFilled (orderId action) (isBid action) (price action)
                           (quantity action) sim).1
    then
      if isPostOnly action then Done (cancelPostOnly action placed)
      else processFill rev fuel (orderId action)
             (opposingPrice (isBid action) bookTop) (quantity action)
             (isBid action) (applyExchangeLatency placed (md_ts action))
             placed
    else Done placed.
Proof.
  intros Hadd placed. simpl. rewrite Hadd. fold placed.
  rewrite wouldOrderBeFilled_eta.
  rewrite (wouldOrderBeFilled_market _ _ _ _ placed sim); [done|].
  unfold placed. simpl. apply noteCrossing_market.
Qed.

(** C2.  An ADD that crosses the stored top and is post-only: when
    [processAction] is done the order is not in the active set, the output
    has grown by the add record (type 1) followed by a cancel record
    (type 2) for the same order, and position, cash flow and the filled
    counter are what they were. *)
Theorem post_only_crossing_add_is_cancelled (fuel : nat)
    (action : OrderAction) (bookTop : book_top_t) sim :
  type action = ADD ->
  isPostOnly action = true ->
  (wouldOrderBeFilled (orderId action) (isBid action) (price action)
                      (quantity action) sim).1 = true ->
  exists sim' add cancel,
    processAction rev (S fuel) action bookTop sim = Done sim' /\
    activeOrders_ sim' !! orderId action = None /\
    outputFile_ sim' = outputFile_ sim ++ [add; cancel] /\
    event_type add = 1%N /\ order_id add = orderId action /\
    event_type cancel = 2%N /\ order_id cancel = orderId action /\
    position_ sim' = position_ sim /\
    cashFlow_ sim' = cashFlow_ sim /\
    totalOrdersFilled_ sim' = totalOrdersFilled_ sim.
Proof.
  intros Hadd Hpost Hcross.
  eexists _, (addRecord action), _.
  rewrite processAction_add, Hcross, Hpost by done.
  destruct (noteCrossing_books action sim) as (Hp & Hc & Ho & _ & Hf).
  split; [reflexivity|]. simpl.
  rewrite lookup_delete_eq, Hp, Hc, Ho, Hf, <- app_assoc. simpl.
  repeat split.
Qed.

(** C10.  An ADD whose id is already active.  In the state [placed]
    reached by the insertion, the entry under that id is the new order
    with nothing filled (the old price, quantity and fill progress are
    gone), every other entry is as before, [totalOrdersPlaced_] is one
    more, and the output has grown by exactly one record, of type 1, for
    the new order: no cancel record is written for the order that was
    overwritten.  From [placed] the action goes on as any ADD does: done
    if it does not cross, cancelled if it crosses and is post-only, filled
    otherwise. *)
Theorem add_of_active_id_overwrites (fuel : nat) (action : OrderAction)
    (bookTop : book_top_t) sim (old : OrderInfo) :
  type action = ADD ->
  activeOrders_ sim !! orderId action = Some old ->
  let placed := placeOrder action (noteCrossing action sim) in
  activeOrders_ placed
    = <[orderId action := orderOfAction action]> (activeOrders_ sim) /\
  activeOrders_ placed !! orderId action = Some (orderOfAction action) /\
  filledQuantity (orderOfAction action) = 0%N /\
  o_price (orderOfAction action) = price action /\
  o_quantity (orderOfAction action) = quantity action /\
  totalOrdersPlaced_ placed = add_u64 (totalOrdersPlaced_ sim) 1 /\
  outputFile_ placed = outputFile_ sim ++ [addRecord action] /\
  event_type (addRecord action) = 1%N /\
  position_ placed = position_ sim /\
  cashFlow_ placed = cashFlow_ sim /\
  processAction rev (S fuel) action bookTop sim =
    if (wouldOrderBeFilled (orderId action) (isBid action) (price action)
                           (quantity action) sim).1
    then
      if isPostOnly action then Done (cancelPostOnly action placed)
      else processFill rev fuel (orderId action)
             (opposingPrice (isBid action) bookTop) (quantity action)
             (isBid action) (applyExchangeLatency placed (md_ts action))
             placed
    else Done placed.
Proof.
  intros Hadd Hold placed.
  destruct (noteCrossing_books action sim) as (Hp & Hc & Ho & Hn & _).
  pose proof (processAction_add fuel action bookTop sim Hadd) as Hrun.
  split_and!; try done; subst placed; simpl.
  - by rewrite noteCrossing_orders.
  - by rewrite lookup_insert_eq.
  - by rewrite Hn.
  - by rewrite Ho.
Qed.

End Adding.

(** ** What actions and fills leave alone *)

Section Frame.
Context {SS : Type} `{!Strategy SS}.
Variable rev : Revision.
Implicit Type sim : FillSimulator SS.

Lemma sameMarket_refl sim : sameMarket sim sim.
Proof. done. Qed.

Lemma sameMarket_trans sim1 sim2 sim3 :
  sameMarket sim1 sim2 -> sameMarket sim2 sim3 -> sameMarket sim1 sim3.
Proof.
  unfold sameMarket. intros (-> & -> & ->) (-> & -> & ->). done.
Qed.

Lemma sameMarket_noteCrossing action sim :
  sameMarket sim (noteCrossing action sim).
Proof.
  unfold noteCrossing. destruct (type action); try done;
    rewrite wouldOrderBeFilled_eta; by case_match.
Qed.

Lemma sameMarket_bookFill id px q b t sim t' sim' :
  bookFill rev id px q b t sim = Some (t', sim') -> sameMarket sim sim'.
Proof.
  unfold bookFill. destruct (activeOrders_ sim !! id); [|done].
  destruct (_ || _); [done|]. intros [= _ <-].
  unfold sameMarket. simpl. by destruct (0 <? _)%N.
Qed.

Lemma sameMarket_submitWith process t bookTop actions :
  (forall action bt sim sim',
     process action bt sim = Done sim' -> sameMarket sim sim') ->
  forall sim sim',
    submitWith process t bookTop actions sim = Done sim' ->
    sameMarket sim sim'.
Proof.
  intros Hproc. induction actions as [|action rest IH]; intros sim sim'; simpl.
  - by intros [= <-].
  - destruct (process _ _ _) as [sim1| |] eqn:Hp; simpl; [|done..].
    intros Hrest%IH. apply Hproc in Hp.
    eapply sameMarket_trans; [|exact Hrest].
    eapply sameMarket_trans; [|exact Hp]. done.
Qed.

Lemma sameMarket_processAction_processFill fuel :
  (forall action bookTop sim sim',
     processAction rev fuel action bookTop sim = Done sim' ->
     sameMarket sim sim') /\
  (forall id px q b t sim sim',
     processFill rev fuel id px q b t sim = Done sim' -> sameMarket sim sim').
Proof.
  induction fuel as [|fuel [IHa IHf]]; [by split|]. split.
  - intros action bookTop sim sim'. simpl.
    pose proof (sameMarket_noteCrossing action sim) as H1.
    destruct (type action).
    + rewrite wouldOrderBeFilled_eta.
      destruct (wouldOrderBeFilled _ _ _ _ _).1; cbv beta iota.
      * destruct (isPostOnly action).
        -- intros [= <-]. exact H1.
        -- intros Hf%IHf. eapply sameMarket_trans; [|exact Hf]. exact H1.
      * intros [= <-]. exact H1.
    + intros [= <-]. unfold cancelOrder.
      by destruct (activeOrders_ _ !! _).
    + destruct (activeOrders_ _ !! _) as [order|]; [|by intros [= <-]].
      rewrite wouldOrderBeFilled_eta.
      destruct (wouldOrderBeFilled _ _ _ _ _).1; cbv beta iota.
      * destruct (o_isPostOnly order); [done|].
        intros Hf%IHf. eapply sameMarket_trans; [|exact Hf]. exact H1.
      * intros [= <-]. exact H1.
  - intros id px q b t sim sim'. simpl.
    destruct (bookFill _ _ _ _ _ _ _) as [[t' sim1]|] eqn:Hb;
      [|by intros [= <-]].
    apply sameMarket_bookFill in Hb.
    destruct (onOrderFilled _ _ _ _ _) as [actions strategy].
    intros Hs%(sameMarket_submitWith _ _ _ _ IHa).
    eapply sameMarket_trans; [exact Hb|exact Hs].
Qed.

Lemma sameMarket_reevaluate fuel bookTop ids :
  forall sim sim',
    reevaluate rev fuel bookTop ids sim = Done sim' -> sameMarket sim sim'.
Proof.
  induction ids as [|id ids IH]; intros sim sim'; simpl.
  - by intros [= <-].
  - destruct (activeOrders_ sim !! id) as [order|]; [|by apply IH].
    rewrite wouldOrderBeFilled_eta.
    destruct (wouldOrderBeFilled _ _ _ _ _).1; [|by apply IH].
    destruct (processFill _ _ _ _ _ _ _ _) as [sim1| |] eqn:Hp; simpl;
      [|done..].
    intros Hrest%IH.
    apply (proj2 (sameMarket_processAction_processFill fuel)) in Hp.
    by eapply sameMarket_trans.
Qed.

(** A top that is delivered is the stored top afterwards, its time is the
    time of the last accepted top, and it has been counted once. *)
Lemma deliverBookTop_stores fuel bookTop sim sim' :
  deliverBookTop rev fuel bookTop sim = Done sim' ->
  lastBookTop (marketState_ sim') = bookTop /\
  lastProcessedTime sim' = ts bookTop /\
  totalMdEvents (latencyStats_ sim')
    = add_u64 (totalMdEvents (latencyStats_ sim)) 1.
Proof.
  unfold deliverBookTop. cbv zeta.
  destruct (onBookTopUpdate _ _) as [actions strategy].
  destruct (submitWith _ _ _ _ _) as [sim1| |] eqn:Hsub; simpl; [|done..].
  intros Hre%sameMarket_reevaluate.
  apply (sameMarket_submitWith _ _ _ _
           (proj1 (sameMarket_processAction_processFill fuel))) in Hsub.
  destruct (sameMarket_trans _ _ _ Hsub Hre) as (-> & -> & ->). done.
Qed.

End Frame.

(** ** The book-top filter *)

Lemma invalidBookTop_dropped rev bookTop :
  invalidBookTop rev bookTop = true <-> dropped rev bookTop.
Proof.
  unfold invalidBookTop, dropped.
  destruct rev; rewrite !orb_true_iff;
    rewrite ?Z.leb_le, ?Z.geb_le, ?Z.gtb_lt, ?Z.eqb_eq; lia.
Qed.

Section Filter.
Context {SS : Type} `{!Strategy SS}.
Implicit Type sim : FillSimulator SS.

Lemma processBookTop_dropped rev fuel bookTop sim :
  dropped rev bookTop -> processBookTop rev fuel bookTop sim = Done sim.
Proof.
  intros Hd%invalidBookTop_dropped. unfold processBookTop.
  rewrite Hd. by destruct (tooSoon _ _).
Qed.

(** C3, as the code has it.  A top with a non-positive bid or ask, with
    [bid >= ask], or (queue revision) with a bid or ask above
    [MAX_REASONABLE_PRICE = 10^13] is dropped: [processBookTop] returns the
    simulator it was given, records included.  The latency revision turns
    away the [INT64_MAX] sentinel instead of prices above [10^13].  As the
    bid has to stay below the ask, in the queue revision a top whose bid is
    [10^13] is dropped whatever its ask; the largest bid that passes is
    [10^13 - 1], with the ask at [10^13]: such a top, when it does not come
    too soon after the last one, is delivered. *)
Theorem processBookTop_filter :
  (forall rev fuel bookTop sim,
     dropped rev bookTop -> processBookTop rev fuel bookTop sim = Done sim) /\
  (forall fuel bookTop sim,
     bid_nanos (top_level bookTop) = MAX_REASONABLE_PRICE ->
     processBookTop QueueRevision fuel bookTop sim = Done sim) /\
  (forall fuel bookTop sim,
     bid_nanos (top_level bookTop) = MAX_REASONABLE_PRICE - 1 ->
     ask_nanos (top_level bookTop) = MAX_REASONABLE_PRICE ->
     tooSoon (lastProcessedTime sim) bookTop = false ->
     processBookTop QueueRevision fuel bookTop sim
       = deliverBookTop QueueRevision fuel bookTop sim /\
     forall sim',
       processBookTop QueueRevision fuel bookTop sim = Done sim' ->
       lastBookTop (marketState_ sim') = bookTop /\
       totalMdEvents (latencyStats_ sim')
         = add_u64 (totalMdEvents (latencyStats_ sim)) 1).
Proof.
  split_and!.
  - apply processBookTop_dropped.
  - intros fuel bookTop sim Hbid. apply processBookTop_dropped.
    unfold dropped. rewrite Hbid. lia.
  - intros fuel bookTop sim Hbid Hask Hsoon.
    assert (Hrun : processBookTop QueueRevision fuel bookTop sim
                   = deliverBookTop QueueRevision fuel bookTop sim).
    { unfold processBookTop. rewrite Hsoon.
      unfold invalidBookTop. by rewrite Hbid, Hask. }
    split; [done|]. intros sim'. rewrite Hrun.
    intros (Htop & _ & Hcount)%deliverBookTop_stores. done.
Qed.

End Filter.

(** C3, the spec's boundary case: in the queue revision a top with
    [bid = 10^13] and an ask one nano above it is dropped; the simulator,
    here a new one, is returned as it was, still without a stored top. *)
Lemma top_with_bid_at_max_is_dropped :
  let sim : FillSimulator (list (list OrderAction)) :=
    newFillSimulator [] 0 0 in
  let bookTop := Examples.mkTop 1000000 (10 ^ 13) (10 ^ 13 + 1) in
  processBookTop QueueRevision 1 bookTop sim = Done sim /\
  lastBookTop (marketState_ sim) = zero_top /\
  totalMdEvents (latencyStats_ sim) = 0%N.
Proof. vm_compute. done. Qed.

(** The latency revision has no bound at [10^13]: a top one and two nanos
    above it is stored and counted. *)
Lemma latency_revision_accepts_above_max :
  let sim : FillSimulator (list (list OrderAction)) :=
    newFillSimulator [] 0 0 in
  let bookTop := Examples.mkTop 1000000 (10 ^ 13 + 1) (10 ^ 13 + 2) in
  exists sim',
    processBookTop LatencyRevision 1 bookTop sim = Done sim' /\
    lastBookTop (marketState_ sim') = bookTop /\
    totalMdEvents (latencyStats_ sim') = 1%N.
Proof.
  eexists. split_and!.
  - vm_compute. reflexivity.
  - reflexivity.
  - reflexivity.
Qed.

(** The filter at work on two concrete tops: a crossed one is dropped, the
    one with the largest bid that passes is stored and counted. *)
Lemma processBookTop_filter_witness :
  let sim : FillSimulator (list (list OrderAction)) :=
    newFillSimulator [] 0 0 in
  let best := Examples.mkTop 1000000 (10 ^ 13 - 1) (10 ^ 13) in
  processBookTop QueueRevision 1 (Examples.mkTop 1000000 101 99) sim
    = Done sim /\
  exists sim',
    processBookTop QueueRevision 1 best sim = Done sim' /\
    lastBookTop (marketState_ sim') = best /\
    totalMdEvents (latencyStats_ sim') = 1%N.
Proof.
  intros sim best. split.
  - apply (proj1 processBookTop_filter QueueRevision 1%nat
             (Examples.mkTop 1000000 101 99) sim).
    unfold dropped. simpl. lia.
  - destruct (proj2 (proj2 processBookTop_filter) 1%nat best sim
                eq_refl eq_refl eq_refl) as [Hrun Hstored].
    eexists. split; [vm_compute; reflexivity|].
    apply Hstored. vm_compute. reflexivity.
Defined.

(** ** Stamping the strategy's actions *)

Section Stamping.
Context {SS : Type} `{!Strategy SS}.
Implicit Type sim : FillSimulator SS.

(** C4, as the code has it.  An action answered at the delayed time [t]
    keeps a nonzero [sent_ts] and gets [t] for a zero one; its [md_ts] is
    [t] plus the exchange latency, whatever [sent_ts] is, so it is
    [sent_ts] plus the exchange latency when the strategy left [sent_ts]
    zero or set it to [t]; the strategy-to-exchange accumulator grows by the
    exchange latency; and the action is processed in that form.  For a
    public fill, [t] is the fill's timestamp plus the market-data latency.
    The orders of [BasicStrategy::updateOrdersForBookTop] carry the
    timestamp of the delayed top as [sent_ts], so for them [md_ts] is
    [sent_ts] plus the exchange latency. *)
Theorem action_stamping (rev : Revision) (fuel : nat)
    (process : OrderAction -> book_top_t -> FillSimulator SS ->
               Outcome (FillSimulator SS))
    (t : N) (bookTop : book_top_t) (action : OrderAction)
    (rest : list OrderAction) (fill : book_fill_snapshot_t) sim
    (delayedBookTop : book_top_t) (basic : BasicStrategy.State) :
  let delayed := delayAction sim t action in
  let exch := exchangeLatencyNs_ sim in
  sent_ts delayed = (if (sent_ts action =? 0)%N then t else sent_ts action) /\
  md_ts delayed = add_u64 t exch /\
  (sent_ts action = 0%N \/ sent_ts action = t ->
   md_ts delayed = add_u64 (sent_ts delayed) exch) /\
  totalStrategyToExchangeLatencyNs (latencyStats_ (noteStrategyToExchange sim))
    = add_u64 (totalStrategyToExchangeLatencyNs (latencyStats_ sim)) exch /\
  submitWith process t bookTop (action :: rest) sim
    = (sim' ← process delayed bookTop (noteStrategyToExchange sim);
       submitWith process t bookTop rest sim') /\
  processBookFill rev fuel fill sim
    = (let t' := add_u64 (fill_ts fill) (strategyMdLatencyNs_ sim) in
       let answer := onFill (with_fill_ts t' fill) (strategy_ sim) in
       submitWith (processAction rev fuel) t' (lastBookTop (marketState_ sim))
                  answer.1 (set_strategy answer.2 (noteMdEvent sim))) /\
  Forall (fun a =>
            let a' := delayAction sim (ts delayedBookTop) a in
            sent_ts a = ts delayedBookTop /\
            md_ts a' = add_u64 (sent_ts a') exch)
         (BasicStrategy.updateOrdersForBookTop delayedBookTop basic).1.
Proof.
  intros delayed exch.
  assert (Hsame : forall a u,
            sent_ts a = 0%N \/ sent_ts a = u ->
            md_ts (delayAction sim u a)
              = add_u64 (sent_ts (delayAction sim u a)) exch).
  { intros a u [H0 | Hu]; simpl; unfold applyExchangeLatency.
    - by rewrite H0.
    - rewrite Hu. by destruct (u =? 0)%N. }
  split_and!; try reflexivity.
  - apply Hsame.
  - unfold processBookFill. simpl.
    by destruct (onFill _ _).
  - unfold BasicStrategy.updateOrdersForBookTop. cbv zeta.
    destruct (_ || _); [by constructor|].
    destruct (_ <? _)%N; [by constructor|].
    constructor; [|by constructor].
    split; [reflexivity|]. apply Hsame. by right.
Qed.

End Stamping.

(** C4, a strategy that stamps its own [sent_ts].  Latencies 2000 and 5000;
    the top comes at 10_000_000, so the strategy is called at 10_002_000.
    It answers with a resting bid whose [sent_ts] is 1.  The order is
    stored with [sent_ts = 1] and [md_ts = 10_007_000], which is the call
    time plus 5000 and not [sent_ts] plus 5000. *)
Lemma md_ts_ignores_supplied_sent_ts :
  exists sim' order,
    processBookTop QueueRevision 1 (Examples.mkTop 10000000 99 101)
      (newFillSimulator [[Examples.mkAction ADD 1 1 100 1 true false]] 2000 5000)
      = Done sim' /\
    activeOrders_ sim' !! 1%N = Some order /\
    o_sent_ts order = 1%N /\
    o_md_ts order = 10007000%N /\
    add_u64 (o_sent_ts order) 5000 = 5001%N.
Proof.
  eexists _, _. split_and!.
  - vm_compute. reflexivity.
  - vm_compute. reflexivity.
  - reflexivity.
  - reflexivity.
  - reflexivity.
Qed.

(** ** Position and cash *)

Lemma fillNotional_exact rev fillPrice fillQty :
  in_i64 (fillPrice * Z.of_N fillQty) ->
  fillNotional rev fillPrice fillQty = exactNotional rev fillPrice fillQty.
Proof.
  intros Hr. unfold fillNotional, exactNotional, mul_i64.
  destruct rev; rewrite (wrap_i64_id (fillPrice * Z.of_N fillQty)) by done;
    [done|].
  apply wrap_i64_id. revert Hr. unfold in_i64, INT64_MIN, INT64_MAX.
  generalize (fillPrice * Z.of_N fillQty). intros x Hx.
  pose proof (Z.quot_rem' x 1000) as Hq.
  pose proof (Z.rem_bound_abs x 1000 ltac:(lia)) as Habs.
  pose proof (Z.rem_nonneg x 1000 ltac:(lia)) as Hpos.
  pose proof (Z.rem_nonpos x 1000 ltac:(lia)) as Hneg.
  lia.
Qed.

Section Cash.
Context {SS : Type} `{!Strategy SS}.
Implicit Type sim : FillSimulator SS.

(** C5, as the code has it.  A fill of an active order at a valid price and
    with a nonzero quantity, as long as the product and the new totals fit
    in 64 bits: the position moves by [+fillQty] for a bid and [-fillQty]
    for an ask, the cash flow by minus, respectively plus, the notional.
    The notional is the exact product [fillPrice * fillQty] in the queue
    revision, and the product with its last three digits cut off in the
    latency revision.  This is the state in which the strategy is told
    about the fill. *)
Theorem fill_moves_position_and_cash (rev : Revision) (fuel : nat) (id : N)
    (fillPrice : Z) (fillQty : N) (isBid : bool) (t0 : N) sim
    (order : OrderInfo) :
  activeOrders_ sim !! id = Some order ->
  validPrice fillPrice ->
  fillQty <> 0%N ->
  in_i64 (fillPrice * Z.of_N fillQty) ->
  in_i64 (if isBid then position_ sim + Z.of_N fillQty
          else position_ sim - Z.of_N fillQty) ->
  in_i64 (if isBid then cashFlow_ sim - exactNotional rev fillPrice fillQty
          else cashFlow_ sim + exactNotional rev fillPrice fillQty) ->
  exists t sim',
    bookFill rev id fillPrice fillQty isBid t0 sim = Some (t, sim') /\
    position_ sim' =
      (if isBid then position_ sim + Z.of_N fillQty
       else position_ sim - Z.of_N fillQty) /\
    cashFlow_ sim' =
      (if isBid then cashFlow_ sim - exactNotional rev fillPrice fillQty
       else cashFlow_ sim + exactNotional rev fillPrice fillQty) /\
    exactNotional QueueRevision fillPrice fillQty
      = fillPrice * Z.of_N fillQty /\
    processFill rev (S fuel) id fillPrice fillQty isBid t0 sim =
      (let answer :=
         onOrderFilled id fillPrice fillQty isBid (strategy_ sim') in
       submitWith (processAction rev fuel) t
                  (with_ts t (lastBookTop (marketState_ sim')))
                  answer.1 (set_strategy answer.2 sim')).
Proof.
  intros Hin [Hpos Hmax] Hq Hprod Hp1 Hc1.
  assert (Hbook : is_Some (bookFill rev id fillPrice fillQty isBid t0 sim)).
  { unfold bookFill. rewrite Hin.
    destruct (Z.leb_spec fillPrice 0); [lia|].
    destruct (Z.eqb_spec fillPrice INT64_MAX); [done|].
    destruct (N.eqb_spec fillQty 0); [done|]. simpl. eauto. }
  destruct Hbook as [[t sim'] Hbook]. exists t, sim'.
  split; [done|].
  assert (position_ sim' =
            (if isBid then add_i64 (position_ sim) (Z.of_N fillQty)
             else sub_i64 (position_ sim) (Z.of_N fillQty)) /\
          cashFlow_ sim' =
            (if isBid
             then sub_i64 (cashFlow_ sim) (fillNotional rev fillPrice fillQty)
             else add_i64 (cashFlow_ sim) (fillNotional rev fillPrice fillQty)))
    as [Hp Hc].
  { unfold bookFill in Hbook. rewrite Hin in Hbook.
    destruct ((fillPrice <=? 0) || (fillPrice =? INT64_MAX) || (fillQty =? 0)%N);
      [done|].
    injection Hbook as _ <-. done. }
  rewrite Hp, Hc, fillNotional_exact by done.
  unfold add_i64, sub_i64.
  split_and!.
  - destruct isBid; by rewrite wrap_i64_id.
  - destruct isBid; by rewrite wrap_i64_id.
  - reflexivity.
  - simpl. rewrite Hbook. by destruct (onOrderFilled _ _ _ _ _).
Qed.

End Cash.

(** C5 in the latency revision.  The top is 1.000000000 / 1.000000001 and
    the strategy buys one share at the ask.  The product is 1_000_000_001;
    the cash flow moves by 1_000_000_000. *)
Lemma latency_revision_truncates_notional :
  exists sim',
    processBookTop LatencyRevision 2
      (Examples.mkTop 1000000 1000000000 1000000001)
      (newFillSimulator
         [[Examples.mkAction ADD 1 0 1000000001 1 true false]] 0 0)
      = Done sim' /\
    position_ sim' = 1 /\
    cashFlow_ sim' = -1000000000 /\
    - (1000000001 * 1) = -1000000001.
Proof.
  eexists. split_and!.
  - vm_compute. reflexivity.
  - reflexivity.
  - reflexivity.
  - reflexivity.
Qed.

(** The same purchase in the queue revision moves the cash flow by the
    product itself. *)
Lemma queue_revision_keeps_notional :
  exists sim',
    processBookTop QueueRevision 2
      (Examples.mkTop 1000000 1000000000 1000000001)
      (newFillSimulator
         [[Examples.mkAction ADD 1 0 1000000001 1 true false]] 0 0)
      = Done sim' /\
    position_ sim' = 1 /\
    cashFlow_ sim' = -1000000001.
Proof.
  eexists. split_and!.
  - vm_compute. reflexivity.
  - reflexivity.
  - reflexivity.
Qed.

(** Why the products are asked to fit: a million shares bought at 10^13
    make a product of 10^19, above [INT64_MAX]; reduced to 64 bits the cash
    flow comes out positive. *)
Lemma notional_beyond_int64_wraps :
  exists sim',
    processBookTop QueueRevision 2
      (Examples.mkTop 1000000 (10 ^ 13 - 1) (10 ^ 13))
      (newFillSimulator
         [[Examples.mkAction ADD 1 0 (10 ^ 13) 1000000 true false]] 0 0)
      = Done sim' /\
    position_ sim' = 1000000 /\
    cashFlow_ sim' = 2 ^ 64 - 10 ^ 19.
Proof.
  eexists. split_and!.
  - vm_compute. reflexivity.
  - reflexivity.
  - reflexivity.
Qed.

(** Ten shares bought at 101 for the active order 1 of an otherwise new
    simulator. *)
Lemma fill_moves_position_and_cash_witness :
  let sim : FillSimulator (list (list OrderAction)) :=
    placeOrder (Examples.mkAction ADD 1 0 101 10 true false)
               (newFillSimulator [] 0 0) in
  exists t sim',
    bookFill QueueRevision 1 101 10 true 5000 sim = Some (t, sim') /\
    position_ sim' = position_ sim + Z.of_N 10 /\
    cashFlow_ sim' = cashFlow_ sim - exactNotional QueueRevision 101 10 /\
    exactNotional QueueRevision 101 10 = 101 * Z.of_N 10 /\
    processFill QueueRevision 1 1 101 10 true 5000 sim =
      (let answer := onOrderFilled 1 101 10 true (strategy_ sim') in
       submitWith (processAction QueueRevision 0) t
                  (with_ts t (lastBookTop (marketState_ sim')))
                  answer.1 (set_strategy answer.2 sim')).
Proof.
  intros sim.
  apply (fill_moves_position_and_cash QueueRevision 0 1 101 10 true 5000 sim
           (orderOfAction (Examples.mkAction ADD 1 0 101 10 true false))).
  - reflexivity.
  - split; [lia | discriminate].
  - discriminate.
  - unfold in_i64, INT64_MIN, INT64_MAX. simpl. lia.
  - unfold in_i64, INT64_MIN, INT64_MAX. simpl. lia.
  - unfold in_i64, INT64_MIN, INT64_MAX. simpl. lia.
Defined.

(** A post-only bid at the ask of the stored top. *)
Lemma post_only_crossing_add_is_cancelled_witness :
  let action := Examples.mkAction ADD 1 0 101 10 true true in
  let sim : FillSimulator (list (list OrderAction)) :=
    acceptBookTop (Examples.mkTop 1000000 99 101) (newFillSimulator [] 0 0) in
  exists sim' add cancel,
    processAction QueueRevision 1 action (Examples.mkTop 1000000 99 101) sim
      = Done sim' /\
    activeOrders_ sim' !! orderId action = None /\
    outputFile_ sim' = outputFile_ sim ++ [add; cancel] /\
    event_type add = 1%N /\ order_id add = orderId action /\
    event_type cancel = 2%N /\ order_id cancel = orderId action /\
    position_ sim' = position_ sim /\
    cashFlow_ sim' = cashFlow_ sim /\
    totalOrdersFilled_ sim' = totalOrdersFilled_ sim.
Proof.
  intros action sim.
  apply (post_only_crossing_add_is_cancelled QueueRevision 0 action
           (Examples.mkTop 1000000 99 101) sim); reflexivity.
Defined.

(** A second ADD under the id of a resting order. *)
Lemma add_of_active_id_overwrites_witness :
  let first := Examples.mkAction ADD 1 0 98 10 true false in
  let second := Examples.mkAction ADD 1 0 97 3 true false in
  let sim : FillSimulator (list (list OrderAction)) :=
    placeOrder first
      (acceptBookTop (Examples.mkTop 1000000 99 101) (newFillSimulator [] 0 0)) in
  let placed := placeOrder second (noteCrossing second sim) in
  activeOrders_ placed !! 1%N = Some (orderOfAction second) /\
  outputFile_ placed = outputFile_ sim ++ [addRecord second] /\
  totalOrdersPlaced_ placed = 2%N /\
  processAction QueueRevision 1 second (Examples.mkTop 1000000 99 101) sim
    = Done placed.
Proof.
  intros first second sim placed.
  destruct (add_of_active_id_overwrites QueueRevision 0 second
              (Examples.mkTop 1000000 99 101) sim (orderOfAction first)
              eq_refl eq_refl)
    as (_ & Hnew & _ & _ & _ & Hplaced & Hout & _ & _ & _ & Hrun).
  split_and!.
  - exact Hnew.
  - exact Hout.
  - exact Hplaced.
  - exact Hrun.
Defined.

(** ** Queue mode *)

Lemma queue_find_set h o o' q :
  queue_find h q = Some o -> queue_find h (queue_set h o' q) = Some o'.
Proof.
  induction q as [|[h' x] q IH]; simpl; [done|].
  destruct (Nat.eqb h h') eqn:Hh; simpl; rewrite Hh; auto.
Qed.

Lemma side_set_side is_bid book b : side is_bid (set_side is_bid book b) = book.
Proof. by destruct is_bid. Qed.

Lemma currentTop_set_side is_bid book b :
  currentTop (set_side is_bid book b) = currentTop b.
Proof. reflexivity. Qed.

Lemma insertOrder_currentTop is_bid price id q t b :
  currentTop (insertOrder is_bid price id q t b).1 = currentTop b.
Proof.
  unfold insertOrder. destruct (default _ _) as [total queue]. reflexivity.
Qed.

Lemma removeOrder_currentTop id r b b' c :
  removeOrder id r b = Done (b', c) -> currentTop b' = currentTop b.
Proof.
  unfold removeOrder. intros Hr.
  repeat case_match; simplify_eq; reflexivity.
Qed.

Section QueueFacts.
Context {SS : Type} `{!Strategy SS}.
Implicit Type sim : FillSimulator SS.

Lemma executeOrder_currentTop rev fuel ev id traded exec trade r total queue
    b sim b' sim' c :
  executeOrder rev fuel ev id traded exec trade r total queue b sim
    = Done (b', sim', c) ->
  currentTop b' = currentTop b.
Proof.
  unfold executeOrder. intros He.
  destruct (queue_find _ _); [|done].
  destruct (processBookFill _ _ _ _); simpl in He; [|done..].
  case_match; simplify_eq. reflexivity.
Qed.

(** No event case assigns [currentTop]; only [updateTopLevels] does. *)
Lemma applyPayload_currentTop rev fuel ev b sim b' sim' c :
  applyPayload rev fuel ev b sim = Done (b', sim', c) ->
  currentTop b' = currentTop b.
Proof.
  unfold applyPayload. intros Ha.
  destruct (payload ev)
    as [px id q ib | id | px orig new q | id q | id q | id q x | id q x px
       | | ].
  - pose proof (insertOrder_currentTop ib px id q (ev_ts ev) b).
    destruct (insertOrder _ _ _ _ _ _). by simplify_eq.
  - destruct (order_map b !! id); [|by simplify_eq].
    destruct (removeOrder _ _ _) as [[b1 c1]| |] eqn:Hr; simpl in Ha; [|done..].
    simplify_eq. by eapply removeOrder_currentTop.
  - destruct (order_map b !! orig).
    + by destruct (removeOrder _ _ _) as [[b1 c1]| |].
    + pose proof (insertOrder_currentTop (px >? 0) px new q (ev_ts ev) b).
      destruct (insertOrder _ _ _ _ _ _). by simplify_eq.
  - repeat case_match; by simplify_eq.
  - repeat case_match; by simplify_eq.
  - repeat case_match; simplify_eq; try done.
    by eapply executeOrder_currentTop.
  - repeat case_match; simplify_eq; try done.
    by eapply executeOrder_currentTop.
  - by simplify_eq.
  - by simplify_eq.
Qed.

(** C6, as the code has it.  In queue mode the top synthesized after a
    top-changing event is handed to [processBookTop], the very function of
    the tops/fills path, with the event's timestamp; so it goes through the
    validity filter and through the coalescer alike.  When the last
    accepted top is less than 100_000 ns old, the synthesized top is
    dropped: the simulator, and the strategy in it, stay as the event case
    left them.  When it passes both tests it is delivered: it becomes the
    stored top and is counted as a market-data event. *)
Theorem synthesized_top_is_coalesced (rev : Revision) (fuel : nat)
    (ev : BookEvent) (b b' : BookState) sim sim' :
  applyPayload rev fuel ev (stampTop ev b) sim = Done (b', sim', true) ->
  let synthesized := currentTop (updateTopLevels b') in
  processBookEvent rev fuel ev (b, sim)
    = (sim'' ← processBookTop rev fuel synthesized sim';
       Done (updateTopLevels b', sim'')) /\
  ts synthesized = ev_ts ev /\
  ((0 < lastProcessedTime sim')%N /\
   (sub_u64 (ev_ts ev) (lastProcessedTime sim') < MIN_PROCESSING_INTERVAL)%N ->
   processBookEvent rev fuel ev (b, sim) = Done (updateTopLevels b', sim')) /\
  (tooSoon (lastProcessedTime sim') synthesized = false /\
   invalidBookTop rev synthesized = false ->
   forall st,
     processBookEvent rev fuel ev (b, sim) = Done st ->
     lastBookTop (marketState_ st.2) = synthesized /\
     totalMdEvents (latencyStats_ st.2)
       = add_u64 (totalMdEvents (latencyStats_ sim')) 1).
Proof.
  intros Ha synthesized.
  assert (Hts : ts synthesized = ev_ts ev).
  { unfold synthesized, updateTopLevels. simpl.
    by rewrite (applyPayload_currentTop _ _ _ _ _ _ _ _ Ha). }
  assert (Hrun : processBookEvent rev fuel ev (b, sim)
    = (sim'' ← processBookTop rev fuel synthesized sim';
       Done (updateTopLevels b', sim''))).
  { unfold processBookEvent. rewrite Ha. reflexivity. }
  split_and!; [done..| |].
  - intros [Hlast Hgap]. rewrite Hrun. unfold processBookTop, tooSoon.
    rewrite Hts.
    apply N.ltb_lt in Hlast, Hgap. by rewrite Hlast, Hgap.
  - intros [Hsoon Hvalid] st. rewrite Hrun. unfold processBookTop.
    rewrite Hsoon, Hvalid.
    destruct (deliverBookTop _ _ _ _) as [sim''| |] eqn:Hd; simpl; [|done..].
    intros [= <-]. simpl.
    by apply deliverBookTop_stores in Hd as (? & _ & ?).
Qed.

(** C8.  A [replace_order] whose original is in [order_map] erases that
    entry and then takes the side of the new order from the erased entry:
    the run is undefined from there on, and no side is determined.  When
    the original is not in [order_map] the new order goes to the side
    [price > 0]. *)
Theorem replace_reads_erased_entry (rev : Revision) (fuel : nat)
    (ev : BookEvent) (price : Z) (orig new q : N) (b : BookState) sim :
  payload ev = replace_order price orig new q ->
  match order_map b !! orig with
  | Some r =>
      exists f, processBookEvent rev fuel ev (b, sim) = Undefined f
  | None =>
      applyPayload rev fuel ev (stampTop ev b) sim
        = Done ((insertOrder (price >? 0) price new q (ev_ts ev)
                             (stampTop ev b)).1, sim,
                (insertOrder (price >? 0) price new q (ev_ts ev)
                             (stampTop ev b)).2)
  end.
Proof.
  intros Hp. destruct (order_map b !! orig) as [r|] eqn:Hr.
  - unfold processBookEvent, applyPayload. rewrite Hp. simpl. rewrite Hr.
    unfold removeOrder. repeat case_match; simpl; eauto.
  - unfold applyPayload. rewrite Hp. simpl. rewrite Hr.
    by destruct (insertOrder _ _ _ _ _ _).
Qed.

(** C9.  A [reduce_order] that takes more than the resting order holds:
    the order's quantity becomes [qty + 2^32 - cxled_qty], which is not
    zero, and the level's total is reduced modulo [2^32]; the order stays
    in [order_map] and in its queue, the level stays in the book, nothing
    is passed to the simulator and no top is synthesized. *)
Theorem reduce_beyond_quantity_wraps (rev : Revision) (fuel : nat)
    (ev : BookEvent) (id cxled : N) (b : BookState) sim (r : order_ref_t)
    (total : N) (queue : order_queue_t) (o : order_t) :
  payload ev = reduce_order id cxled ->
  order_map b !! id = Some r ->
  side (ref_is_bid r) b !! ref_price r = Some (total, queue) ->
  queue_find (order_it r) queue = Some o ->
  in_u32 (qty o) -> in_u32 cxled -> (qty o < cxled)%N ->
  let o' := {| q_order_id := q_order_id o;
               qty := (qty o + UINT32_MOD - cxled)%N;
               q_timestamp := ev_ts ev |} in
  let queue' := queue_set (order_it r) o' queue in
  let b' :=
    set_side (ref_is_bid r)
      (<[ref_price r := (sub_u32 total cxled, queue')]> (side (ref_is_bid r) b))
      (stampTop ev b) in
  processBookEvent rev fuel ev (b, sim) = Done (b', sim) /\
  qty o' = sub_u32 (qty o) cxled /\
  qty o' <> 0%N /\
  order_map b' !! id = Some r /\
  side (ref_is_bid r) b' !! ref_price r = Some (sub_u32 total cxled, queue') /\
  queue_find (order_it r) queue' = Some o' /\
  sub_u32 total cxled = Z.to_N ((Z.of_N total - Z.of_N cxled) mod 2 ^ 32).
Proof.
  intros Hp Hr Hl Hq Ho Hc Hlt o' queue' b'.
  assert (Hwrap : sub_u32 (qty o) cxled = (qty o + UINT32_MOD - cxled)%N)
    by by apply sub_u32_wrap.
  assert (Hnz : (qty o + UINT32_MOD - cxled)%N <> 0%N).
  { unfold in_u32, UINT32_MOD in *. lia. }
  split_and!; try done.
  - unfold processBookEvent, applyPayload. rewrite Hp. simpl.
    rewrite Hr.
    change (side (ref_is_bid r) (stampTop ev b)) with (side (ref_is_bid r) b).
    rewrite Hl, Hq. simpl. rewrite Hwrap.
    destruct (N.eqb_spec (qty o + UINT32_MOD - cxled) 0); [done|].
    reflexivity.
  - subst b'. rewrite side_set_side. by rewrite lookup_insert_eq.
  - by eapply queue_find_set.
Qed.

End QueueFacts.

(** C6, a run.  A bid at 99, an ask at 101 one nanosecond later, and a
    better bid at 100 after another 49_999 ns.  The second event gives the
    first valid top, which the strategy sees.  The third event changes the
    top as well, and the synthesized top (100 / 101) is valid; it is not
    delivered: the simulator has counted one market-data event and still
    holds 99 as the best bid. *)
Lemma synthesized_top_dropped_by_coalescer :
  exists b sim,
    runQueueSimulation QueueRevision 1
      [Examples.mkEvent 1000000 (add_order 99 1 5 true);
       Examples.mkEvent 1000001 (add_order 101 2 5 false);
       Examples.mkEvent 1050000 (add_order 100 3 5 true)]
      Examples.startState = Done (b, sim) /\
    bid_nanos (top_level (currentTop b)) = 100 /\
    ask_nanos (top_level (currentTop b)) = 101 /\
    ts (currentTop b) = 1050000%N /\
    invalidBookTop QueueRevision (currentTop b) = false /\
    totalMdEvents (latencyStats_ sim) = 1%N /\
    lastProcessedTime sim = 1000001%N /\
    bid_nanos (top_level (lastBookTop (marketState_ sim))) = 99.
Proof.
  eexists _, _. split_and!.
  - vm_compute. reflexivity.
  - reflexivity.
  - reflexivity.
  - reflexivity.
  - reflexivity.
  - reflexivity.
  - reflexivity.
  - reflexivity.
Qed.

(** The third event of that run, through the theorem. *)
Lemma synthesized_top_is_coalesced_witness :
  let ev := Examples.mkEvent 1050000 (add_order 100 3 5 true) in
  let b' := (insertOrder true 100 3 5 1050000
               (stampTop ev Examples.twoSided.1)).1 in
  processBookEvent QueueRevision 1 ev
      (Examples.twoSided.1, Examples.twoSided.2)
    = Done (updateTopLevels b', Examples.twoSided.2).
Proof.
  intros ev b'.
  apply (synthesized_top_is_coalesced QueueRevision 1 ev
           Examples.twoSided.1 b' Examples.twoSided.2 Examples.twoSided.2).
  - vm_compute. reflexivity.
  - split; vm_compute; reflexivity.
Defined.

(** C8, a run: order 1 is added as a bid and then replaced by order 2. *)
Lemma replace_after_add_is_undefined :
  runQueueSimulation QueueRevision 1
    [Examples.mkEvent 1000000 (add_order 99 1 5 true);
     Examples.mkEvent 1000001 (replace_order 98 1 2 5)]
    Examples.startState = Undefined UseAfterErase.
Proof. vm_compute. reflexivity. Qed.

Lemma replace_reads_erased_entry_witness :
  exists f,
    processBookEvent QueueRevision 1
      (Examples.mkEvent 1000001 (replace_order 98 1 2 5))
      (Examples.oneBid.1, Examples.oneBid.2) = Undefined f.
Proof.
  exact (replace_reads_erased_entry QueueRevision 1
           (Examples.mkEvent 1000001 (replace_order 98 1 2 5)) 98 1 2 5
           Examples.oneBid.1 Examples.oneBid.2 eq_refl).
Defined.

(** C9, a run: seven shares are taken off the five of order 1.  The order
    and its level stay, each with [5 + 2^32 - 7] shares. *)
Lemma reduce_beyond_quantity_wraps_witness :
  exists b',
    processBookEvent QueueRevision 1
      (Examples.mkEvent 1000001 (reduce_order 1 7))
      (Examples.oneBid.1, Examples.oneBid.2) = Done (b', Examples.oneBid.2) /\
    bid_book b' !! 99 =
      Some (4294967294%N,
            [(0%nat, {| q_order_id := 1; qty := 4294967294;
                        q_timestamp := 1000001 |})]) /\
    order_map b' !! 1%N =
      Some {| ref_price := 99; ref_is_bid := true; order_it := 0 |}.
Proof.
  destruct (reduce_beyond_quantity_wraps QueueRevision 1
              (Examples.mkEvent 1000001 (reduce_order 1 7)) 1 7
              Examples.oneBid.1 Examples.oneBid.2
              {| ref_price := 99; ref_is_bid := true; order_it := 0 |}
              5 [(0%nat, {| q_order_id := 1; qty := 5;
                            q_timestamp := 1000000 |})]
              {| q_order_id := 1; qty := 5; q_timestamp := 1000000 |})
    as (Hrun & _ & _ & Hmap & Hlevel & _ & _);
    [reflexivity | reflexivity | reflexivity | reflexivity
    | reflexivity | reflexivity | reflexivity |].
  eexists. split_and!.
  - exact Hrun.
  - exact Hlevel.
  - exact Hmap.
Defined.

(** ** Filled quantities *)

Section Invariant.
Context {SS : Type} `{!Strategy SS} `{!StrategyTyped SS}.
Variable rev : Revision.
Implicit Type sim : FillSimulator SS.

Lemma tidy_same_orders sim1 sim2 :
  activeOrders_ sim2 = activeOrders_ sim1 -> tidy sim1 -> tidy sim2.
Proof. unfold tidy. intros ->. done. Qed.

Lemma tidy_insert sim1 sim2 id order :
  activeOrders_ sim2 = <[id := order]> (activeOrders_ sim1) ->
  filledQuantity order = 0%N -> o_orderId order = id ->
  in_u32 (o_quantity order) ->
  tidy sim1 -> tidy sim2.
Proof.
  unfold tidy. intros -> Hf Hi Hq Ht id' order'.
  rewrite lookup_insert. case_decide; [|by apply Ht].
  intros [= <-]. by subst.
Qed.

Lemma tidy_delete sim1 sim2 id :
  activeOrders_ sim2 = delete id (activeOrders_ sim1) ->
  tidy sim1 -> tidy sim2.
Proof.
  unfold tidy. intros -> Ht id' order'.
  rewrite lookup_delete. case_decide; [done|by apply Ht].
Qed.

Lemma tidy_noteCrossing action sim : tidy sim -> tidy (noteCrossing action sim).
Proof. apply tidy_same_orders, noteCrossing_orders. Qed.

Lemma tidy_placeOrder action sim :
  action_typed action -> tidy sim -> tidy (placeOrder action sim).
Proof.
  intros Ha. by apply (tidy_insert _ _ (orderId action) (orderOfAction action)).
Qed.

Lemma tidy_cancelOrder action sim : tidy sim -> tidy (cancelOrder action sim).
Proof.
  unfold cancelOrder. destruct (activeOrders_ sim !! orderId action); [|done].
  by apply (tidy_delete _ _ (orderId action)).
Qed.

Lemma tidy_replaceOrder action order sim :
  action_typed action ->
  activeOrders_ sim !! orderId action = Some order ->
  tidy sim -> tidy (replaceOrder action order sim).
Proof.
  intros Ha Hin Ht. destruct (Ht _ _ Hin) as (Hf & Hi & _).
  eapply tidy_insert; [reflexivity|done..].
Qed.

(** A fill for the whole quantity of a tidy order removes the order. *)
Lemma tidy_bookFill id px q b t sim t' sim' :
  tidy sim ->
  (forall order, activeOrders_ sim !! id = Some order -> q = o_quantity order) ->
  bookFill rev id px q b t sim = Some (t', sim') ->
  tidy sim'.
Proof.
  intros Ht Hq. unfold bookFill.
  destruct (activeOrders_ sim !! id) as [order|] eqn:Hin; [|done].
  destruct (_ || _); [done|]. intros [= _ <-].
  destruct (Ht _ _ Hin) as (Hf & _ & Hu). rewrite Hf.
  rewrite <- (Hq _ eq_refl) in *. rewrite add_u32_0_l by done.
  rewrite N.leb_refl. by apply (tidy_delete sim _ id).
Qed.

Lemma delayAction_typed sim t action :
  action_typed action -> action_typed (delayAction sim t action).
Proof. done. Qed.

Lemma tidy_submitWith process t bookTop actions :
  (forall action bt sim sim',
     action_typed action -> tidy sim ->
     process action bt sim = Done sim' -> tidy sim') ->
  Forall action_typed actions ->
  forall sim sim',
    tidy sim ->
    submitWith process t bookTop actions sim = Done sim' -> tidy sim'.
Proof.
  intros Hproc. induction 1 as [|action rest Ha _ IH]; intros sim sim' Ht; simpl.
  - by intros [= <-].
  - destruct (process _ _ _) as [sim1| |] eqn:Hp; simpl; [|done..].
    apply IH. eapply Hproc; [| |exact Hp].
    + by apply delayAction_typed.
    + by eapply tidy_same_orders.
Qed.

Lemma processAction_step fuel action bookTop sim :
  processAction rev (S fuel) action bookTop sim =
    let sim := noteCrossing action sim in
    match type action with
    | ADD =>
        let sim := placeOrder action sim in
        let '(cross, sim) :=
          wouldOrderBeFilled (orderId action) (isBid action) (price action)
                             (quantity action) sim in
        if cross then
          if isPostOnly action then Done (cancelPostOnly action sim)
          else
            processFill rev fuel (orderId action)
              (opposingPrice (isBid action) bookTop) (quantity action)
              (isBid action) (applyExchangeLatency sim (md_ts action)) sim
        else Done sim
    | CANCEL => Done (cancelOrder action sim)
    | REPLACE =>
        match activeOrders_ sim !! orderId action with
        | None => Done sim
        | Some order =>
            let sim := replaceOrder action order sim in
            let '(cross, sim) :=
              wouldOrderBeFilled (orderId action) (o_isBid order)
                                 (price action) (quantity action) sim in
            if cross then
              if o_isPostOnly order then Undefined UseAfterErase
              else
                processFill rev fuel (orderId action)
                  (opposingPrice (o_isBid order) bookTop) (quantity action)
                  (o_isBid order) (applyExchangeLatency sim (md_ts action))
                  sim
            else Done sim
        end
    end.
Proof. reflexivity. Qed.

Lemma processFill_step fuel id px q b t sim :
  processFill rev (S fuel) id px q b t sim =
    match bookFill rev id px q b t sim with
    | None => Done sim
    | Some (t', sim1) =>
        let answer := onOrderFilled id px q b (strategy_ sim1) in
        submitWith (processAction rev fuel) t'
                   (with_ts t' (lastBookTop (marketState_ sim1)))
                   answer.1 (set_strategy answer.2 sim1)
    end.
Proof.
  simpl. destruct (bookFill _ _ _ _ _ _ _) as [[t' sim1]|]; [|done].
  by destruct (onOrderFilled _ _ _ _ _).
Qed.

(** Both functions keep the active set tidy, whatever the strategy
    answers. *)
Lemma tidy_processAction_processFill fuel :
  (forall action bookTop sim sim',
     action_typed action -> tidy sim ->
     processAction rev fuel action bookTop sim = Done sim' -> tidy sim') /\
  (forall id px q b t sim sim',
     tidy sim ->
     (forall order,
        activeOrders_ sim !! id = Some order -> q = o_quantity order) ->
     processFill rev fuel id px q b t sim = Done sim' -> tidy sim').
Proof.
  induction fuel as [|fuel [IHa IHf]]; [by split|]. split.
  - intros action bookTop sim sim' Ha Ht.
    rewrite processAction_step. cbv zeta.
    pose proof (tidy_noteCrossing action sim Ht) as Ht1.
    destruct (type action).
    + pose proof (tidy_placeOrder action _ Ha Ht1) as Ht2.
      rewrite wouldOrderBeFilled_eta.
      destruct (wouldOrderBeFilled _ _ _ _ _).1; cbv beta iota;
        [|by intros [= <-]].
      destruct (isPostOnly action).
      * intros [= <-].
        eapply (tidy_delete _ _ (orderId action)); [reflexivity|exact Ht2].
      * apply IHf; [done|]. simpl. intros order.
        rewrite lookup_insert_eq. by intros [= <-].
    + intros [= <-]. by apply tidy_cancelOrder.
    + destruct (activeOrders_ _ !! _) as [order|] eqn:Hin; [|by intros [= <-]].
      pose proof (tidy_replaceOrder action order _ Ha Hin Ht1) as Ht2.
      rewrite wouldOrderBeFilled_eta.
      destruct (wouldOrderBeFilled _ _ _ _ _).1; cbv beta iota;
        [|by intros [= <-]].
      destruct (o_isPostOnly order); [done|].
      apply IHf; [done|]. simpl. intros order'.
      rewrite lookup_insert_eq. by intros [= <-].
  - intros id px q b t sim sim' Ht Hq. rewrite processFill_step.
    destruct (bookFill _ _ _ _ _ _ _) as [[t' sim1]|] eqn:Hb;
      [|by intros [= <-]].
    pose proof (tidy_bookFill _ _ _ _ _ _ _ _ Ht Hq Hb) as Ht1.
    cbv zeta. apply (tidy_submitWith _ _ _ _ IHa).
    + apply onOrderFilled_typed.
    + by eapply tidy_same_orders.
Qed.

Lemma tidy_processAction fuel action bookTop sim sim' :
  action_typed action -> tidy sim ->
  processAction rev fuel action bookTop sim = Done sim' -> tidy sim'.
Proof. apply tidy_processAction_processFill. Qed.

Lemma tidy_reevaluate fuel bookTop ids :
  forall sim sim',
    tidy sim -> reevaluate rev fuel bookTop ids sim = Done sim' -> tidy sim'.
Proof.
  induction ids as [|id ids IH]; intros sim sim' Ht; simpl.
  - by intros [= <-].
  - destruct (activeOrders_ sim !! id) as [order|] eqn:Hin; [|by apply IH].
    destruct (Ht _ _ Hin) as (Hf & Hi & Hu).
    rewrite wouldOrderBeFilled_eta.
    destruct (wouldOrderBeFilled _ _ _ _ _).1; [|by apply IH].
    destruct (processFill _ _ _ _ _ _ _ _) as [sim1| |] eqn:Hp; simpl;
      [|done..].
    apply IH.
    eapply (proj2 (tidy_processAction_processFill fuel)); [exact Ht| |exact Hp].
    intros order'. rewrite Hi, Hin. intros [= <-].
    by rewrite Hf, sub_u32_0_r.
Qed.

Lemma tidy_processBookFill fuel fill sim sim' :
  tidy sim -> processBookFill rev fuel fill sim = Done sim' -> tidy sim'.
Proof.
  intros Ht. unfold processBookFill. cbv zeta.
  destruct (onFill _ _) as [actions strategy] eqn:Hs.
  apply (tidy_submitWith _ _ _ _ (tidy_processAction fuel)).
  - pose proof (onFill_typed
      (with_fill_ts (applyMdLatency sim (fill_ts fill)) fill)
      (strategy_ (noteMdEvent sim))) as Hty.
    by rewrite Hs in Hty.
  - by eapply tidy_same_orders.
Qed.

Lemma tidy_processBookTop fuel bookTop sim sim' :
  tidy sim -> processBookTop rev fuel bookTop sim = Done sim' -> tidy sim'.
Proof.
  intros Ht. unfold processBookTop.
  destruct (tooSoon _ _); [by intros [= <-]|].
  destruct (invalidBookTop _ _); [by intros [= <-]|].
  unfold deliverBookTop. cbv zeta.
  destruct (onBookTopUpdate _ _) as [actions strategy] eqn:Hs.
  destruct (submitWith _ _ _ _ _) as [sim1| |] eqn:Hsub; simpl; [|done..].
  apply tidy_reevaluate.
  eapply (tidy_submitWith _ _ _ _ (tidy_processAction fuel)); [| |exact Hsub].
  - pose proof (onBookTopUpdate_typed
      (with_ts (applyMdLatency (acceptBookTop bookTop sim) (ts bookTop)) bookTop)
      (strategy_ (noteMdEvent (acceptBookTop bookTop sim)))) as Hty.
    by rewrite Hs in Hty.
  - by eapply tidy_same_orders.
Qed.

Lemma reachable_tidy sim : reachable rev sim -> tidy sim.
Proof.
  induction 1 as [strategy md exch | fuel bookTop sim sim' _ IH Hrun
                 | fuel fill sim sim' _ IH Hrun
                 | fuel action bookTop sim sim' _ IH Ha Hrun].
  - intros id order. simpl. by rewrite lookup_empty.
  - by eapply tidy_processBookTop.
  - by eapply tidy_processBookFill.
  - by eapply tidy_processAction.
Qed.

(** C7.  In every state a simulation passes through, each active order has
    [0 <= filledQuantity <= quantity]; and once the books of a fill are
    made, the filled order is either gone from the active set or has
    [filledQuantity < quantity].  A REPLACE keeps [filledQuantity] and may
    lower [quantity], but an order only stays active with nothing filled:
    every fill the simulator makes is for the whole quantity. *)
Theorem filled_quantity_within_quantity sim :
  reachable rev sim ->
  (forall id order,
     activeOrders_ sim !! id = Some order ->
     (0 <= filledQuantity order <= o_quantity order)%N) /\
  (forall id px q b t t' sim',
     bookFill rev id px q b t sim = Some (t', sim') ->
     match activeOrders_ sim' !! id with
     | Some order => (filledQuantity order < o_quantity order)%N
     | None => True
     end).
Proof.
  intros Hr%reachable_tidy. split.
  - intros id order Hin. destruct (Hr _ _ Hin) as (-> & _ & _). lia.
  - intros id px q b t t' sim'. unfold bookFill.
    destruct (activeOrders_ sim !! id) as [order|]; [|done].
    destruct (_ || _); [done|]. intros [= _ <-]. simpl.
    destruct (N.leb_spec (o_quantity order)
                (add_u32 (filledQuantity order) q)).
    + by rewrite lookup_delete_eq.
    + by rewrite lookup_insert_eq.
Qed.

End Invariant.

(** The quoting strategy with its first bid resting at 99. *)
Lemma filled_quantity_within_quantity_witness :
  (forall id order,
     activeOrders_ Examples.quoted !! id = Some order ->
     (0 <= filledQuantity order <= o_quantity order)%N) /\
  (forall id px q b t t' sim',
     bookFill QueueRevision id px q b t Examples.quoted = Some (t', sim') ->
     match activeOrders_ sim' !! id with
     | Some order => (filledQuantity order < o_quantity order)%N
     | None => True
     end).
Proof.
  apply (filled_quantity_within_quantity QueueRevision Examples.quoted).
  apply (reach_top QueueRevision 1 (Examples.mkTop 1000000 99 101)
           (newFillSimulator 1%N 1000 10000)).
  - apply reach_new.
  - vm_compute. reflexivity.
Defined.

Lemma quoted_order_rests :
  activeOrders_ Examples.quoted !! 1%N
    = Some {| o_orderId := 1; o_symbolId := 7; o_sent_ts := 1001000;
              o_md_ts := 1011000; o_price := 99; o_quantity := 1;
              filledQuantity := 0; o_isBid := true; o_isPostOnly := false |}.
Proof. vm_compute. reflexivity. Qed.

(** * Further properties of the simulator *)

(** ** A relation kept by every step is kept by every run *)

Section Steps.
Context {SS : Type} `{!Strategy SS}.
Variable rev : Revision.
Variable R : FillSimulator SS -> FillSimulator SS -> Prop.
Implicit Type sim : FillSimulator SS.

Hypothesis R_refl : forall sim, R sim sim.
Hypothesis R_trans : forall sim1 sim2 sim3, R sim1 sim2 -> R sim2 sim3 -> R sim1 sim3.
Hypothesis R_notify : forall sim, R sim (noteExchangeToNotification sim).
Hypothesis R_submit : forall sim, R sim (noteStrategyToExchange sim).
Hypothesis R_md : forall sim, R sim (noteMdEvent sim).
Hypothesis R_strategy : forall strategy sim, R sim (set_strategy strategy sim).
Hypothesis R_accept : forall bookTop sim, R sim (acceptBookTop bookTop sim).
Hypothesis R_place : forall action sim, R sim (placeOrder action sim).
Hypothesis R_cancelPostOnly : forall action sim, R sim (cancelPostOnly action sim).
Hypothesis R_cancel : forall action sim, R sim (cancelOrder action sim).
Hypothesis R_replace : forall action order sim, R sim (replaceOrder action order sim).
Hypothesis R_fill : forall id px q b t sim t' sim',
  bookFill rev id px q b t sim = Some (t', sim') -> R sim sim'.

Lemma step_noteCrossing action sim : R sim (noteCrossing action sim).
Proof.
  unfold noteCrossing. destruct (type action); try done;
    rewrite wouldOrderBeFilled_eta; by case_match.
Qed.

Lemma step_submitWith process t bookTop actions :
  (forall action bt sim sim', process action bt sim = Done sim' -> R sim sim') ->
  forall sim sim',
    submitWith process t bookTop actions sim = Done sim' -> R sim sim'.
Proof.
  intros Hproc. induction actions as [|action rest IH]; intros sim sim'; simpl.
  - by intros [= <-].
  - destruct (process _ _ _) as [sim1| |] eqn:Hp; simpl; [|done..].
    intros Hrest%IH. apply Hproc in Hp.
    eapply R_trans; [|exact Hrest]. eapply R_trans; [|exact Hp]. done.
Qed.

Lemma step_processAction_processFill fuel :
  (forall action bookTop sim sim',
     processAction rev fuel action bookTop sim = Done sim' -> R sim sim') /\
  (forall id px q b t sim sim',
     processFill rev fuel id px q b t sim = Done sim' -> R sim sim').
Proof.
  induction fuel as [|fuel [IHa IHf]]; [by split|]. split.
  - intros action bookTop sim sim'. simpl.
    pose proof (step_noteCrossing action sim) as H1.
    destruct (type action).
    + pose proof (R_place action (noteCrossing action sim)) as H2.
      rewrite wouldOrderBeFilled_eta.
      destruct (wouldOrderBeFilled _ _ _ _ _).1; cbv beta iota.
      * destruct (isPostOnly action).
        -- intros [= <-]. eauto.
        -- intros Hf%IHf. eauto.
      * intros [= <-]. eauto.
    + intros [= <-]. eauto.
    + destruct (activeOrders_ _ !! _) as [order|]; [|by intros [= <-]].
      pose proof (R_replace action order (noteCrossing action sim)) as H2.
      rewrite wouldOrderBeFilled_eta.
      destruct (wouldOrderBeFilled _ _ _ _ _).1; cbv beta iota.
      * destruct (o_isPostOnly order); [done|].
        intros Hf%IHf. eauto.
      * intros [= <-]. eauto.
  - intros id px q b t sim sim'. simpl.
    destruct (bookFill _ _ _ _ _ _ _) as [[t' sim1]|] eqn:Hb;
      [|by intros [= <-]].
    apply R_fill in Hb.
    destruct (onOrderFilled _ _ _ _ _) as [actions strategy].
    intros Hs%(step_submitWith _ _ _ _ IHa). eauto.
Qed.

Lemma step_processAction fuel action bookTop sim sim' :
  processAction rev fuel action bookTop sim = Done sim' -> R sim sim'.
Proof. apply step_processAction_processFill. Qed.

Lemma step_processFill fuel id px q b t sim sim' :
  processFill rev fuel id px q b t sim = Done sim' -> R sim sim'.
Proof. apply step_processAction_processFill. Qed.

Lemma step_reevaluate fuel bookTop ids :
  forall sim sim',
    reevaluate rev fuel bookTop ids sim = Done sim' -> R sim sim'.
Proof.
  induction ids as [|id ids IH]; intros sim sim'; simpl.
  - by intros [= <-].
  - destruct (activeOrders_ sim !! id) as [order|]; [|by apply IH].
    rewrite wouldOrderBeFilled_eta.
    destruct (wouldOrderBeFilled _ _ _ _ _).1; [|by apply IH].
    destruct (processFill _ _ _ _ _ _ _ _) as [sim1| |] eqn:Hp; simpl;
      [|done..].
    intros Hrest%IH. apply step_processFill in Hp. eauto.
Qed.

Lemma step_processBookFill fuel fill sim sim' :
  processBookFill rev fuel fill sim = Done sim' -> R sim sim'.
Proof.
  unfold processBookFill. cbv zeta.
  destruct (onFill _ _) as [actions strategy].
  intros Hs%(step_submitWith _ _ _ _ (step_processAction fuel)). eauto.
Qed.

Lemma step_processBookTop fuel bookTop sim sim' :
  processBookTop rev fuel bookTop sim = Done sim' -> R sim sim'.
Proof.
  unfold processBookTop.
  destruct (tooSoon _ _); [by intros [= <-]|].
  destruct (invalidBookTop _ _); [by intros [= <-]|].
  unfold deliverBookTop. cbv zeta.
  destruct (onBookTopUpdate _ _) as [actions strategy].
  destruct (submitWith _ _ _ _ _) as [sim1| |] eqn:Hsub; simpl; [|done..].
  intros Hre%step_reevaluate.
  apply (step_submitWith _ _ _ _ (step_processAction fuel)) in Hsub.
  eauto 6.
Qed.

Lemma step_dispatchAll fuel evs :
  forall sim sim', dispatchAll rev fuel evs sim = Done sim' -> R sim sim'.
Proof.
  induction evs as [|ev evs IH]; intros sim sim'; simpl.
  - by intros [= <-].
  - destruct (dispatch _ _ _ _) as [sim1| |] eqn:Hd; simpl; [|done..].
    intros Hrest%IH. destruct ev; simpl in Hd.
    + apply step_processBookTop in Hd. eauto.
    + apply step_processBookFill in Hd. eauto.
Qed.

Lemma step_applyPayload fuel ev b sim b' sim' c :
  applyPayload rev fuel ev b sim = Done (b', sim', c) -> R sim sim'.
Proof.
  assert (Hex : forall id q x trade r total queue,
            executeOrder rev fuel ev id q x trade r total queue b sim
              = Done (b', sim', c) -> R sim sim').
  { intros id q x trade r total queue. unfold executeOrder.
    destruct (queue_find _ _); [|done].
    destruct (processBookFill _ _ _ _) as [sim1| |] eqn:Hf; simpl; [|done..].
    case_match; [done|]. intros [= _ <- _]. by eapply step_processBookFill. }
  unfold applyPayload.
  destruct (payload ev)
    as [px id q ib | id | px orig new q | id q | id q | id q x | id q x px
       | | ].
  - destruct (insertOrder _ _ _ _ _ _). by intros [= _ <- _].
  - destruct (order_map b !! id); [|by intros [= _ <- _]].
    destruct (removeOrder _ _ _) as [[b1 c1]| |]; simpl; [|done..].
    by intros [= _ <- _].
  - destruct (order_map b !! orig).
    + by destruct (removeOrder _ _ _) as [[b1 c1]| |].
    + destruct (insertOrder _ _ _ _ _ _). by intros [= _ <- _].
  - repeat case_match; try done; by intros [= _ <- _].
  - repeat case_match; try done; by intros [= _ <- _].
  - repeat case_match; try (by intros [= _ <- _]). apply Hex.
  - repeat case_match; try (by intros [= _ <- _]). apply Hex.
  - by intros [= _ <- _].
  - by intros [= _ <- _].
Qed.

Lemma step_processBookEvent fuel ev b sim b' sim' :
  processBookEvent rev fuel ev (b, sim) = Done (b', sim') -> R sim sim'.
Proof.
  unfold processBookEvent.
  destruct (applyPayload _ _ _ _ _) as [[[b1 sim1] c]| |] eqn:Ha; simpl;
    [|done..].
  apply step_applyPayload in Ha. destruct c.
  - destruct (processBookTop _ _ _ _) as [sim2| |] eqn:Ht; simpl; [|done..].
    intros [= _ <-]. apply step_processBookTop in Ht. eauto.
  - by intros [= _ <-].
Qed.

Lemma step_runQueueSimulation fuel evs :
  forall b sim b' sim',
    runQueueSimulation rev fuel evs (b, sim) = Done (b', sim') -> R sim sim'.
Proof.
  induction evs as [|ev evs IH]; intros b sim b' sim'.
  - by intros [= _ <-].
  - change (runQueueSimulation rev fuel (ev :: evs) (b, sim))
      with (st' ← processBookEvent rev fuel ev (b, sim);
            runQueueSimulation rev fuel evs st').
    destruct (processBookEvent rev fuel ev (b, sim)) as [[b1 sim1]| |] eqn:He;
      simpl; [|done..].
    intros Hrest%IH. apply step_processBookEvent in He. eauto.
Qed.

End Steps.

(** ** The output only grows *)

Section AppendOnly.
Context {SS : Type} `{!Strategy SS}.
Implicit Type sim : FillSimulator SS.

Lemma extends_refl sim : extends sim sim.
Proof. done. Qed.

Lemma extends_trans sim1 sim2 sim3 :
  extends sim1 sim2 -> extends sim2 sim3 -> extends sim1 sim3.
Proof.
  unfold extends. intros (H1 & -> & ->) (H2 & -> & ->).
  split; [by etrans|done].
Qed.

Lemma extends_write record sim1 sim2 :
  extends sim1 sim2 -> extends sim1 (writeOrderRecord record sim2).
Proof.
  unfold extends. intros (H1 & H2 & H3). simpl.
  split; [by apply prefix_app_r|done].
Qed.

Lemma extends_bookFill rev id px q b t sim t' sim' :
  bookFill rev id px q b t sim = Some (t', sim') -> extends sim sim'.
Proof.
  unfold bookFill. destruct (activeOrders_ sim !! id); [|done].
  destruct (_ || _); [done|]. intros [= _ <-].
  unfold extends. simpl. split; [by apply prefix_app_r|done].
Qed.

Lemma extends_cancelOrder action sim : extends sim (cancelOrder action sim).
Proof.
  unfold cancelOrder. destruct (activeOrders_ sim !! orderId action); [|done].
  by apply extends_write.
Qed.

(** X1.  Whatever the strategy answers, a call of [processAction],
    [processFill], [processBookTop] or [processBookFill], a tops/fills run
    and a queue-mode run leave every record written before in its place:
    the old output is a prefix of the new one.  The two configured latencies
    are the same afterwards. *)
Theorem output_is_append_only (rev : Revision) (fuel : nat) :
  (forall action bookTop sim sim',
     processAction rev fuel action bookTop sim = Done sim' ->
     extends sim sim') /\
  (forall id px q b t sim sim',
     processFill rev fuel id px q b t sim = Done sim' -> extends sim sim') /\
  (forall bookTop sim sim',
     processBookTop rev fuel bookTop sim = Done sim' -> extends sim sim') /\
  (forall fill sim sim',
     processBookFill rev fuel fill sim = Done sim' -> extends sim sim') /\
  (forall evs sim sim',
     dispatchAll rev fuel evs sim = Done sim' -> extends sim sim') /\
  (forall evs b sim b' sim',
     runQueueSimulation rev fuel evs (b, sim) = Done (b', sim') ->
     extends sim sim').
Proof.
  split_and!; intros;
    [ eapply (step_processAction rev extends)
    | eapply (step_processFill rev extends)
    | eapply (step_processBookTop rev extends)
    | eapply (step_processBookFill rev extends)
    | eapply (step_dispatchAll rev extends)
    | eapply (step_runQueueSimulation rev extends) ];
    try eassumption;
    first [ exact extends_trans
          | exact (extends_bookFill rev)
          | exact extends_cancelOrder
          | intros; done
          | intros; by apply extends_write ].
Qed.

End AppendOnly.

(** ** The accumulators follow the output *)






Lemma countType_app ty l1 l2 :
  countType ty (l1 ++ l2) = (countType ty l1 + countType ty l2)%nat.
Proof. induction l1 as [|r l1 IH]; simpl; [done|]. rewrite IH. lia. Qed.



Section Accounting.
Context {SS : Type} `{!Strategy SS}.
Variable rev : Revision.
Implicit Type sim : FillSimulator SS.






End Accounting.

(** ** Fills never outnumber orders *)

Lemma size_delete_Some {A} (m : gmap N A) i y :
  m !! i = Some y -> size m = S (size (delete i m)).
Proof.
  intros Hi. rewrite <- (insert_id m i y) at 1 by done.
  rewrite <- insert_delete_eq.
  apply map_size_insert_None, lookup_delete_eq.
Qed.

Lemma size_delete_le {A} (m : gmap N A) i : (size (delete i m) <= size m)%nat.
Proof. rewrite map_size_delete. destruct (m !! i); simpl; lia. Qed.

Lemma size_insert_le {A} (m : gmap N A) i x :
  (size (<[i:=x]> m) <= S (size m))%nat.
Proof. rewrite map_size_insert. destruct (m !! i); simpl; lia. Qed.

Section Balance.
Context {SS : Type} `{!Strategy SS} `{!StrategyTyped SS}.
Variable rev : Revision.
Implicit Type sim : FillSimulator SS.

Lemma balanced_same sim1 sim2 :
  activeOrders_ sim2 = activeOrders_ sim1 ->
  outputFile_ sim2 = outputFile_ sim1 ->
  balanced sim1 -> balanced sim2.
Proof. unfold balanced. by intros -> ->. Qed.

Lemma balanced_noteCrossing action sim :
  balanced sim -> balanced (noteCrossing action sim).
Proof.
  apply balanced_same; [apply noteCrossing_orders|].
  apply (noteCrossing_books action sim).
Qed.

Lemma balanced_placeOrder action sim :
  balanced sim -> balanced (placeOrder action sim).
Proof.
  unfold balanced. simpl. rewrite !countType_app. simpl.
  pose proof (size_insert_le (activeOrders_ sim) (orderId action)
                (orderOfAction action)).
  lia.
Qed.

Lemma balanced_cancelPostOnly action sim :
  balanced sim -> balanced (cancelPostOnly action sim).
Proof.
  unfold balanced. simpl. rewrite !countType_app. simpl.
  pose proof (size_delete_le (activeOrders_ sim) (orderId action)). lia.
Qed.

Lemma balanced_cancelOrder action sim :
  balanced sim -> balanced (cancelOrder action sim).
Proof.
  unfold cancelOrder. destruct (activeOrders_ sim !! orderId action); [|done].
  unfold balanced. simpl. rewrite !countType_app. simpl.
  pose proof (size_delete_le (activeOrders_ sim) (orderId action)). lia.
Qed.

Lemma balanced_replaceOrder action order sim :
  activeOrders_ sim !! orderId action = Some order ->
  balanced sim -> balanced (replaceOrder action order sim).
Proof.
  intros Hin. unfold balanced. simpl. rewrite !countType_app. simpl.
  rewrite map_size_insert_Some by eauto. lia.
Qed.

(** A fill for the whole quantity of a tidy order trades one active order
    for one fill record. *)
Lemma balanced_bookFill id px q b t sim t' sim' :
  tidy sim ->
  (forall order, activeOrders_ sim !! id = Some order -> q = o_quantity order) ->
  bookFill rev id px q b t sim = Some (t', sim') ->
  balanced sim -> balanced sim'.
Proof.
  intros Ht Hq. unfold bookFill.
  destruct (activeOrders_ sim !! id) as [order|] eqn:Hin; [|done].
  destruct (_ || _); [done|]. intros [= _ <-].
  destruct (Ht _ _ Hin) as (Hf & _ & Hu). rewrite Hf.
  rewrite <- (Hq _ eq_refl) in *. rewrite add_u32_0_l by done.
  rewrite N.leb_refl. unfold balanced. simpl.
  rewrite !countType_app. simpl.
  rewrite (size_delete_Some _ _ _ Hin). lia.
Qed.

Lemma settled_submitWith process t bookTop actions :
  (forall action bt sim sim',
     action_typed action -> tidy sim /\ balanced sim ->
     process action bt sim = Done sim' -> tidy sim' /\ balanced sim') ->
  Forall action_typed actions ->
  forall sim sim',
    tidy sim /\ balanced sim ->
    submitWith process t bookTop actions sim = Done sim' ->
    tidy sim' /\ balanced sim'.
Proof.
  intros Hproc. induction 1 as [|action rest Ha _ IH]; intros sim sim' Hs; simpl.
  - by intros [= <-].
  - destruct (process _ _ _) as [sim1| |] eqn:Hp; simpl; [|done..].
    apply IH. eapply Hproc; [| |exact Hp].
    + by apply delayAction_typed.
    + destruct Hs. split; [by eapply tidy_same_orders|by eapply balanced_same].
Qed.

Lemma settled_processAction_processFill fuel :
  (forall action bookTop sim sim',
     action_typed action -> tidy sim /\ balanced sim ->
     processAction rev fuel action bookTop sim = Done sim' ->
     tidy sim' /\ balanced sim') /\
  (forall id px q b t sim sim',
     tidy sim /\ balanced sim ->
     (forall order,
        activeOrders_ sim !! id = Some order -> q = o_quantity order) ->
     processFill rev fuel id px q b t sim = Done sim' ->
     tidy sim' /\ balanced sim').
Proof.
  induction fuel as [|fuel [IHa IHf]]; [by split|]. split.
  - intros action bookTop sim sim' Ha [Ht Hb].
    rewrite processAction_step. cbv zeta.
    pose proof (tidy_noteCrossing action sim Ht) as Ht1.
    pose proof (balanced_noteCrossing action sim Hb) as Hb1.
    destruct (type action).
    + pose proof (tidy_placeOrder action _ Ha Ht1) as Ht2.
      pose proof (balanced_placeOrder action _ Hb1) as Hb2.
      rewrite wouldOrderBeFilled_eta.
      destruct (wouldOrderBeFilled _ _ _ _ _).1; cbv beta iota;
        [|by intros [= <-]].
      destruct (isPostOnly action).
      * intros [= <-]. split; [|by apply balanced_cancelPostOnly].
        eapply (tidy_delete _ _ (orderId action)); [reflexivity|exact Ht2].
      * apply IHf; [done|]. simpl. intros order.
        rewrite lookup_insert_eq. by intros [= <-].
    + intros [= <-].
      split; [by apply tidy_cancelOrder|by apply balanced_cancelOrder].
    + destruct (activeOrders_ _ !! _) as [order|] eqn:Hin; [|by intros [= <-]].
      pose proof (tidy_replaceOrder action order _ Ha Hin Ht1) as Ht2.
      pose proof (balanced_replaceOrder action order _ Hin Hb1) as Hb2.
      rewrite wouldOrderBeFilled_eta.
      destruct (wouldOrderBeFilled _ _ _ _ _).1; cbv beta iota;
        [|by intros [= <-]].
      destruct (o_isPostOnly order); [done|].
      apply IHf; [done|]. simpl. intros order'.
      rewrite lookup_insert_eq. by intros [= <-].
  - intros id px q b t sim sim' [Ht Hb] Hq. rewrite processFill_step.
    destruct (bookFill _ _ _ _ _ _ _) as [[t' sim1]|] eqn:Hbook;
      [|by intros [= <-]].
    pose proof (tidy_bookFill _ _ _ _ _ _ _ _ _ Ht Hq Hbook) as Ht1.
    pose proof (balanced_bookFill _ _ _ _ _ _ _ _ Ht Hq Hbook Hb) as Hb1.
    cbv zeta. apply (settled_submitWith _ _ _ _ IHa).
    + apply onOrderFilled_typed.
    + split; [by eapply tidy_same_orders|by eapply balanced_same].
Qed.

Lemma settled_reevaluate fuel bookTop ids :
  forall sim sim',
    tidy sim /\ balanced sim ->
    reevaluate rev fuel bookTop ids sim = Done sim' ->
    tidy sim' /\ balanced sim'.
Proof.
  induction ids as [|id ids IH]; intros sim sim' Hs; simpl.
  - by intros [= <-].
  - destruct (activeOrders_ sim !! id) as [order|] eqn:Hin; [|by apply IH].
    destruct (proj1 Hs _ _ Hin) as (Hf & Hi & Hu).
    rewrite wouldOrderBeFilled_eta.
    destruct (wouldOrderBeFilled _ _ _ _ _).1; [|by apply IH].
    destruct (processFill _ _ _ _ _ _ _ _) as [sim1| |] eqn:Hp; simpl;
      [|done..].
    apply IH.
    eapply (proj2 (settled_processAction_processFill fuel));
      [exact Hs| |exact Hp].
    intros order'. rewrite Hi, Hin. intros [= <-].
    by rewrite Hf, sub_u32_0_r.
Qed.

Lemma settled_processBookFill fuel fill sim sim' :
  tidy sim /\ balanced sim ->
  processBookFill rev fuel fill sim = Done sim' ->
  tidy sim' /\ balanced sim'.
Proof.
  intros Hs. unfold processBookFill. cbv zeta.
  destruct (onFill _ _) as [actions strategy] eqn:Hans.
  apply (settled_submitWith _ _ _ _
           (proj1 (settled_processAction_processFill fuel))).
  - pose proof (onFill_typed
      (with_fill_ts (applyMdLatency sim (fill_ts fill)) fill)
      (strategy_ (noteMdEvent sim))) as Hty.
    by rewrite Hans in Hty.
  - destruct Hs. split; [by eapply tidy_same_orders|by eapply balanced_same].
Qed.

Lemma settled_processBookTop fuel bookTop sim sim' :
  tidy sim /\ balanced sim ->
  processBookTop rev fuel bookTop sim = Done sim' ->
  tidy sim' /\ balanced sim'.
Proof.
  intros Hs. unfold processBookTop.
  destruct (tooSoon _ _); [by intros [= <-]|].
  destruct (invalidBookTop _ _); [by intros [= <-]|].
  unfold deliverBookTop. cbv zeta.
  destruct (onBookTopUpdate _ _) as [actions strategy] eqn:Hans.
  destruct (submitWith _ _ _ _ _) as [sim1| |] eqn:Hsub; simpl; [|done..].
  apply settled_reevaluate.
  eapply (settled_submitWith _ _ _ _
            (proj1 (settled_processAction_processFill fuel)));
    [| |exact Hsub].
  - pose proof (onBookTopUpdate_typed
      (with_ts (applyMdLatency (acceptBookTop bookTop sim) (ts bookTop)) bookTop)
      (strategy_ (noteMdEvent (acceptBookTop bookTop sim)))) as Hty.
    by rewrite Hans in Hty.
  - destruct Hs. split; [by eapply tidy_same_orders|by eapply balanced_same].
Qed.

(** X3.  In every state a simulation passes through, the fill records and
    the orders still active together do not outnumber the add records; in
    particular no more fills have been written than orders placed. *)
Theorem fills_never_outnumber_orders sim :
  reachable rev sim ->
  (countType 3 (outputFile_ sim) + size (activeOrders_ sim)
   <= countType 1 (outputFile_ sim))%nat /\
  (countType 3 (outputFile_ sim) <= countType 1 (outputFile_ sim))%nat.
Proof.
  intros Hr.
  assert (Hs : tidy sim /\ balanced sim).
  { induction Hr as [strategy md exch | fuel bookTop sim sim' _ IH Hrun
                    | fuel fill sim sim' _ IH Hrun
                    | fuel action bookTop sim sim' _ IH Ha Hrun].
    - split; [|unfold balanced; simpl; by rewrite map_size_empty].
      intros id order. simpl. by rewrite lookup_empty.
    - by eapply settled_processBookTop.
    - by eapply settled_processBookFill.
    - by eapply (proj1 (settled_processAction_processFill fuel)). }
  destruct Hs as [_ Hb]. unfold balanced in Hb. lia.
Qed.

End Balance.

Lemma quotedTwice_reachable : reachable QueueRevision Examples.quotedTwice.
Proof.
  apply (reach_top QueueRevision 1 (Examples.mkTop 1200000 97 99)
           Examples.quoted).
  - apply (reach_top QueueRevision 1 (Examples.mkTop 1000000 99 101)
             (newFillSimulator 1%N 1000 10000)).
    + apply reach_new.
    + vm_compute. reflexivity.
  - vm_compute. reflexivity.
Qed.

(** Two bids placed by the quoting strategy, the first of them filled: one
    fill record, one order active, two add records. *)
Lemma fills_never_outnumber_orders_witness :
  (countType 3 (outputFile_ Examples.quotedTwice)
   + size (activeOrders_ Examples.quotedTwice)
   <= countType 1 (outputFile_ Examples.quotedTwice))%nat /\
  (countType 3 (outputFile_ Examples.quotedTwice)
   <= countType 1 (outputFile_ Examples.quotedTwice))%nat.
Proof.
  apply (fills_never_outnumber_orders QueueRevision Examples.quotedTwice).
  exact quotedTwice_reachable.
Defined.

Lemma quotedTwice_books :
  position_ Examples.quotedTwice = 1 /\
  cashFlow_ Examples.quotedTwice = -99 /\
  countType 3 (outputFile_ Examples.quotedTwice) = 1%nat /\
  countType 1 (outputFile_ Examples.quotedTwice) = 2%nat /\
  size (activeOrders_ Examples.quotedTwice) = 1%nat.
Proof. vm_compute. done. Qed.

(** ** Cancelling, replacing and refusing *)

Ltac extends_side :=
  first [ exact extends_trans
        | exact extends_cancelOrder
        | intros; done
        | intros; by apply extends_write
        | intros; by eapply extends_bookFill ].

Section Edges.
Context {SS : Type} `{!Strategy SS}.
Variable rev : Revision.
Implicit Type sim : FillSimulator SS.

(** X4.  A CANCEL of an id that is not active changes nothing at all: no
    record, no counter.  A CANCEL of an active order erases it and writes
    one type-2 record stamped with the action's [md_ts] and carrying the
    stored order's symbol, price, quantity and side, not the action's; the
    other orders, position, cash flow and the counters stay. *)
Theorem cancel_erases_or_does_nothing (fuel : nat) (action : OrderAction)
    (bookTop : book_top_t) sim :
  type action = CANCEL ->
  match activeOrders_ sim !! orderId action with
  | None => processAction rev (S fuel) action bookTop sim = Done sim
  | Some order =>
      exists sim',
        processAction rev (S fuel) action bookTop sim = Done sim' /\
        activeOrders_ sim' = delete (orderId action) (activeOrders_ sim) /\
        outputFile_ sim' =
          outputFile_ sim
            ++ [{| timestamp := md_ts action; event_type := 2;
                   order_id := orderId action;
                   symbol_id := o_symbolId order;
                   r_price := o_price order; old_price := None;
                   r_quantity := o_quantity order; old_quantity := None;
                   is_bid := o_isBid order |}] /\
        position_ sim' = position_ sim /\
        cashFlow_ sim' = cashFlow_ sim /\
        totalOrdersPlaced_ sim' = totalOrdersPlaced_ sim /\
        totalOrdersFilled_ sim' = totalOrdersFilled_ sim /\
        latencyStats_ sim' = latencyStats_ sim /\
        marketState_ sim' = marketState_ sim
  end.
Proof.
  intros Hty. rewrite processAction_step. cbv zeta.
  unfold noteCrossing, cancelOrder. rewrite Hty.
  destruct (activeOrders_ sim !! orderId action) as [order|]; [|done].
  eexists. split; [reflexivity|]. done.
Qed.

(** The first lines of [processAction] add the exchange latency to the
    notification accumulator exactly when the action's own side, price and
    quantity cross the stored top. *)
Lemma noteCrossing_stats action sim :
  type action <> CANCEL ->
  latencyStats_ (noteCrossing action sim) =
    if (wouldOrderBeFilled (orderId action) (isBid action) (price action)
                           (quantity action) sim).1
    then latencyStats_ (noteExchangeToNotification sim)
    else latencyStats_ sim.
Proof.
  intros Hty. unfold noteCrossing.
  destruct (type action); try done;
    rewrite wouldOrderBeFilled_eta; by case_match.
Qed.

(** X5.  A REPLACE of an id that is not active writes no record and leaves
    the orders, position, cash flow and counters alone; it still adds the
    exchange latency to the exchange-to-notification accumulator when the
    action's own side and price would cross the stored top.  A REPLACE of
    an active order that does not cross (tested with the stored side and
    the new price and quantity) keeps the order under its id with the new
    price and quantity, the old filled quantity, side and post-only flag,
    takes over the action's nonzero timestamps, and writes one type-4
    record with the old and the new price and quantity. *)
Theorem replace_updates_in_place (fuel : nat) (action : OrderAction)
    (bookTop : book_top_t) sim :
  type action = REPLACE ->
  match activeOrders_ sim !! orderId action with
  | None =>
      exists sim',
        processAction rev (S fuel) action bookTop sim = Done sim' /\
        activeOrders_ sim' = activeOrders_ sim /\
        outputFile_ sim' = outputFile_ sim /\
        position_ sim' = position_ sim /\
        cashFlow_ sim' = cashFlow_ sim /\
        totalOrdersPlaced_ sim' = totalOrdersPlaced_ sim /\
        totalOrdersFilled_ sim' = totalOrdersFilled_ sim /\
        latencyStats_ sim' =
          if (wouldOrderBeFilled (orderId action) (isBid action)
                (price action) (quantity action) sim).1
          then latencyStats_ (noteExchangeToNotification sim)
          else latencyStats_ sim
  | Some order =>
      (wouldOrderBeFilled (orderId action) (o_isBid order) (price action)
                          (quantity action) sim).1 = false ->
      exists sim' order',
        processAction rev (S fuel) action bookTop sim = Done sim' /\
        activeOrders_ sim' = <[orderId action := order']> (activeOrders_ sim) /\
        o_price order' = price action /\
        o_quantity order' = quantity action /\
        filledQuantity order' = filledQuantity order /\
        o_isBid order' = o_isBid order /\
        o_isPostOnly order' = o_isPostOnly order /\
        o_orderId order' = o_orderId order /\
        o_sent_ts order' =
          (if (0 <? sent_ts action)%N then sent_ts action
           else o_sent_ts order) /\
        o_md_ts order' =
          (if (0 <? md_ts action)%N then md_ts action else o_md_ts order) /\
        outputFile_ sim' =
          outputFile_ sim
            ++ [{| timestamp := md_ts action; event_type := 4;
                   order_id := orderId action;
                   symbol_id := o_symbolId order;
                   r_price := price action;
                   old_price := Some (o_price order);
                   r_quantity := quantity action;
                   old_quantity := Some (o_quantity order);
                   is_bid := o_isBid order |}] /\
        position_ sim' = position_ sim /\
        cashFlow_ sim' = cashFlow_ sim /\
        totalOrdersFilled_ sim' = totalOrdersFilled_ sim
  end.
Proof.
  intros Hty. rewrite processAction_step. cbv zeta. rewrite Hty.
  rewrite noteCrossing_orders.
  destruct (noteCrossing_books action sim) as (Hp & Hc & Ho & Hn & Hf).
  destruct (activeOrders_ sim !! orderId action) as [order|].
  - intros Hno. rewrite wouldOrderBeFilled_eta.
    rewrite (wouldOrderBeFilled_market _ _ _ _ _ sim), Hno
      by (simpl; apply noteCrossing_market).
    eexists _, _. split; [reflexivity|]. simpl.
    rewrite noteCrossing_orders, Ho, Hp, Hc, Hf. done.
  - eexists. split; [reflexivity|].
    rewrite noteCrossing_orders, Ho, Hp, Hc, Hn, Hf.
    split_and!; try done. apply noteCrossing_stats. by rewrite Hty.
Qed.

(** X6.  [processFill] hands the simulator back untouched exactly when it
    refuses the fill: the order is not active, the price is not positive or
    is [INT64_MAX], or the quantity is zero.  In every other case the
    output has grown when it returns. *)
Theorem processFill_refuses_iff (fuel : nat) (id : N) (px : Z) (q : N)
    (b : bool) (t : N) sim :
  (activeOrders_ sim !! id = None \/ px <= 0 \/ px = INT64_MAX \/ q = 0%N ->
   processFill rev (S fuel) id px q b t sim = Done sim) /\
  (processFill rev (S fuel) id px q b t sim = Done sim ->
   activeOrders_ sim !! id = None \/ px <= 0 \/ px = INT64_MAX \/ q = 0%N) /\
  (forall sim',
     processFill rev (S fuel) id px q b t sim = Done sim' ->
     sim' <> sim ->
     (length (outputFile_ sim) < length (outputFile_ sim'))%nat).
Proof.
  assert (Hgrow : forall t' sim1 sim',
    bookFill rev id px q b t sim = Some (t', sim1) ->
    processFill rev (S fuel) id px q b t sim = Done sim' ->
    (length (outputFile_ sim) < length (outputFile_ sim'))%nat).
  { intros t' sim1 sim' Hb. rewrite processFill_step, Hb. cbv zeta.
    intros Hs.
    eapply (step_submitWith extends) in Hs; try extends_side.
    - destruct Hs as [Hpre%prefix_length _]. simpl in Hpre.
      unfold bookFill in Hb. destruct (activeOrders_ sim !! id); [|done].
      destruct (_ || _); [done|]. injection Hb as _ <-. simpl in Hpre.
      rewrite length_app in Hpre. simpl in Hpre. lia.
    - intros action bt s s' Hp.
      eapply (step_processAction rev extends); try eassumption;
        extends_side. }
  assert (Hcond :
    activeOrders_ sim !! id = None \/ px <= 0 \/ px = INT64_MAX \/ q = 0%N
    <-> bookFill rev id px q b t sim = None).
  { unfold bookFill. destruct (activeOrders_ sim !! id).
    - destruct (Z.leb_spec px 0), (Z.eqb_spec px INT64_MAX),
        (N.eqb_spec q 0); simpl; split; try done; try tauto; try lia.
      intros [?|[?|[?|?]]]; try done; lia.
    - tauto. }
  split_and!.
  - intros Hc%Hcond. by rewrite processFill_step, Hc.
  - intros Hrun. apply Hcond.
    destruct (bookFill rev id px q b t sim) as [[t' sim1]|] eqn:Hb; [|done].
    pose proof (Hgrow _ _ _ eq_refl Hrun). lia.
  - intros sim' Hrun Hne.
    destruct (bookFill rev id px q b t sim) as [[t' sim1]|] eqn:Hb.
    + by eapply Hgrow.
    + rewrite processFill_step, Hb in Hrun. by injection Hrun as <-.
Qed.

End Edges.

Lemma cancel_erases_or_does_nothing_witness :
  let action := Examples.mkAction CANCEL 1 0 0 0 true false in
  let bookTop := Examples.mkTop 0 0 0 in
  type action = CANCEL /\
  exists sim',
    processAction QueueRevision 1 action bookTop Examples.quoted = Done sim' /\
    activeOrders_ sim' = delete 1%N (activeOrders_ Examples.quoted) /\
    length (outputFile_ sim') = 2%nat /\
    position_ sim' = 0 /\
    totalOrdersPlaced_ sim' = 1%N.
Proof.
  intros action bookTop. split; [reflexivity|].
  pose proof (cancel_erases_or_does_nothing QueueRevision 0 action bookTop
                Examples.quoted eq_refl) as H.
  destruct (activeOrders_ Examples.quoted !! orderId action) as [order|] eqn:E;
    [|vm_compute in E; discriminate E].
  destruct H as (sim' & Hrun & Ho & Hlog & Hp & _ & Hn & _).
  exists sim'. split_and!; [exact Hrun|exact Ho|by rewrite Hlog|by rewrite Hp|
                            by rewrite Hn].
Defined.

Lemma replace_updates_in_place_witness :
  let action := Examples.mkAction REPLACE 1 0 98 3 true false in
  let bookTop := Examples.mkTop 0 0 0 in
  type action = REPLACE /\
  exists sim' order',
    processAction QueueRevision 1 action bookTop Examples.quoted = Done sim' /\
    activeOrders_ sim' !! 1%N = Some order' /\
    o_price order' = 98 /\ o_quantity order' = 3%N /\
    length (outputFile_ sim') = 2%nat.
Proof.
  intros action bookTop. split; [reflexivity|].
  pose proof (replace_updates_in_place QueueRevision 0 action bookTop
                Examples.quoted eq_refl) as H.
  destruct (activeOrders_ Examples.quoted !! orderId action) as [order|] eqn:E;
    [|vm_compute in E; discriminate E].
  destruct H as (sim' & order' & Hrun & Ho & Hpx & Hq & _ & _ & _ & _ & _ & _
                 & Hlog & _).
  { vm_compute in E. injection E as <-. reflexivity. }
  exists sim', order'. split_and!; [exact Hrun| |exact Hpx|exact Hq|].
  - rewrite Ho. apply lookup_insert_eq.
  - by rewrite Hlog.
Defined.

(** ** What gets past the coalescer and the filter *)

Section Coalescing.
Context {SS : Type} `{!Strategy SS}.
Variable rev : Revision.
Implicit Type sim : FillSimulator SS.

(** A public fill is always counted, and moves neither the stored top nor
    the time of the last accepted top. *)
Lemma processBookFill_counts fuel fill sim sim' :
  processBookFill rev fuel fill sim = Done sim' ->
  marketState_ sim' = marketState_ sim /\
  lastProcessedTime sim' = lastProcessedTime sim /\
  totalMdEvents (latencyStats_ sim')
    = add_u64 (totalMdEvents (latencyStats_ sim)) 1.
Proof.
  unfold processBookFill. cbv zeta.
  destruct (onFill _ _) as [actions strategy].
  intros Hs%(sameMarket_submitWith _ _ _ _
               (proj1 (sameMarket_processAction_processFill rev fuel))).
  destruct Hs as (-> & -> & ->). done.
Qed.

Lemma add_u64_1_neq (a : N) : add_u64 a 1 <> a.
Proof.
  unfold add_u64, UINT64_MOD. intros Heq.
  assert (HM : (1 < 2 ^ 64)%N) by done.
  revert Heq HM. generalize (2 ^ 64)%N as M. intros M Heq HM.
  destruct (decide (a + 1 < M)%N) as [Hlt|Hge].
  - rewrite N.mod_small in Heq by done. lia.
  - pose proof (N.mod_upper_bound (a + 1) M ltac:(lia)) as Hup.
    assert (a + 1 = M)%N as HaM by lia.
    rewrite HaM, N.Div0.mod_same in Heq. lia.
Qed.

Lemma add_u64_1_iter (a : N) (n : nat) :
  add_u64 (add_u64 a 1) (N.of_nat n) = add_u64 a (N.of_nat (S n)).
Proof.
  unfold add_u64, UINT64_MOD.
  rewrite N.Div0.add_mod_idemp_l. f_equal. lia.
Qed.

(** X7.  Which tops reach the strategy is decided by the stream alone, and
    a top that does not reach it leaves no trace: a run over a stream of
    tops and fills is the run over the events of it that are [delivered],
    whatever the strategy answers and however the run ends.  When the run
    returns, the count of market-data events has grown by their number (in
    [uint64_t]).  So it is for [runSimulation] and the merge of its two
    files. *)
Theorem dropped_tops_leave_no_trace (fuel : nat) (evs : list MdEvent) sim :
  dispatchAll rev fuel evs sim
    = dispatchAll rev fuel (delivered rev (lastProcessedTime sim) evs) sim /\
  (forall sim',
     dispatchAll rev fuel evs sim = Done sim' ->
     totalMdEvents (latencyStats_ sim') mod UINT64_MOD
       = add_u64 (totalMdEvents (latencyStats_ sim))
           (N.of_nat (length (delivered rev (lastProcessedTime sim) evs))))%N
  /\
  (forall tops fills,
     runSimulation rev fuel tops fills sim
       = dispatchAll rev fuel
           (delivered rev (lastProcessedTime sim) (mergeStreams tops fills))
           sim).
Proof.
  enough (Hall : forall evs sim,
    dispatchAll rev fuel evs sim
      = dispatchAll rev fuel (delivered rev (lastProcessedTime sim) evs) sim /\
    (forall sim',
       dispatchAll rev fuel evs sim = Done sim' ->
       totalMdEvents (latencyStats_ sim') mod UINT64_MOD
         = add_u64 (totalMdEvents (latencyStats_ sim))
             (N.of_nat
                (length (delivered rev (lastProcessedTime sim) evs))))%N).
  { split_and!; [apply Hall|apply Hall|].
    intros tops fills. unfold runSimulation. apply Hall. }
  clear evs sim. intros evs.
  induction evs as [|[bookTop|fill] rest IH]; intros sim.
  - split; [done|]. intros sim' [= <-]. simpl. unfold add_u64.
    by rewrite N.add_0_r.
  - simpl. unfold processBookTop.
    destruct (tooSoon _ _) eqn:Hsoon; simpl.
    { destruct (IH sim) as [IH1 IH2]. split; [exact IH1|exact IH2]. }
    destruct (invalidBookTop _ _) eqn:Hbad; simpl.
    { destruct (IH sim) as [IH1 IH2]. split; [exact IH1|exact IH2]. }
    unfold processBookTop. rewrite Hsoon, Hbad.
    destruct (deliverBookTop _ _ _ _) as [sim1| |] eqn:Hd; simpl;
      [|done..].
    destruct (deliverBookTop_stores _ _ _ _ _ Hd) as (_ & Hlast & Hcount).
    destruct (IH sim1) as [IH1 IH2]. rewrite Hlast in IH1, IH2.
    split; [exact IH1|].
    intros sim' Hrun. rewrite (IH2 _ Hrun), Hcount. apply add_u64_1_iter.
  - simpl.
    destruct (processBookFill _ _ _ _) as [sim1| |] eqn:Hf; simpl;
      [|done..].
    destruct (processBookFill_counts _ _ _ _ Hf) as (_ & Hlast & Hcount).
    destruct (IH sim1) as [IH1 IH2]. rewrite Hlast in IH1, IH2.
    split; [exact IH1|].
    intros sim' Hrun. rewrite (IH2 _ Hrun), Hcount. apply add_u64_1_iter.
Qed.

(** X8.  The window of the coalescer, for a top the filter lets through.
    [processBookTop] hands the simulator back untouched exactly when a top
    has been accepted before (at a time other than zero) and the new one is
    less than 100_000 ns after it.  The difference is taken in [uint64_t]:
    a top stamped before the last accepted one is not coalesced unless it
    is more than [2^64 - 100_000] ns before it. *)
Theorem coalescer_window (fuel : nat) (bookTop : book_top_t) sim :
  invalidBookTop rev bookTop = false ->
  in_u64 (ts bookTop) ->
  in_u64 (lastProcessedTime sim) ->
  processBookTop rev fuel bookTop sim = Done sim <->
  (0 < lastProcessedTime sim /\
   if lastProcessedTime sim <=? ts bookTop
   then ts bookTop - lastProcessedTime sim < 100000
   else 2 ^ 64 - 100000 < lastProcessedTime sim - ts bookTop)%N.
Proof.
  unfold in_u64, UINT64_MOD. intros Hok Hts Hlast.
  assert (Hsoon : tooSoon (lastProcessedTime sim) bookTop = true <->
    (0 < lastProcessedTime sim /\
     if lastProcessedTime sim <=? ts bookTop
     then ts bookTop - lastProcessedTime sim < 100000
     else 2 ^ 64 - 100000 < lastProcessedTime sim - ts bookTop)%N).
  { unfold tooSoon, MIN_PROCESSING_INTERVAL, sub_u64.
    rewrite andb_true_iff, N.ltb_lt, N.ltb_lt.
    destruct (N.leb_spec (lastProcessedTime sim) (ts bookTop)) as [Hle|Hgt].
    - rewrite Z.mod_small by lia. split; intros [? ?]; split; lia.
    - rewrite <- (Z_mod_plus_full _ 1), Z.mod_small by lia.
      split; intros [? ?]; split; lia. }
  rewrite <- Hsoon. unfold processBookTop. rewrite Hok.
  destruct (tooSoon _ _); [done|].
  split; [|done]. intros Hd.
  destruct (deliverBookTop_stores _ _ _ _ _ Hd) as (_ & _ & Hcount).
  symmetry in Hcount. by apply add_u64_1_neq in Hcount.
Qed.

End Coalescing.

Lemma coalescer_window_witness :
  let sim := Examples.quoted in
  let bookTop := Examples.mkTop 1100000 97 99 in
  processBookTop QueueRevision 1 bookTop sim <> Done sim.
Proof.
  intros sim bookTop Hrun.
  apply (coalescer_window QueueRevision 1 bookTop sim) in Hrun;
    [|reflexivity|reflexivity|reflexivity].
  vm_compute in Hrun. destruct Hrun as [_ Hlt]. discriminate Hlt.
Defined.

(** ** The merge of the two input files *)

Lemma mergeStreams_nil_l fills : mergeStreams [] fills = FillEvent <$> fills.
Proof. by destruct fills. Qed.

Lemma mergeStreams_nil_r tops : mergeStreams tops [] = TopEvent <$> tops.
Proof. by destruct tops. Qed.

Lemma mergeStreams_cons bookTop tops bookFill fills :
  mergeStreams (bookTop :: tops) (bookFill :: fills) =
    if (ts bookTop <=? fill_ts bookFill)%N
    then TopEvent bookTop :: mergeStreams tops (bookFill :: fills)
    else FillEvent bookFill :: mergeStreams (bookTop :: tops) fills.
Proof. reflexivity. Qed.

Lemma topsOf_tops tops : topsOf (TopEvent <$> tops) = tops.
Proof. induction tops; simpl; by f_equal. Qed.

Lemma topsOf_fills fills : topsOf (FillEvent <$> fills) = [].
Proof. by induction fills. Qed.

Lemma fillsOf_fills fills : fillsOf (FillEvent <$> fills) = fills.
Proof. induction fills; simpl; by f_equal. Qed.

Lemma fillsOf_tops tops : fillsOf (TopEvent <$> tops) = [].
Proof. by induction tops. Qed.

Lemma mergeStreams_Forall (P : MdEvent -> Prop) tops fills :
  Forall P (TopEvent <$> tops) -> Forall P (FillEvent <$> fills) ->
  Forall P (mergeStreams tops fills).
Proof.
  revert fills. induction tops as [|bookTop tops IHt]; intros fills.
  { intros _ Hf. by rewrite mergeStreams_nil_l. }
  induction fills as [|bookFill fills IHf]; intros Ht Hf.
  { by rewrite mergeStreams_nil_r. }
  rewrite mergeStreams_cons. destruct (_ <=? _)%N.
  - apply Forall_cons in Ht as [Ht1 Ht2]. constructor; [done|].
    by apply IHt.
  - apply Forall_cons in Hf as [Hf1 Hf2]. constructor; [done|].
    by apply IHf.
Qed.

(** X9.  The order in which [runSimulation] hands the records of the two
    files to the simulator is an interleaving of them: the tops among the
    calls are the tops file and the fills the fills file, each in file
    order, nothing lost and nothing repeated.  When both files are in
    non-decreasing time order, so is the sequence of calls, and of a top
    and a fill of the same time the top comes first: a fill is handed over
    before a top only when its time is strictly earlier. *)
Theorem merge_is_a_time_ordered_interleaving
    (tops : list book_top_t) (fills : list book_fill_snapshot_t) :
  topsOf (mergeStreams tops fills) = tops /\
  fillsOf (mergeStreams tops fills) = fills /\
  (Sorted (fun a b => (ts a <= ts b)%N) tops ->
   Sorted (fun a b => (fill_ts a <= fill_ts b)%N) fills ->
   StronglySorted evBefore (mergeStreams tops fills)).
Proof.
  split_and!.
  - revert fills. induction tops as [|bookTop tops IHt]; intros fills.
    { rewrite mergeStreams_nil_l. apply topsOf_fills. }
    induction fills as [|bookFill fills IHf].
    { rewrite mergeStreams_nil_r. apply topsOf_tops. }
    rewrite mergeStreams_cons. destruct (_ <=? _)%N.
    + unfold topsOf. simpl. f_equal. apply IHt.
    + exact IHf.
  - revert fills. induction tops as [|bookTop tops IHt]; intros fills.
    { rewrite mergeStreams_nil_l. apply fillsOf_fills. }
    induction fills as [|bookFill fills IHf].
    { rewrite mergeStreams_nil_r. apply fillsOf_tops. }
    rewrite mergeStreams_cons. destruct (_ <=? _)%N.
    + apply IHt.
    + unfold fillsOf. simpl. f_equal. exact IHf.
  - intros Ht Hf.
    apply Sorted_StronglySorted in Ht; [|intros a b c; apply N.le_trans].
    apply Sorted_StronglySorted in Hf; [|intros a b c; apply N.le_trans].
    revert fills Hf. induction Ht as [|bookTop tops Ht IHt Hhd].
    { intros fills Hf. rewrite mergeStreams_nil_l.
      induction Hf as [|f fills Hf IH Hall]; simpl; constructor; [done|].
      apply Forall_fmap. eapply Forall_impl; [exact Hall|]. done. }
    intros fills Hf. induction Hf as [|bookFill fills Hf IHf Hhd'].
    { rewrite mergeStreams_nil_r.
      change (StronglySorted evBefore (TopEvent <$> (bookTop :: tops))).
      assert (Hs : StronglySorted (fun a b => (ts a <= ts b)%N)
                     (bookTop :: tops)) by by constructor.
      clear -Hs. induction Hs as [|t l Hs IH Hall]; simpl; constructor;
        [done|].
      apply Forall_fmap. eapply Forall_impl; [exact Hall|]. done. }
    rewrite mergeStreams_cons.
    destruct (N.leb_spec (ts bookTop) (fill_ts bookFill)) as [Hle|Hgt].
    + constructor; [apply IHt; by constructor|].
      apply mergeStreams_Forall.
      * apply Forall_fmap. eapply Forall_impl; [exact Hhd|]. done.
      * apply Forall_fmap. constructor; [exact Hle|].
        eapply Forall_impl; [exact Hhd'|]. intros f Hf'. simpl in *.
        unfold evBefore. simpl. lia.
    + constructor; [exact IHf|].
      apply mergeStreams_Forall.
      * apply Forall_fmap. constructor; [exact Hgt|].
        eapply Forall_impl; [exact Hhd|]. intros t Ht'. simpl in *. lia.
      * apply Forall_fmap. eapply Forall_impl; [exact Hhd'|]. done.
Qed.

(** ** The queue book *)

Lemma ascending_empty : ascending ∅ = [].
Proof. unfold ascending. by rewrite map_to_list_empty. Qed.

Lemma descending_empty : descending ∅ = [].
Proof. unfold descending. by rewrite ascending_empty. Qed.

Lemma updateTopLevels_books b :
  bid_book (updateTopLevels b) = bid_book b /\
  ask_book (updateTopLevels b) = ask_book b /\
  order_map (updateTopLevels b) = order_map b.
Proof. done. Qed.

Section OneSided.
Context {SS : Type} `{!Strategy SS}.
Variable rev : Revision.
Implicit Type sim : FillSimulator SS.

(** X10.  A book with no bids or no asks never reaches the strategy: the
    top [updateTopLevels] makes of it has a bid of zero or an ask of
    [INT64_MAX], which the filter of [processBookTop] drops in either
    revision, so the simulator comes back untouched.  In particular a
    [clear_book] event empties both sides and [order_map], resets the
    first level of the stored top, and leaves the simulator as it was. *)
Theorem one_sided_book_is_never_delivered (fuel : nat) (b : BookState) sim :
  (bid_book b = ∅ \/ ask_book b = ∅ ->
   invalidBookTop rev (currentTop (updateTopLevels b)) = true /\
   processBookTop rev fuel (currentTop (updateTopLevels b)) sim = Done sim) /\
  (forall ev, payload ev = clear_book ->
     exists b',
       processBookEvent rev fuel ev (b, sim) = Done (b', sim) /\
       bid_book b' = ∅ /\ ask_book b' = ∅ /\ order_map b' = ∅ /\
       ts (currentTop b') = ev_ts ev /\
       top_level (currentTop b')
         = {| bid_nanos := 0; ask_nanos := INT64_MAX;
              bid_qty := 0; ask_qty := 0 |}).
Proof.
  assert (Hone : forall b0 : BookState,
    bid_book b0 = ∅ \/ ask_book b0 = ∅ ->
    invalidBookTop rev (currentTop (updateTopLevels b0)) = true).
  { intros b0 Hside. unfold invalidBookTop, updateTopLevels. simpl.
    destruct Hside as [-> | ->].
    - rewrite descending_empty. done.
    - rewrite ascending_empty. simpl.
      destruct (_ <=? 0); [done|]. simpl.
      destruct (_ >=? _); [done|]. simpl.
      destruct rev; simpl; [|by rewrite orb_true_r].
      by rewrite orb_true_r. }
  assert (Hdrop : forall b0 : BookState,
    bid_book b0 = ∅ \/ ask_book b0 = ∅ ->
    processBookTop rev fuel (currentTop (updateTopLevels b0)) sim = Done sim).
  { intros b0 Hside. unfold processBookTop. rewrite (Hone b0 Hside).
    by destruct (tooSoon _ _). }
  split.
  - intros Hside. split; [by apply Hone|by apply Hdrop].
  - intros ev Hev. unfold processBookEvent, applyPayload. rewrite Hev.
    match goal with |- context [Done (?x, sim, true)] =>
      remember x as b1 eqn:Hb1 end.
    cbn [mbind outcome_bind]. rewrite Hdrop by (left; by subst b1).
    cbn [mbind outcome_bind].
    eexists. split; [reflexivity|]. subst b1. simpl.
    rewrite descending_empty, ascending_empty. done.
Qed.

(** X11.  An event that names an order id [order_map] does not hold (a
    delete, amend, reduce or execution of an unknown order), and an event
    of any other type than the nine handled ones, changes nothing but the
    time and sequence number of the stored top: the books, [order_map] and
    the levels of the stored top stay, and the simulator is not called. *)
Theorem unknown_order_changes_only_the_stamp (fuel : nat) (ev : BookEvent)
    (b : BookState) sim :
  match namedOrder (payload ev) with
  | Some id => order_map b !! id = None
  | None => payload ev = other_event
  end ->
  processBookEvent rev fuel ev (b, sim) = Done (stampTop ev b, sim).
Proof.
  unfold processBookEvent, applyPayload.
  destruct (payload ev); simpl; try done; by intros ->.
Qed.

End OneSided.

Lemma unknown_order_changes_only_the_stamp_witness :
  let ev := Examples.mkEvent 2000000 (delete_order 9) in
  processBookEvent QueueRevision 1 ev Examples.twoSided
    = Done (stampTop ev Examples.twoSided.1, Examples.twoSided.2).
Proof.
  intros ev.
  rewrite (surjective_pairing Examples.twoSided) at 1.
  apply (unknown_order_changes_only_the_stamp QueueRevision 1 ev).
  vm_compute. reflexivity.
Defined.

(** *** Level quantities *)

Lemma add_u32_Z a b :
  Z.of_N (add_u32 a b) = (Z.of_N a + Z.of_N b) mod 2 ^ 32.
Proof. unfold add_u32, UINT32_MOD. by rewrite N2Z.inj_mod, N2Z.inj_add. Qed.

Lemma sub_u32_Z a b :
  Z.of_N (sub_u32 a b) = (Z.of_N a - Z.of_N b) mod 2 ^ 32.
Proof. unfold sub_u32. rewrite Z2N.id; [done|]. by apply Z.mod_pos_bound. Qed.

Lemma mod_u32_Z a : Z.of_N (a mod UINT32_MOD) = Z.of_N a mod 2 ^ 32.
Proof. unfold UINT32_MOD. by rewrite N2Z.inj_mod. Qed.

(** Equations between [uint32_t] expressions, decided in [Z]. *)
Ltac u32 :=
  apply N2Z.inj;
  repeat match goal with
         | H : @eq N _ _ |- _ => apply (f_equal Z.of_N) in H
         end;
  rewrite ?add_u32_Z, ?sub_u32_Z, ?mod_u32_Z, ?N2Z.inj_add in *;
  rewrite ?add_u32_Z, ?sub_u32_Z, ?mod_u32_Z, ?N2Z.inj_add in *;
  change (2 ^ 32) with 4294967296 in *;
  Z.div_mod_to_equations; lia.

Lemma sumQty_app q1 q2 : (sumQty (q1 ++ q2) = sumQty q1 + sumQty q2)%N.
Proof. induction q1 as [|e q1 IH]; simpl; [done|]. rewrite IH. lia. Qed.

Lemma sumQty_set h o o' q :
  queue_find h q = Some o ->
  (sumQty (queue_set h o' q) + qty o = sumQty q + qty o')%N.
Proof.
  induction q as [|[h' o''] q IH]; simpl; [done|].
  destruct (Nat.eqb h h').
  - intros [= ->]. simpl. lia.
  - intros Hf%IH. simpl. lia.
Qed.

Lemma sumQty_erase h o q :
  queue_find h q = Some o ->
  (sumQty (queue_erase h q) + qty o = sumQty q)%N.
Proof.
  induction q as [|[h' o''] q IH]; simpl; [done|].
  destruct (Nat.eqb h h').
  - intros [= ->]. simpl. lia.
  - intros Hf%IH. simpl. lia.
Qed.

Lemma levelSums_insert book p total queue :
  levelSums book -> total = (sumQty queue mod UINT32_MOD)%N ->
  levelSums (<[p := (total, queue)]> book).
Proof. intros Hb Ht. by apply map_Forall_insert_2. Qed.

Lemma levelSums_lookup book p total queue :
  levelSums book -> book !! p = Some (total, queue) ->
  total = (sumQty queue mod UINT32_MOD)%N.
Proof. intros Hb Hl. exact (Hb _ _ Hl). Qed.

Lemma bookSums_side is_bid b : bookSums b -> levelSums (side is_bid b).
Proof. intros [? ?]. by destruct is_bid. Qed.

Lemma bookSums_set_side is_bid book b :
  levelSums book -> bookSums b -> bookSums (set_side is_bid book b).
Proof. intros ? [? ?]. by destruct is_bid. Qed.

Lemma bookSums_insertOrder is_bid price id q t b :
  bookSums b -> bookSums (insertOrder is_bid price id q t b).1.
Proof.
  intros Hb. unfold insertOrder.
  pose proof (bookSums_side is_bid b Hb) as Hside.
  destruct (side is_bid b !! price) as [[total queue]|] eqn:Hl; simpl.
  - apply (bookSums_set_side is_bid); [|done].
    apply levelSums_insert; [done|].
    pose proof (levelSums_lookup _ _ _ _ Hside Hl) as Ht.
    rewrite sumQty_app. simpl. rewrite N.add_0_r.
    rewrite Ht. unfold add_u32. by rewrite N.Div0.add_mod_idemp_l.
  - apply (bookSums_set_side is_bid); [|done].
    apply levelSums_insert; [done|]. simpl. unfold add_u32.
    by rewrite N.add_0_r, N.add_0_l.
Qed.

Lemma bookSums_removeOrder id r b b' c :
  bookSums b -> removeOrder id r b = Done (b', c) -> bookSums b'.
Proof.
  intros Hb. unfold removeOrder.
  pose proof (bookSums_side (ref_is_bid r) b Hb) as Hside.
  destruct (side (ref_is_bid r) b !! ref_price r) as [[total queue]|] eqn:Hl;
    [|by intros [= <- _]].
  destruct (queue_find _ _) as [o|] eqn:Hf; [|done].
  intros [= <- _].
  apply (bookSums_set_side (ref_is_bid r) _ b); [|done].
  destruct (_ =? 0)%N.
  - by apply map_Forall_delete.
  - apply levelSums_insert; [done|].
    pose proof (levelSums_lookup _ _ _ _ Hside Hl) as Ht.
    pose proof (sumQty_erase _ _ _ Hf) as Hs.
    revert Ht Hs. generalize (sumQty (queue_erase (order_it r) queue)).
    generalize (sumQty queue). intros S1 S2 Ht Hs. u32.
Qed.

Section LevelSums.
Context {SS : Type} `{!Strategy SS}.
Variable rev : Revision.
Implicit Type sim : FillSimulator SS.

Lemma bookSums_executeOrder fuel ev id q x trade r total queue b sim b' sim' c :
  bookSums b ->
  side (ref_is_bid r) b !! ref_price r = Some (total, queue) ->
  executeOrder rev fuel ev id q x trade r total queue b sim
    = Done (b', sim', c) ->
  bookSums b'.
Proof.
  intros Hb Hl. unfold executeOrder.
  pose proof (bookSums_side (ref_is_bid r) b Hb) as Hside.
  destruct (queue_find _ _) as [o|] eqn:Hf; [|done]. cbv zeta.
  destruct (processBookFill _ _ _ _) as [sim1| |]; simpl; [|done..].
  destruct (_ =? 0)%N; [done|]. intros [= <- _ _].
  apply (bookSums_set_side (ref_is_bid r) _ b); [|done].
  apply levelSums_insert; [done|].
  pose proof (levelSums_lookup _ _ _ _ Hside Hl) as Ht.
  match goal with |- context [queue_set ?h ?o' queue] =>
    pose proof (sumQty_set h o o' queue Hf) as Hs;
    revert Hs; generalize (sumQty (queue_set h o' queue)) end.
  simpl. revert Ht. generalize (sumQty queue). intros S1 Ht S2 Hs. u32.
Qed.

Lemma bookSums_applyPayload fuel ev b sim b' sim' c :
  bookSums b ->
  applyPayload rev fuel ev b sim = Done (b', sim', c) -> bookSums b'.
Proof.
  intros Hb. unfold applyPayload.
  destruct (payload ev)
    as [px id q ib | id | px orig new q | id q | id q | id q x | id q x px
        | | ].
  - pose proof (bookSums_insertOrder ib px id q (ev_ts ev) b Hb) as Hi.
    destruct (insertOrder _ _ _ _ _ _) as [b1 c1]. by intros [= <- _ _].
  - destruct (order_map b !! id) as [r|]; [|by intros [= <- _ _]].
    destruct (removeOrder _ _ _) as [[b1 c1]| |] eqn:Hr; simpl; [|done..].
    intros [= <- _ _]. by eapply bookSums_removeOrder.
  - destruct (order_map b !! orig) as [r|].
    + by destruct (removeOrder _ _ _) as [[b1 c1]| |].
    + pose proof (bookSums_insertOrder (px >? 0) px new q (ev_ts ev) b Hb)
        as Hi.
      destruct (insertOrder _ _ _ _ _ _) as [b1 c1]. by intros [= <- _ _].
  - destruct (order_map b !! id) as [r|]; [|by intros [= <- _ _]].
    pose proof (bookSums_side (ref_is_bid r) b Hb) as Hside.
    destruct (side _ _ !! _) as [[total queue]|] eqn:Hl;
      [|by intros [= <- _ _]].
    destruct (queue_find _ _) as [o|] eqn:Hf; [|done].
    intros [= <- _ _].
    apply (bookSums_set_side (ref_is_bid r) _ b); [|done].
    apply levelSums_insert; [done|].
    pose proof (levelSums_lookup _ _ _ _ Hside Hl) as Ht.
    match goal with |- context [queue_set ?h ?o' queue] =>
      pose proof (sumQty_set h o o' queue Hf) as Hs;
      revert Hs; generalize (sumQty (queue_set h o' queue)) end.
    simpl. revert Ht. generalize (sumQty queue). intros S1 Ht S2 Hs. u32.
  - destruct (order_map b !! id) as [r|]; [|by intros [= <- _ _]].
    pose proof (bookSums_side (ref_is_bid r) b Hb) as Hside.
    destruct (side _ _ !! _) as [[total queue]|] eqn:Hl;
      [|by intros [= <- _ _]].
    destruct (queue_find _ _) as [o|] eqn:Hf; [|done]. cbv zeta.
    destruct (_ =? 0)%N; [done|]. intros [= <- _ _].
    apply (bookSums_set_side (ref_is_bid r) _ b); [|done].
    apply levelSums_insert; [done|].
    pose proof (levelSums_lookup _ _ _ _ Hside Hl) as Ht.
    match goal with |- context [queue_set ?h ?o' queue] =>
      pose proof (sumQty_set h o o' queue Hf) as Hs;
      revert Hs; generalize (sumQty (queue_set h o' queue)) end.
    simpl. revert Ht. generalize (sumQty queue). intros S1 Ht S2 Hs. u32.
  - destruct (order_map b !! id) as [r|]; [|by intros [= <- _ _]].
    destruct (side _ _ !! _) as [[total queue]|] eqn:Hl;
      [|by intros [= <- _ _]].
    by apply bookSums_executeOrder.
  - destruct (order_map b !! id) as [r|]; [|by intros [= <- _ _]].
    destruct (side _ _ !! _) as [[total queue]|] eqn:Hl;
      [|by intros [= <- _ _]].
    by apply bookSums_executeOrder.
  - intros [= <- _ _]. split; simpl; apply map_Forall_empty.
  - by intros [= <- _ _].
Qed.

Lemma bookSums_processBookEvent fuel ev b sim b' sim' :
  bookSums b ->
  processBookEvent rev fuel ev (b, sim) = Done (b', sim') -> bookSums b'.
Proof.
  intros Hb. unfold processBookEvent.
  destruct (applyPayload _ _ _ _ _) as [[[b1 sim1] c]| |] eqn:Ha;
    cbn [mbind outcome_bind]; [|done..].
  apply bookSums_applyPayload in Ha; [|done].
  destruct c.
  - destruct (processBookTop _ _ _ _) as [sim2| |];
      cbn [mbind outcome_bind]; [|done..].
    by intros [= <- _].
  - by intros [= <- _].
Qed.

(** X12.  The quantity a price level carries is the sum of the quantities
    of the orders in its queue, in [uint32_t], on both sides of the book:
    this holds of the empty book, and every event that is carried out
    keeps it, so it holds wherever a queue-mode run arrives. *)
Theorem level_quantity_is_sum_of_queue (fuel : nat) (evs : list BookEvent)
    (b : BookState) sim (b' : BookState) sim' :
  bookSums b ->
  runQueueSimulation rev fuel evs (b, sim) = Done (b', sim') ->
  bookSums b'.
Proof.
  revert b sim. induction evs as [|ev evs IH]; intros b sim Hb.
  - by intros [= <- _].
  - change (runQueueSimulation rev fuel (ev :: evs) (b, sim))
      with (st' ← processBookEvent rev fuel ev (b, sim);
            runQueueSimulation rev fuel evs st').
    destruct (processBookEvent _ _ _ _) as [[b1 sim1]| |] eqn:He;
      cbn [mbind outcome_bind]; [|done..].
    apply bookSums_processBookEvent in He; [|done]. by apply IH.
Qed.

End LevelSums.

Lemma level_quantity_is_sum_of_queue_witness :
  let evs := [Examples.mkEvent 1000000 (add_order 99 1 5 true);
              Examples.mkEvent 1000001 (add_order 99 2 7 true);
              Examples.mkEvent 1000002 (amend_order 1 2);
              Examples.mkEvent 1000003 (reduce_order 2 3)] in
  bookSums (Examples.afterEvents evs).1 /\
  fst <$> bid_book (Examples.afterEvents evs).1 !! 99 = Some 6%N.
Proof.
  intros evs. split; [|vm_compute; reflexivity].
  apply (level_quantity_is_sum_of_queue QueueRevision 1 evs emptyBook
           (newFillSimulator [] 0 0) _ (Examples.afterEvents evs).2).
  - split; apply map_Forall_empty.
  - vm_compute. reflexivity.
Defined.

(** *** The best prices *)

#[local] Instance price_le_trans : Transitive price_le.
Proof. intros x y z. unfold price_le. lia. Qed.

#[local] Instance price_le_total : Total price_le.
Proof. intros x y. unfold price_le. lia. Qed.

Lemma elem_of_ascending book p l :
  (p, l) ∈ ascending book <-> book !! p = Some l.
Proof.
  unfold ascending. rewrite merge_sort_Permutation.
  apply elem_of_map_to_list.
Qed.

Lemma ascending_nil book : ascending book = [] <-> book = ∅.
Proof.
  rewrite <- map_to_list_empty_iff. unfold ascending. split.
  - intros Hnil. apply Permutation_nil_r. rewrite <- Hnil.
    by rewrite merge_sort_Permutation.
  - by intros ->.
Qed.

(** [begin()] of a side is its lowest price, [rbegin()] its highest. *)
Lemma head_ascending book p l :
  head (ascending book) = Some (p, l) ->
  book !! p = Some l /\ forall p' l', book !! p' = Some l' -> p <= p'.
Proof.
  intros [rest Heq]%head_Some. split.
  - apply elem_of_ascending. rewrite Heq. by left.
  - intros p' l' Hin%elem_of_ascending.
    pose proof (StronglySorted_merge_sort price_le (map_to_list book)) as Hs.
    fold (ascending book) in Hs. rewrite Heq in Hs, Hin.
    apply StronglySorted_cons in Hs as [Hall _].
    apply elem_of_cons in Hin as [[= -> _]|Hin]; [done|].
    rewrite Forall_forall in Hall. exact (Hall _ Hin).
Qed.

Lemma head_descending book p l :
  head (descending book) = Some (p, l) ->
  book !! p = Some l /\ forall p' l', book !! p' = Some l' -> p' <= p.
Proof.
  unfold descending. rewrite head_reverse. intros [rest Heq]%last_Some.
  split.
  - apply elem_of_ascending. rewrite Heq. set_solver.
  - intros p' l' Hin%elem_of_ascending.
    pose proof (StronglySorted_merge_sort price_le (map_to_list book)) as Hs.
    fold (ascending book) in Hs. rewrite Heq in Hs, Hin.
    apply elem_of_app in Hin as [Hin|Hin].
    + exact (StronglySorted_app_1_elem_of _ _ _ _ _ Hs Hin
               ltac:(by apply list_elem_of_singleton)).
    + apply list_elem_of_singleton in Hin as [= -> _]. done.
Qed.

(** X13.  The first level of the top [updateTopLevels] makes of a book.
    Its bid is the highest price of the bid side with that level's
    quantity, and its ask the lowest price of the ask side with that
    level's quantity.  A side without levels gives a bid of 0, or an ask of
    [INT64_MAX], with quantity 0; so does a best bid above
    [MAX_REASONABLE_PRICE], and a best ask above it other than
    [INT64_MAX]. *)
Theorem synthesized_top_is_best_of_book (b : BookState) :
  let top := top_level (currentTop (updateTopLevels b)) in
  (bid_book b = ∅ -> bid_nanos top = 0 /\ bid_qty top = 0%N) /\
  (forall p total queue,
     bid_book b !! p = Some (total, queue) ->
     (forall p' l', bid_book b !! p' = Some l' -> p' <= p) ->
     if p >? MAX_REASONABLE_PRICE
     then bid_nanos top = 0 /\ bid_qty top = 0%N
     else bid_nanos top = p /\ bid_qty top = total) /\
  (ask_book b = ∅ -> ask_nanos top = INT64_MAX /\ ask_qty top = 0%N) /\
  (forall p total queue,
     ask_book b !! p = Some (total, queue) ->
     (forall p' l', ask_book b !! p' = Some l' -> p <= p') ->
     if (p >? MAX_REASONABLE_PRICE) && negb (p =? INT64_MAX)
     then ask_nanos top = INT64_MAX /\ ask_qty top = 0%N
     else ask_nanos top = p /\ ask_qty top = total).
Proof.
  intros top. subst top. unfold updateTopLevels.
  cbn [currentTop set_currentTop top_level bid_nanos ask_nanos bid_qty
       ask_qty].
  rewrite <- !head_lookup. split_and!.
  - intros ->. by rewrite descending_empty.
  - intros p total queue Hp Hmax.
    destruct (head (descending (bid_book b))) as [[p0 [total0 queue0]]|]
      eqn:Hhd.
    + apply head_descending in Hhd as [Hp0 Hmax0].
      assert (p0 = p) as Heq by (pose proof (Hmax _ _ Hp0);
                                 pose proof (Hmax0 _ _ Hp); lia).
      subst p0. pose proof (eq_trans (eq_sym Hp0) Hp) as [= -> ->]. simpl.
      by destruct (p >? MAX_REASONABLE_PRICE).
    + apply head_None in Hhd. unfold descending in Hhd.
      apply (f_equal reverse) in Hhd.
      rewrite reverse_involutive, reverse_nil in Hhd.
      apply ascending_nil in Hhd. by rewrite Hhd in Hp.
  - intros ->. by rewrite ascending_empty.
  - intros p total queue Hp Hmin.
    destruct (head (ascending (ask_book b))) as [[p0 [total0 queue0]]|]
      eqn:Hhd.
    + apply head_ascending in Hhd as [Hp0 Hmin0].
      assert (p0 = p) as Heq by (pose proof (Hmin _ _ Hp0);
                                 pose proof (Hmin0 _ _ Hp); lia).
      subst p0. pose proof (eq_trans (eq_sym Hp0) Hp) as [= -> ->]. simpl.
      by destruct (_ && _).
    + apply head_None, ascending_nil in Hhd. by rewrite Hhd in Hp.
Qed.

(** *** Queue position *)

Lemma queueIds_set h o o' q :
  queue_find h q = Some o -> q_order_id o' = q_order_id o ->
  queueIds (queue_set h o' q) = queueIds q /\
  (queue_set h o' q).*1 = q.*1.
Proof.
  intros Hf Hid. induction q as [|[h' x] q IH]; simpl in *; [done|].
  destruct (Nat.eqb h h').
  - injection Hf as ->. unfold queueIds. simpl. by rewrite Hid.
  - destruct (IH Hf) as [IH1 IH2]. unfold queueIds in *.
    rewrite !fmap_cons. split; f_equal; assumption.
Qed.

Lemma side_set_side_ne is_bid book b :
  side (negb is_bid) (set_side is_bid book b) = side (negb is_bid) b.
Proof. by destruct is_bid. Qed.

Lemma update_in_place r total total' queue o o' b :
  side (ref_is_bid r) b !! ref_price r = Some (total, queue) ->
  queue_find (order_it r) queue = Some o ->
  q_order_id o' = q_order_id o ->
  forall is_bid p,
    (fun l : level_t => (queueIds l.2, l.2.*1)) <$>
      side is_bid
        (set_side (ref_is_bid r)
           (<[ref_price r := (total', queue_set (order_it r) o' queue)]>
              (side (ref_is_bid r) b)) b) !! p
    = (fun l : level_t => (queueIds l.2, l.2.*1)) <$> side is_bid b !! p.
Proof.
  intros Hl Hf Hid is_bid p. unfold level_t in *.
  destruct (decide (is_bid = ref_is_bid r)) as [->|Hne].
  - rewrite side_set_side.
    destruct (decide (p = ref_price r)) as [->|Hp].
    + rewrite lookup_insert_eq, Hl. simpl.
      by destruct (queueIds_set _ _ _ _ Hf Hid) as [-> ->].
    + by rewrite lookup_insert_ne.
  - assert (is_bid = negb (ref_is_bid r)) as ->
      by (by destruct is_bid, (ref_is_bid r)).
    by rewrite side_set_side_ne.
Qed.

Section QueuePosition.
Context {SS : Type} `{!Strategy SS}.
Variable rev : Revision.
Implicit Type sim : FillSimulator SS.

(** X14.  An amend, a reduce or an execution that is carried out leaves
    every order where it is in its queue: after the event both sides have
    the same price levels, each queue lists the same order ids in the same
    order with the same list nodes, and [order_map] is unchanged.  An order
    amended to a larger quantity keeps its place. *)
Theorem in_place_events_keep_queue_order (fuel : nat) (ev : BookEvent)
    (b : BookState) sim (b' : BookState) sim' :
  inPlace (payload ev) = true ->
  processBookEvent rev fuel ev (b, sim) = Done (b', sim') ->
  order_map b' = order_map b /\
  next_handle b' = next_handle b /\
  forall is_bid p,
    (fun l : level_t => (queueIds l.2, l.2.*1)) <$> side is_bid b' !! p
    = (fun l : level_t => (queueIds l.2, l.2.*1)) <$> side is_bid b !! p.
Proof.
  intros Hin.
  assert (Hex : forall id q x trade r total queue b1 sim1 c,
    side (ref_is_bid r) (stampTop ev b) !! ref_price r = Some (total, queue) ->
    executeOrder rev fuel ev id q x trade r total queue (stampTop ev b) sim
      = Done (b1, sim1, c) ->
    order_map b1 = order_map b /\ next_handle b1 = next_handle b /\
    forall is_bid p,
      (fun l : level_t => (queueIds l.2, l.2.*1)) <$> side is_bid b1 !! p
      = (fun l : level_t => (queueIds l.2, l.2.*1)) <$> side is_bid b !! p).
  { intros id q x trade r total queue b1 sim1 c Hl. unfold executeOrder.
    destruct (queue_find _ _) as [o|] eqn:Hf; [|done]. cbv zeta.
    destruct (processBookFill _ _ _ _) as [sim2| |];
      cbn [mbind outcome_bind]; [|done..].
    destruct (_ =? 0)%N; [done|]. intros [= <- _ _].
    split_and!; [done..|]. intros is_bid p.
    by rewrite (update_in_place r total _ queue o _ (stampTop ev b)). }
  assert (Hap : forall b1 sim1 c,
    applyPayload rev fuel ev (stampTop ev b) sim = Done (b1, sim1, c) ->
    order_map b1 = order_map b /\ next_handle b1 = next_handle b /\
    forall is_bid p,
      (fun l : level_t => (queueIds l.2, l.2.*1)) <$> side is_bid b1 !! p
      = (fun l : level_t => (queueIds l.2, l.2.*1)) <$> side is_bid b !! p).
  { intros b1 sim1 c. unfold applyPayload.
    destruct (payload ev)
      as [px id q ib | id | px orig new q | id q | id q | id q x | id q x px
          | | ]; try done.
    - destruct (order_map _ !! id) as [r|]; [|by intros [= <- _ _]].
      destruct (side _ _ !! _) as [[total queue]|] eqn:Hl;
        [|by intros [= <- _ _]].
      destruct (queue_find _ _) as [o|] eqn:Hf; [|done].
      intros [= <- _ _]. split_and!; [done..|]. intros is_bid p.
      by rewrite (update_in_place r total _ queue o _ (stampTop ev b)).
    - destruct (order_map _ !! id) as [r|]; [|by intros [= <- _ _]].
      destruct (side _ _ !! _) as [[total queue]|] eqn:Hl;
        [|by intros [= <- _ _]].
      destruct (queue_find _ _) as [o|] eqn:Hf; [|done]. cbv zeta.
      destruct (_ =? 0)%N; [done|].
      intros [= <- _ _]. split_and!; [done..|]. intros is_bid p.
      by rewrite (update_in_place r total _ queue o _ (stampTop ev b)).
    - destruct (order_map _ !! id) as [r|]; [|by intros [= <- _ _]].
      destruct (side _ _ !! _) as [[total queue]|] eqn:Hl;
        [|by intros [= <- _ _]].
      by apply Hex.
    - destruct (order_map _ !! id) as [r|]; [|by intros [= <- _ _]].
      destruct (side _ _ !! _) as [[total queue]|] eqn:Hl;
        [|by intros [= <- _ _]].
      by apply Hex. }
  unfold processBookEvent.
  destruct (applyPayload _ _ _ _ _) as [[[b1 sim1] c]| |] eqn:Ha;
    cbn [mbind outcome_bind]; [|done..].
  pose proof (Hap _ _ _ eq_refl) as Hb1. destruct c.
  - destruct (processBookTop _ _ _ _) as [sim2| |];
      cbn [mbind outcome_bind]; [|done..].
    intros [= <- _]. exact Hb1.
  - intros [= <- _]. exact Hb1.
Qed.

End QueuePosition.

Lemma in_place_events_keep_queue_order_witness :
  let evs := [Examples.mkEvent 1000000 (add_order 99 1 5 true);
              Examples.mkEvent 1000001 (add_order 99 2 7 true)] in
  let ev := Examples.mkEvent 1000002 (amend_order 1 50) in
  exists b' sim',
    processBookEvent QueueRevision 1 ev (Examples.afterEvents evs)
      = Done (b', sim') /\
    (fun l : level_t => queueIds l.2) <$> bid_book b' !! 99 = Some [1; 2]%N /\
    fst <$> bid_book b' !! 99 = Some 57%N.
Proof.
  intros evs ev.
  destruct (processBookEvent QueueRevision 1 ev (Examples.afterEvents evs))
    as [[b' sim']| |] eqn:Hrun; [|vm_compute in Hrun; discriminate Hrun..].
  exists b', sim'. split; [reflexivity|].
  rewrite (surjective_pairing (Examples.afterEvents evs)) in Hrun.
  destruct (in_place_events_keep_queue_order QueueRevision 1 ev _ _ _ _
              eq_refl Hrun) as (_ & _ & Hq).
  specialize (Hq true 99). simpl in Hq. split.
  - apply (f_equal (fmap fst)) in Hq. rewrite <- !option_fmap_compose in Hq.
    etrans; [exact Hq|]. vm_compute. reflexivity.
  - vm_compute in Hrun. injection Hrun as <- _. vm_compute. reflexivity.
Defined.


(** * Properties of [BasicStrategy] *)

Lemma filter_all {A} (P : A -> Prop) `{!forall x, Decision (P x)} (l : list A) :
  (forall x, P x) -> filter P l = l.
Proof.
  intros HP. induction l as [|x l IH]; [done|].
  rewrite filter_cons_True by done. by f_equal.
Qed.

Lemma filter_all_in {A} (P : A -> Prop) `{!forall x, Decision (P x)}
    (l : list A) :
  (forall x, x ∈ l -> P x) -> filter P l = l.
Proof.
  intros HP. induction l as [|x l IH]; [done|].
  rewrite filter_cons_True by (apply HP; by left).
  f_equal. apply IH. intros y Hy. apply HP. by right.
Qed.

Lemma filter_ext_in {A} (P Q : A -> Prop) `{!forall x, Decision (P x)}
    `{!forall x, Decision (Q x)} (l : list A) :
  (forall x, x ∈ l -> P x <-> Q x) -> filter P l = filter Q l.
Proof.
  induction l as [|x l IH]; [done|]. intros Hext.
  rewrite !filter_cons.
  rewrite IH by (intros y Hy; apply Hext; by right).
  destruct (decide (P x)) as [HP|HP], (decide (Q x)) as [HQ|HQ]; try done.
  - destruct HQ. apply Hext; [by left|done].
  - destruct HP. apply Hext; [by left|done].
Qed.

Lemma call_basic expiry dflt (c : Callback) (st : BasicStrategy.State) :
  call (Strategy0 := BasicStrategy.strategy expiry dflt) c st =
    match c with
    | CallBookTop bookTop =>
        BasicStrategy.onBookTopUpdate expiry dflt bookTop st
    | CallFill fill => BasicStrategy.onFill fill st
    | CallOrderFilled id px q b => BasicStrategy.onOrderFilled id px q b st
    end.
Proof. by destruct c. Qed.

Section BasicStrategyFacts.
Import BasicStrategy.
Variable ORDER_EXPIRY_TIME_NS : N.
Variable defaultAction : OrderAction.
Implicit Type st : State.

Lemma sameCounters_refl st : sameCounters st st.
Proof. done. Qed.

Lemma sameCounters_trans st1 st2 st3 :
  sameCounters st1 st2 -> sameCounters st2 st3 -> sameCounters st1 st3.
Proof. unfold sameCounters. intros (-> & -> & -> & ->). done. Qed.

Lemma sameCounters_untrack id isBid st : sameCounters st (untrack id isBid st).
Proof. unfold untrack. by repeat case_match. Qed.

Lemma sameCounters_removeOrder id st : sameCounters st (removeOrder id st).
Proof. unfold removeOrder. by repeat case_match. Qed.

Lemma activeOrders_untrack id isBid st :
  activeOrders_ (untrack id isBid st) = activeOrders_ st.
Proof. unfold untrack. by repeat case_match. Qed.

Lemma activeOrders_removeOrder id st :
  activeOrders_ (removeOrder id st)
    = filter (fun order => id = 0%N \/ b_orderId order <> id)
             (activeOrders_ st).
Proof.
  unfold removeOrder. destruct (N.eqb_spec id 0) as [->|Hne].
  - symmetry. apply filter_all. intros o. by left.
  - cbv zeta. transitivity
      (filter (fun order => b_orderId order <> id) (activeOrders_ st)).
    + by repeat case_match.
    + apply list_filter_iff. intros o. tauto.
Qed.

(** The first loop of [checkForStaleOrders]: it collects a CANCEL and the
    id for every expired order, in list order, and leaves the list alone. *)
Lemma staleStep_foldl now orders :
  forall actions ids st,
  exists st',
    foldl (staleStep ORDER_EXPIRY_TIME_NS defaultAction now)
          (actions, ids, st) orders
      = (actions
           ++ ((fun order => cancelAction defaultAction (b_orderId order) st)
                 <$> filter (fun o => expired ORDER_EXPIRY_TIME_NS now o)
                            orders),
         ids ++ (b_orderId
                   <$> filter (fun o => expired ORDER_EXPIRY_TIME_NS now o)
                              orders),
         st') /\
    activeOrders_ st' = activeOrders_ st /\ sameCounters st st'.
Proof.
  induction orders as [|order orders IH]; intros actions ids st; simpl.
  - exists st. by rewrite !app_nil_r.
  - rewrite filter_cons.
    destruct (expired _ now order) eqn:Hexp.
    + destruct (IH (actions ++ [cancelAction defaultAction (b_orderId order) st])
                   (ids ++ [b_orderId order])
                   (untrack (b_orderId order) (b_isBid order) st))
        as (st' & -> & Hact & Hc).
      exists st'. rewrite decide_True by done.
      rewrite !fmap_cons, <- !app_assoc. simpl.
      pose proof (sameCounters_untrack (b_orderId order) (b_isBid order) st)
        as Hu.
      split_and!.
      * match goal with |- context [?f <$> filter ?P orders] =>
          lazymatch f with
          | context [untrack] =>
              rewrite (list_fmap_ext f
                (fun order => cancelAction defaultAction (b_orderId order) st)
                (filter P orders))
          end
        end; [done|].
        intros _ o _. unfold cancelAction.
        destruct Hu as (_ & _ & _ & ->). done.
      * by rewrite Hact, activeOrders_untrack.
      * by eapply sameCounters_trans.
    + destruct (IH actions ids st) as (st' & -> & Hact & Hc).
      by exists st'.
Qed.

Lemma removeOrder_foldl ids :
  forall st,
    activeOrders_ (foldl (fun st id => removeOrder id st) st ids)
      = filter (fun order => b_orderId order = 0%N \/ b_orderId order ∉ ids)
               (activeOrders_ st) /\
    sameCounters st (foldl (fun st id => removeOrder id st) st ids).
Proof.
  induction ids as [|id ids IH]; intros st; simpl.
  - split; [|done]. symmetry. apply filter_all.
    intros o. right. apply not_elem_of_nil.
  - destruct (IH (removeOrder id st)) as [-> Hc]. split.
    + rewrite activeOrders_removeOrder, list_filter_filter.
      apply list_filter_iff. intros o. rewrite not_elem_of_cons.
      destruct (decide (b_orderId o = 0%N)) as [->|?];
        [|intuition congruence].
      split; [by left|]. intros _. split; [by left|].
      destruct (decide (id = 0%N)); [by left|by right].
    + eapply sameCounters_trans; [|exact Hc]. apply sameCounters_removeOrder.
Qed.

Lemma NoDup_fmap_inj_on {A B} (f : A -> B) (l : list A) x y :
  NoDup (f <$> l) -> x ∈ l -> y ∈ l -> f x = f y -> x = y.
Proof.
  induction l as [|z l IH]; [by intros _ ?%elem_of_nil|].
  rewrite fmap_cons, NoDup_cons, !elem_of_cons.
  intros [Hz Hnd] [->|Hx] [->|Hy] Heq; try done.
  - destruct Hz. rewrite Heq. by apply list_elem_of_fmap_2.
  - destruct Hz. rewrite <- Heq. by apply list_elem_of_fmap_2.
  - by apply IH.
Qed.

(** The two loops of [checkForStaleOrders] together. *)
Lemma checkForStaleOrders_result (now : N) st :
  let stale :=
    filter (fun o => expired ORDER_EXPIRY_TIME_NS now o) (activeOrders_ st) in
  let result :=
    checkForStaleOrders ORDER_EXPIRY_TIME_NS defaultAction now st in
  result.1
    = (fun o => cancelAction defaultAction (b_orderId o) st) <$> stale /\
  activeOrders_ result.2
    = filter (fun o => b_orderId o = 0%N \/ b_orderId o ∉ b_orderId <$> stale)
             (activeOrders_ st) /\
  sameCounters st result.2.
Proof.
  intros stale result. subst result stale. unfold checkForStaleOrders.
  destruct (activeOrders_ st) as [|order orders] eqn:Hnil.
  { simpl. split_and!; [done| |done]. by rewrite Hnil. }
  rewrite <- Hnil.
  destruct (staleStep_foldl now (activeOrders_ st) [] [] st)
    as (st' & -> & Hact & Hc).
  rewrite !app_nil_l. cbn [fst snd].
  destruct (removeOrder_foldl
              (b_orderId <$> filter (fun o => expired ORDER_EXPIRY_TIME_NS
                                                now o) (activeOrders_ st))
              st') as [-> Hc'].
  split_and!; [done|by rewrite Hact|by eapply sameCounters_trans].
Qed.

(** X15.  What [checkForStaleOrders] does, as a function of the list of
    orders the strategy holds.  It answers with one CANCEL for every order
    that is expired (created no later than the current time and at least
    [ORDER_EXPIRY_TIME_NS] before it), in list order, carrying the order's
    id and the strategy's symbol.  From its list it then drops every order
    whose id is one of the cancelled ids, except that an order with id 0 is
    never dropped; the others stay in their order.  The id counter, the
    side to quote next and the time of the last quote are untouched.  When
    the ids in the list are distinct and none is 0, the orders left are
    exactly the ones that are not expired. *)
Theorem stale_orders_are_cancelled (now : N) st :
  let stale :=
    filter (fun o => expired ORDER_EXPIRY_TIME_NS now o) (activeOrders_ st) in
  let result :=
    checkForStaleOrders ORDER_EXPIRY_TIME_NS defaultAction now st in
  result.1
    = (fun o => cancelAction defaultAction (b_orderId o) st) <$> stale /\
  activeOrders_ result.2
    = filter (fun o => b_orderId o = 0%N \/ b_orderId o ∉ b_orderId <$> stale)
             (activeOrders_ st) /\
  sameCounters st result.2 /\
  (NoDup (heldIds st) -> 0%N ∉ heldIds st ->
   activeOrders_ result.2
     = filter (fun o => ~ expired ORDER_EXPIRY_TIME_NS now o)
              (activeOrders_ st)).
Proof.
  intros stale result.
  destruct (checkForStaleOrders_result now st) as (Hacts & Hleft & Hsame).
  split_and!; [done..|].
  intros Hnd Hnz. subst result. rewrite Hleft.
  apply filter_ext_in. intros o Hin.
  assert (b_orderId o <> 0%N) as Hne.
  { intros Hz. apply Hnz. unfold heldIds. rewrite <- Hz.
    by apply list_elem_of_fmap_2. }
  split.
  - intros [?|Hno]; [done|]. intros Hexp. apply Hno.
    apply list_elem_of_fmap_2. apply list_elem_of_filter. by split.
  - intros Hexp. right. intros (o' & Heq & Ho')%list_elem_of_fmap.
    apply list_elem_of_filter in Ho' as [Hexp' Hin'].
    assert (o = o') as <-
      by (eapply (NoDup_fmap_inj_on b_orderId); eassumption).
    done.
Qed.

(** What one quote looks like, and what it does to the counters. *)
Lemma updateOrdersForBookTop_quote bookTop st :
  updateOrdersForBookTop bookTop st = ([], st) \/
  exists a st',
    updateOrdersForBookTop bookTop st = ([a], st') /\
    type a = ADD /\ orderId a = nextOrderId_ st /\
    symbolId a = symbolId_ st /\
    isBid a = placeBuyOrder st /\
    price a = (if placeBuyOrder st then bid_nanos (top_level bookTop)
               else ask_nanos (top_level bookTop)) /\
    quantity a = 1%N /\ isPostOnly a = false /\
    sent_ts a = ts bookTop /\ md_ts a = ts bookTop /\
    0 < bid_nanos (top_level bookTop) < ask_nanos (top_level bookTop) /\
    (bid_nanos (top_level bookTop) <> INT64_MAX /\
     ask_nanos (top_level bookTop) <> INT64_MAX) /\
    (10000 <= sub_u64 (ts bookTop) (lastOrderTime st))%N /\
    nextOrderId_ st' = add_u64 (nextOrderId_ st) 1 /\
    placeBuyOrder st' = negb (placeBuyOrder st) /\
    lastOrderTime st' = ts bookTop /\
    symbolId_ st' = symbolId_ st /\
    activeOrders_ st'
      = activeOrders_ st
          ++ [{| b_orderId := nextOrderId_ st; creationTime := ts bookTop;
                 b_price := price a; b_quantity := 1;
                 b_isBid := placeBuyOrder st |}].
Proof.
  unfold updateOrdersForBookTop. cbv zeta.
  destruct (Z.leb_spec (bid_nanos (top_level bookTop)) 0); [by left|].
  destruct (Z.leb_spec (ask_nanos (top_level bookTop)) 0); [by left|].
  destruct (Z.geb_spec (bid_nanos (top_level bookTop))
                       (ask_nanos (top_level bookTop))); [by left|].
  destruct (Z.eqb_spec (bid_nanos (top_level bookTop)) INT64_MAX);
    [by left|].
  destruct (Z.eqb_spec (ask_nanos (top_level bookTop)) INT64_MAX);
    [by left|].
  cbn [orb].
  destruct (N.ltb_spec (sub_u64 (ts bookTop) (lastOrderTime st)) 10000);
    [by left|].
  right. eexists _, _. split; [reflexivity|]. cbn.
  split_and!; try done; try lia.
Qed.

Lemma filter_isAdd_cancels (f : OrderInfo -> OrderAction) orders :
  (forall o, type (f o) = CANCEL) ->
  filter (fun a => isAdd a) (f <$> orders) = [].
Proof.
  intros Hf. induction orders as [|o orders IH]; [done|].
  rewrite fmap_cons, filter_cons_False; [done|].
  unfold isAdd. rewrite Hf. by intros [].
Qed.

(** One call: its actions are cancels and adds, with at most one add, and
    the add takes the next id and the side whose turn it is. *)
Lemma call_quote (c : Callback) st :
  let result :=
    call (Strategy0 := strategy ORDER_EXPIRY_TIME_NS defaultAction) c st in
  Forall (fun a => type a = CANCEL \/ type a = ADD) result.1 /\
  symbolId_ result.2 = symbolId_ st /\
  ((filter (fun a => isAdd a) result.1 = [] /\
    nextOrderId_ result.2 = nextOrderId_ st /\
    placeBuyOrder result.2 = placeBuyOrder st /\
    lastOrderTime result.2 = lastOrderTime st) \/
   (exists a,
      filter (fun a => isAdd a) result.1 = [a] /\
      orderId a = nextOrderId_ st /\ isBid a = placeBuyOrder st /\
      quantity a = 1%N /\ isPostOnly a = false /\ sent_ts a = md_ts a /\
      symbolId a = symbolId_ st /\
      0 < price a /\ price a <> INT64_MAX /\
      nextOrderId_ result.2 = add_u64 (nextOrderId_ st) 1 /\
      placeBuyOrder result.2 = negb (placeBuyOrder st) /\
      (10000 <= sub_u64 (sent_ts a) (lastOrderTime st))%N /\
      lastOrderTime result.2 = sent_ts a)).
Proof.
  intros result. subst result. rewrite call_basic.
  destruct c as [bookTop|fill|id px q b].
  - unfold onBookTopUpdate. cbv zeta.
    destruct (_ || _); [split_and!; [done..|by left]|].
    pose proof (checkForStaleOrders_result (ts bookTop) st)
      as (Hacts & _ & Hc).
    destruct (checkForStaleOrders _ _ _ _) as [cancels st1].
    cbn [fst snd] in Hacts, Hc. destruct Hc as (Hn & Hb & Hl & Hs).
    assert (Hcancels : Forall (fun a => type a = CANCEL \/ type a = ADD)
                         cancels).
    { rewrite Hacts. apply Forall_fmap, Forall_true. intros o. by left. }
    assert (Hnone : filter (fun a => isAdd a) cancels = []).
    { rewrite Hacts. by apply filter_isAdd_cancels. }
    destruct (updateOrdersForBookTop_quote bookTop st1)
      as [->|(a & st2 & -> & Hty & Hid & Hsym & Hside & Hpx & Hq & Hpo & Hst
              & Hmt & Hrange & Hmax & Hgap & Hn2 & Hb2 & Hl2 & Hs2 & _)].
    + cbn [fst snd]. rewrite app_nil_r. split_and!; [done..|by left].
    + cbn [fst snd]. split_and!.
      * apply Forall_app. split; [done|]. constructor; [by right|done].
      * congruence.
      * right. exists a. rewrite filter_app, Hnone, filter_cons_True
          by (unfold isAdd; by rewrite Hty).
        rewrite filter_nil. split_and!; try done; try congruence.
        -- rewrite Hpx. destruct (placeBuyOrder st1); lia.
        -- rewrite Hpx. by destruct (placeBuyOrder st1), Hmax.
  - cbn. split_and!; [done..|by left].
  - cbn. unfold onOrderFilled. destruct (_ =? 0)%N; cbn.
    { split_and!; [done..|by left]. }
    case_match; cbn.
    + pose proof (sameCounters_untrack id b st) as (? & ? & ? & ?).
      pose proof (sameCounters_removeOrder id (untrack id b st))
        as (? & ? & ? & ?).
      split_and!; [done|congruence|left; split_and!; [done|congruence..]].
    + pose proof (sameCounters_untrack id b st) as (? & ? & ? & ?).
      split_and!; [done|congruence|left; split_and!; [done|congruence..]].
Qed.

(** X16.  Whatever sequence of book tops, public fills and fill
    notifications a [BasicStrategy] is taken through, it answers with
    cancels and adds only, and its adds, in the order they are made, take
    consecutive order ids from its id counter on (counted in [uint64_t]),
    are a buy and a sell in turn from the side whose turn it is, and are
    each for one share, not post-only, with [sent_ts] equal to [md_ts],
    under the strategy's symbol, at a positive price other than
    [INT64_MAX].  Each add is stamped at least 10_000 ns after the one
    before it, the difference taken in [uint64_t]. *)
Theorem basic_strategy_quotes_in_turn (cs : list Callback) st :
  let actions :=
    (callAll (Strategy0 := strategy ORDER_EXPIRY_TIME_NS defaultAction)
             cs st).1 in
  let new := filter (fun a => isAdd a) actions in
  Forall (fun a => type a = CANCEL \/ type a = ADD) actions /\
  orderId <$> new = idsFrom (nextOrderId_ st) (length new) /\
  isBid <$> new = sidesFrom (placeBuyOrder st) (length new) /\
  Forall (fun a => quantity a = 1%N /\ isPostOnly a = false /\
                   sent_ts a = md_ts a /\ symbolId a = symbolId_ st /\
                   0 < price a /\ price a <> INT64_MAX) new /\
  spaced (lastOrderTime st) new.
Proof.
  cbv zeta. revert st. induction cs as [|c cs IH]; intros st.
  { simpl. by split_and!. }
  cbn [callAll].
  pose proof (call_quote c st) as Hc. cbv zeta in Hc.
  destruct (call c st) as [actions st1]. cbn [fst snd] in Hc.
  specialize (IH st1).
  destruct (callAll cs st1) as [more st2]. cbn [fst snd] in IH |- *.
  destruct Hc as (Hty & Hsym & Hadd).
  destruct IH as (IHty & IHid & IHside & IHshape & IHgap).
  rewrite filter_app, length_app, !fmap_app. rewrite Hsym in IHshape.
  destruct Hadd as [(-> & Hn & Hb & Hl)
                   |(a & -> & Hid & Hside & Hq & Hpo & Hts & Hs & Hpx & Hmax
                     & Hn & Hb & Hgap & Hl)].
  - rewrite Hn in IHid. rewrite Hb in IHside. rewrite Hl in IHgap.
    split_and!; try done. by apply Forall_app.
  - rewrite Hn in IHid. rewrite Hb in IHside. rewrite Hl in IHgap. cbn.
    split_and!.
    + by apply Forall_app.
    + by rewrite Hid, IHid.
    + by rewrite Hside, IHside.
    + by constructor.
    + done.
    + done.
Qed.

End BasicStrategyFacts.

(** ** The strategy's orders and the simulator's *)

Lemma Forall_filter_sub {A} (P Q : A -> Prop) `{!forall x, Decision (P x)}
    (l : list A) :
  Forall Q l -> Forall Q (filter P l).
Proof.
  rewrite !Forall_forall. intros HQ x [_ Hx]%list_elem_of_filter. auto.
Qed.

Lemma heldIds_remaining (C : list N) (orders : list BasicStrategy.OrderInfo) :
  Forall (fun id => id <> 0%N) (BasicStrategy.b_orderId <$> orders) ->
  BasicStrategy.b_orderId
    <$> filter (fun o => BasicStrategy.b_orderId o = 0%N
                         \/ BasicStrategy.b_orderId o ∉ C) orders
  = filter (fun id => id ∉ C) (BasicStrategy.b_orderId <$> orders).
Proof.
  induction orders as [|o orders IH]; [done|].
  rewrite fmap_cons, Forall_cons. intros [Ho Hnz].
  rewrite !filter_cons, <- (IH Hnz).
  destruct (decide (BasicStrategy.b_orderId o ∉ C)) as [Hin|Hin].
  - by rewrite decide_True by (by right).
  - rewrite decide_False; [done|]. by intros [?|?].
Qed.

Section StrategyStep.
Variable ORDER_EXPIRY_TIME_NS : N.
Variable defaultAction : OrderAction.
Implicit Type st : BasicStrategy.State.

(** One book top, seen from the strategy's list of ids: the cancelled ids
    leave it, and the id counter joins it when a quote is made. *)
Lemma onBookTopUpdate_ids bookTop st :
  wellKept st ->
  (BasicStrategy.nextOrderId_ st + 1 < UINT64_MOD)%N ->
  exists cancels news st',
    BasicStrategy.onBookTopUpdate ORDER_EXPIRY_TIME_NS defaultAction bookTop st
      = (cancels ++ news, st') /\
    Forall (fun a => type a = CANCEL) cancels /\
    wellKept st' /\
    ((news = [] /\
      BasicStrategy.nextOrderId_ st' = BasicStrategy.nextOrderId_ st /\
      heldIds st' = filter (fun id => id ∉ orderId <$> cancels) (heldIds st))
     \/
     (exists a,
        news = [a] /\ type a = ADD /\ quantity a = 1%N /\
        isPostOnly a = false /\
        orderId a = BasicStrategy.nextOrderId_ st /\
        (orderId a ∉ heldIds st) /\
        0 < bid_nanos (top_level bookTop) < ask_nanos (top_level bookTop) /\
        price a = (if isBid a then bid_nanos (top_level bookTop)
                   else ask_nanos (top_level bookTop)) /\
        BasicStrategy.nextOrderId_ st'
          = (BasicStrategy.nextOrderId_ st + 1)%N /\
        heldIds st'
          = filter (fun id => id ∉ orderId <$> cancels) (heldIds st)
              ++ [orderId a])).
Proof.
  intros (Hnd & Hpos & Hbound) Hmax.
  unfold BasicStrategy.onBookTopUpdate. cbv zeta.
  destruct (_ || _).
  { exists [], [], st. split_and!; [done..|]. left. split_and!; [done..|].
    symmetry. apply filter_all. intros id. simpl. apply not_elem_of_nil. }
  pose proof (checkForStaleOrders_result ORDER_EXPIRY_TIME_NS defaultAction
                (ts bookTop) st) as (Hacts & Hleft & Hc).
  destruct (BasicStrategy.checkForStaleOrders _ _ _ _) as [cancels st1].
  cbn [fst snd] in Hacts, Hleft, Hc.
  destruct Hc as (Hn & _ & _ & _).
  assert (Hcancel : Forall (fun a => type a = CANCEL) cancels).
  { rewrite Hacts. apply Forall_fmap, Forall_true. done. }
  assert (Hids : heldIds st1
            = filter (fun id => id ∉ orderId <$> cancels) (heldIds st)).
  { unfold heldIds. rewrite Hleft, Hacts, <- list_fmap_compose.
    apply heldIds_remaining.
    eapply Forall_impl; [exact Hbound|]. intros id. simpl. lia. }
  assert (Hkept1 : wellKept st1).
  { split_and!.
    - rewrite Hids. by apply NoDup_filter.
    - by rewrite Hn.
    - rewrite Hids, Hn. by apply Forall_filter_sub. }
  destruct (updateOrdersForBookTop_quote bookTop st1)
    as [->|(a & st2 & -> & Hty & Hid & _ & Hside & Hpx & Hq & Hpo & _ & _
            & Hrange & _ & _ & Hn2 & _ & _ & _ & Hact2)].
  - exists cancels, [], st1. split_and!; [done..|]. left. by rewrite Hn.
  - assert (Hfresh : BasicStrategy.nextOrderId_ st ∉ heldIds st).
    { intros Hin. rewrite Forall_forall in Hbound.
      specialize (Hbound _ Hin). lia. }
    assert (Hn2' : BasicStrategy.nextOrderId_ st2
                   = (BasicStrategy.nextOrderId_ st + 1)%N).
    { rewrite Hn2, Hn. unfold add_u64. by rewrite N.mod_small. }
    assert (Hids2 : heldIds st2 = heldIds st1 ++ [orderId a]).
    { unfold heldIds. rewrite Hact2, fmap_app. simpl. by rewrite Hid. }
    exists cancels, [a], st2. split_and!; [done..| |].
    + destruct Hkept1 as (Hnd1 & _ & Hb1). split_and!.
      * rewrite Hids2. apply NoDup_app.
        split_and!; [done| |apply NoDup_singleton].
        intros id Hin ->%list_elem_of_singleton.
        rewrite Forall_forall in Hb1. specialize (Hb1 _ Hin). lia.
      * lia.
      * rewrite Hids2, Hn2'. apply Forall_app. split.
        -- eapply Forall_impl; [exact Hb1|]. intros id. simpl. lia.
        -- constructor; [|done]. rewrite Hid, Hn. lia.
    + right. exists a. rewrite Hid, Hn in *. split_and!; try done; try lia.
      * by rewrite Hpx, Hside.
      * by rewrite Hids2, Hids.
Qed.

End StrategyStep.

Section Holding.
Context {SS : Type} `{!Strategy SS}.
Variable rev : Revision.
Implicit Type sim : FillSimulator SS.

Lemma holds_ext ids1 ids2 sim :
  (forall id, id ∈ ids1 <-> id ∈ ids2) -> holds ids1 sim -> holds ids2 sim.
Proof.
  intros Hext [Hin Hshape]. split; [|done]. intros id. by rewrite <- Hext.
Qed.

Lemma holds_same_orders ids sim sim' :
  activeOrders_ sim' = activeOrders_ sim -> holds ids sim -> holds ids sim'.
Proof. unfold holds. by intros ->. Qed.

Lemma holds_delete ids id sim sim' :
  activeOrders_ sim' = delete id (activeOrders_ sim) ->
  holds ids sim -> holds (filter (fun id' => id' <> id) ids) sim'.
Proof.
  intros Hdel [Hin Hshape]. unfold holds. rewrite Hdel. split.
  - intros id'. rewrite list_elem_of_filter, lookup_delete_is_Some, Hin.
    intuition congruence.
  - intros id' order [_ Hl]%lookup_delete_Some. eauto.
Qed.

Lemma holds_insert ids (a : OrderAction) sim sim' :
  activeOrders_ sim'
    = <[orderId a := orderOfAction a]> (activeOrders_ sim) ->
  quantity a = 1%N ->
  holds ids sim -> holds (ids ++ [orderId a]) sim'.
Proof.
  intros Hins Hq [Hin Hshape]. unfold holds. rewrite Hins. split.
  - intros id'. rewrite elem_of_app, list_elem_of_singleton,
      lookup_insert_is_Some, Hin.
    destruct (decide (orderId a = id')); intuition congruence.
  - intros id' order [[<- <-]|[_ Hl]]%lookup_insert_Some; [done|eauto].
Qed.

(** A CANCEL, as [processAction] carries it out. *)
Lemma holds_cancel fuel (a : OrderAction) bookTop ids sim :
  type a = CANCEL -> holds ids sim ->
  exists sim',
    processAction rev (S fuel) a bookTop sim = Done sim' /\
    holds (filter (fun id => id <> orderId a) ids) sim' /\
    strategy_ sim' = strategy_ sim /\ marketState_ sim' = marketState_ sim /\
    lastProcessedTime sim' = lastProcessedTime sim.
Proof.
  intros Hty Hh. rewrite processAction_step. cbv zeta.
  unfold noteCrossing. rewrite Hty. eexists. split; [reflexivity|].
  unfold cancelOrder.
  destruct (activeOrders_ sim !! orderId a) as [order|] eqn:Hl.
  - split_and!; [|done..]. by eapply holds_delete.
  - split_and!; [|done..]. eapply holds_ext; [|exact Hh].
    intros id. rewrite list_elem_of_filter. split; [|tauto].
    intros Hin. split; [|done]. intros ->.
    apply (proj1 Hh) in Hin. rewrite Hl in Hin. by destruct Hin.
Qed.

Lemma holds_submit_cancels fuel t bookTop cancels :
  Forall (fun a => type a = CANCEL) cancels ->
  forall ids sim,
    holds ids sim ->
    exists sim',
      submitWith (processAction rev (S fuel)) t bookTop cancels sim
        = Done sim' /\
      holds (filter (fun id => id ∉ orderId <$> cancels) ids) sim' /\
      strategy_ sim' = strategy_ sim /\
      marketState_ sim' = marketState_ sim /\
      lastProcessedTime sim' = lastProcessedTime sim.
Proof.
  induction 1 as [|a cancels Hty Hall IH]; intros ids sim Hh.
  - exists sim. split_and!; try done. eapply holds_ext; [|exact Hh].
    intros id. rewrite list_elem_of_filter. split; [|tauto].
    intros Hin. split; [apply not_elem_of_nil|done].
  - cbn [submitWith].
    destruct (holds_cancel fuel (delayAction sim t a) bookTop ids
                (noteStrategyToExchange sim) Hty)
      as (sim1 & -> & Hh1 & Hs1 & Hm1 & Hl1).
    { by eapply holds_same_orders. }
    cbn [mbind outcome_bind].
    destruct (IH _ _ Hh1) as (sim2 & -> & Hh2 & Hs2 & Hm2 & Hl2).
    simpl in Hs1, Hm1, Hl1.
    exists sim2. split_and!; [done| |congruence..].
    eapply holds_ext; [|exact Hh2]. intros id.
    rewrite !list_elem_of_filter, fmap_cons, not_elem_of_cons. simpl.
    tauto.
Qed.

(** A price at the touch of its own side does not cross a top whose bid is
    below its ask. *)
Lemma quote_at_touch_rests id (b : bool) (q : N) sim :
  let top := top_level (lastBookTop (marketState_ sim)) in
  bid_nanos top < ask_nanos top ->
  (wouldOrderBeFilled id b (if b then bid_nanos top else ask_nanos top) q
                      sim).1 = false.
Proof.
  intros top Hlt. unfold wouldOrderBeFilled. fold top.
  destruct (_ || _); [done|]. destruct b.
  - destruct (_ || _); [done|].
    destruct (Z.geb_spec (bid_nanos top) (ask_nanos top)); [lia|done].
  - destruct (_ || _); [done|].
    destruct (Z.leb_spec (ask_nanos top) (bid_nanos top)); [lia|done].
Qed.

(** An ADD that does not cross, as [processAction] carries it out. *)
Lemma holds_add fuel (a : OrderAction) bookTop ids sim :
  type a = ADD -> quantity a = 1%N ->
  (wouldOrderBeFilled (orderId a) (isBid a) (price a) (quantity a) sim).1
    = false ->
  holds ids sim ->
  exists sim',
    processAction rev (S fuel) a bookTop sim = Done sim' /\
    holds (ids ++ [orderId a]) sim' /\
    strategy_ sim' = strategy_ sim /\ marketState_ sim' = marketState_ sim /\
    lastProcessedTime sim' = lastProcessedTime sim.
Proof.
  intros Hty Hq Hno Hh. rewrite processAction_add by done. cbv zeta.
  rewrite Hno. eexists. split; [reflexivity|].
  assert (Hnc : noteCrossing a sim = sim).
  { unfold noteCrossing. rewrite Hty, wouldOrderBeFilled_eta, Hno. done. }
  rewrite Hnc. split_and!; [|done..].
  by eapply holds_insert.
Qed.

End Holding.

Lemma submitWith_app {SS : Type} `{!Strategy SS}
    (process : OrderAction -> book_top_t -> FillSimulator SS ->
               Outcome (FillSimulator SS))
    (t : N) (bookTop : book_top_t) (l1 l2 : list OrderAction) :
  forall sim,
    submitWith process t bookTop (l1 ++ l2) sim
      = (sim' ← submitWith process t bookTop l1 sim;
         submitWith process t bookTop l2 sim').
Proof.
  induction l1 as [|a l1 IH]; intros sim; [done|].
  cbn [app submitWith].
  destruct (process _ _ _) as [sim1| |]; cbn [mbind outcome_bind]; [|done..].
  apply IH.
Qed.

Lemma heldIds_without (id : N) (orders : list BasicStrategy.OrderInfo) :
  id <> 0%N ->
  BasicStrategy.b_orderId
    <$> filter (fun o => id = 0%N \/ BasicStrategy.b_orderId o <> id) orders
  = filter (fun id' => id' <> id) (BasicStrategy.b_orderId <$> orders).
Proof.
  intros Hid. induction orders as [|o orders IH]; [done|].
  rewrite fmap_cons, !filter_cons, <- IH.
  destruct (decide (BasicStrategy.b_orderId o <> id)) as [Hne|Heq].
  - by rewrite decide_True by (by right).
  - rewrite decide_False; [done|]. by intros [?|?].
Qed.

(** [onOrderFilled], seen from the strategy's list of ids. *)
Lemma onOrderFilled_ids id px q b (st : BasicStrategy.State) :
  id <> 0%N ->
  exists st',
    BasicStrategy.onOrderFilled id px q b st = ([], st') /\
    sameCounters st st' /\
    heldIds st' = filter (fun id' => id' <> id) (heldIds st).
Proof.
  intros Hid. unfold BasicStrategy.onOrderFilled.
  destruct (N.eqb_spec id 0) as [?|_]; [done|]. cbv zeta.
  pose proof (sameCounters_untrack id b st) as Hu.
  pose proof (activeOrders_untrack id b st) as Ha.
  destruct (bool_decide _) eqn:Hex.
  - eexists. split; [reflexivity|]. split.
    + eapply sameCounters_trans; [exact Hu|]. apply sameCounters_removeOrder.
    + unfold heldIds. rewrite activeOrders_removeOrder, Ha.
      by apply heldIds_without.
  - eexists. split; [reflexivity|]. split; [done|].
    unfold heldIds. rewrite Ha. symmetry. apply filter_all_in.
    intros id' (o & -> & Ho)%list_elem_of_fmap Heq.
    apply bool_decide_eq_false in Hex. apply Hex.
    rewrite Ha. apply Exists_exists. eauto.
Qed.

Lemma wellKept_without id (st st' : BasicStrategy.State) :
  wellKept st -> sameCounters st st' ->
  heldIds st' = filter (fun id' => id' <> id) (heldIds st) ->
  wellKept st'.
Proof.
  intros (Hnd & Hpos & Hb) (Hn & _) Hids. unfold wellKept.
  rewrite Hids, Hn. split_and!; [by apply NoDup_filter|done|].
  by apply Forall_filter_sub.
Qed.

Section Mirror.
Variable ORDER_EXPIRY_TIME_NS : N.
Variable defaultAction : OrderAction.
Variable rev : Revision.
Let basic : Strategy BasicStrategy.State :=
  BasicStrategy.strategy ORDER_EXPIRY_TIME_NS defaultAction.
#[local] Existing Instance basic.
Implicit Type sim : FillSimulator BasicStrategy.State.

Lemma basic_onOrderFilled id px q b st :
  onOrderFilled id px q b st = BasicStrategy.onOrderFilled id px q b st.
Proof. reflexivity. Qed.

Lemma basic_onBookTopUpdate bookTop st :
  onBookTopUpdate bookTop st
    = BasicStrategy.onBookTopUpdate ORDER_EXPIRY_TIME_NS defaultAction
        bookTop st.
Proof. reflexivity. Qed.

Lemma basic_onFill fill (st : BasicStrategy.State) :
  onFill fill st = ([], st).
Proof. reflexivity. Qed.

(** The fill of a whole order of one share: the order leaves the simulator
    and the strategy's list together. *)
Lemma mirrored_processFill fuel id px b t sim :
  mirrored sim ->
  exists sim',
    processFill rev (S fuel) id px 1 b t sim = Done sim' /\
    mirrored sim' /\ undisturbed sim sim'.
Proof.
  intros [Hk Hh]. rewrite processFill_step.
  destruct (bookFill rev id px 1 b t sim) as [[t' sim1]|] eqn:Hb.
  2:{ exists sim. by split_and!. }
  assert (Hsim1 : activeOrders_ sim1 = delete id (activeOrders_ sim) /\
                  strategy_ sim1 = strategy_ sim /\
                  marketState_ sim1 = marketState_ sim /\
                  lastProcessedTime sim1 = lastProcessedTime sim /\
                  id ∈ heldIds (strategy_ sim)).
  { unfold bookFill in Hb.
    destruct (activeOrders_ sim !! id) as [order|] eqn:Hl; [|done].
    destruct (_ || _); [done|].
    destruct (proj2 Hh _ _ Hl) as (Hid & Hq & Hf).
    injection Hb as _ <-. cbn. rewrite Hq, Hf. split_and!; try done.
    apply Hh. by rewrite Hl. }
  destruct Hsim1 as (Ho1 & Hs1 & Hm1 & Hl1 & Hin).
  assert (Hne : id <> 0%N).
  { destruct Hk as (_ & _ & Hbd). rewrite Forall_forall in Hbd.
    specialize (Hbd _ Hin). lia. }
  cbv zeta. rewrite basic_onOrderFilled, Hs1.
  destruct (onOrderFilled_ids id px 1 b (strategy_ sim) Hne)
    as (st' & -> & Hc & Hids).
  cbn [submitWith]. eexists. split; [reflexivity|]. cbn [fst snd]. split.
  - split; cbn [strategy_ set_strategy].
    + by eapply wellKept_without.
    + rewrite Hids. eapply holds_delete; [|exact Hh]. exact Ho1.
  - destruct Hc as (Hn & _). by split_and!.
Qed.

Lemma undisturbed_refl sim : undisturbed sim sim.
Proof. done. Qed.

Lemma undisturbed_trans sim1 sim2 sim3 :
  undisturbed sim1 sim2 -> undisturbed sim2 sim3 -> undisturbed sim1 sim3.
Proof. unfold undisturbed. intros (-> & -> & ->) (-> & -> & ->). done. Qed.

Lemma mirrored_reevaluate fuel bookTop ids :
  forall sim,
    mirrored sim ->
    exists sim',
      reevaluate rev (S fuel) bookTop ids sim = Done sim' /\
      mirrored sim' /\ undisturbed sim sim'.
Proof.
  induction ids as [|id ids IH]; intros sim Hm.
  { exists sim. by split_and!. }
  cbn [reevaluate].
  destruct (activeOrders_ sim !! id) as [order|] eqn:Hl; [|by apply IH].
  destruct (proj2 (proj2 Hm) _ _ Hl) as (Hid & Hq & Hf).
  rewrite wouldOrderBeFilled_eta.
  destruct (wouldOrderBeFilled _ _ _ _ _).1; [|by apply IH].
  rewrite Hq, Hf.
  change (sub_u32 1 0) with 1%N.
  destruct (mirrored_processFill fuel (o_orderId order)
              (opposingPrice (o_isBid order) bookTop) (o_isBid order)
              (applyExchangeLatency sim (o_md_ts order)) sim Hm)
    as (sim1 & -> & Hm1 & Hs1).
  cbn [mbind outcome_bind].
  destruct (IH sim1 Hm1) as (sim2 & -> & Hm2 & Hs2).
  exists sim2. split_and!; [done..|]. by eapply undisturbed_trans.
Qed.

Lemma mirrored_processBookFill fuel fill sim :
  mirrored sim ->
  exists sim',
    processBookFill rev (S fuel) fill sim = Done sim' /\
    mirrored sim' /\
    BasicStrategy.nextOrderId_ (strategy_ sim')
      = BasicStrategy.nextOrderId_ (strategy_ sim).
Proof.
  intros Hm. unfold processBookFill. cbv zeta. rewrite basic_onFill.
  cbn [submitWith]. eexists. split; [reflexivity|]. by split.
Qed.

Lemma mirrored_processBookTop fuel bookTop sim :
  mirrored sim ->
  (BasicStrategy.nextOrderId_ (strategy_ sim) + 1 < UINT64_MOD)%N ->
  exists sim',
    processBookTop rev (S fuel) bookTop sim = Done sim' /\
    mirrored sim' /\
    (BasicStrategy.nextOrderId_ (strategy_ sim')
       <= BasicStrategy.nextOrderId_ (strategy_ sim) + 1)%N.
Proof.
  intros [Hk Hh] Hmax. unfold processBookTop.
  destruct (tooSoon _ _).
  { exists sim. split_and!; [done..|lia]. }
  destruct (invalidBookTop _ _).
  { exists sim. split_and!; [done..|lia]. }
  unfold deliverBookTop. cbv zeta.
  set (sim0 := noteMdEvent (acceptBookTop bookTop sim)).
  set (delayed := with_ts _ bookTop).
  rewrite basic_onBookTopUpdate.
  change (strategy_ sim0) with (strategy_ sim).
  destruct (onBookTopUpdate_ids ORDER_EXPIRY_TIME_NS defaultAction delayed
              (strategy_ sim) Hk Hmax)
    as (cancels & news & st' & -> & Hcancel & Hk' & Hnews).
  rewrite submitWith_app.
  assert (Hh0 : holds (heldIds (strategy_ sim)) (set_strategy st' sim0)).
  { by eapply holds_same_orders. }
  destruct (holds_submit_cancels rev fuel (ts delayed) bookTop cancels
              Hcancel _ _ Hh0) as (sim1 & -> & Hh1 & Hs1 & Hm1 & Hl1).
  cbn [mbind outcome_bind].
  assert (Hsub : exists sim2,
    submitWith (processAction rev (S fuel)) (ts delayed) bookTop news sim1
      = Done sim2 /\
    mirrored sim2 /\
    (BasicStrategy.nextOrderId_ (strategy_ sim2)
       <= BasicStrategy.nextOrderId_ (strategy_ sim) + 1)%N).
  { destruct Hnews as [(-> & Hn & Hids)
                      |(a & -> & Hty & Hq & Hpo & Hid & Hfresh & Hrange
                        & Hpx & Hn & Hids)].
    - exists sim1. split; [done|]. cbn [strategy_ set_strategy] in Hs1.
      split.
      + split; rewrite Hs1; [done|]. by rewrite Hids.
      + rewrite Hs1, Hn. lia.
    - cbn [submitWith].
      destruct (holds_add rev fuel (delayAction sim1 (ts delayed) a) bookTop
                  (filter (fun id => id ∉ orderId <$> cancels)
                          (heldIds (strategy_ sim)))
                  (noteStrategyToExchange sim1) Hty Hq)
        as (sim2 & -> & Hh2 & Hs2 & Hm2 & Hl2).
      + cbn [orderId isBid price quantity delayAction]. rewrite Hpx.
        rewrite (wouldOrderBeFilled_market _ _ _ _ _ (acceptBookTop bookTop sim))
          by (cbn [marketState_ noteStrategyToExchange set_latencyStats];
              rewrite Hm1; reflexivity).
        apply (quote_at_touch_rests (orderId a) (isBid a) (quantity a)
                 (acceptBookTop bookTop sim)).
        cbn. cbn in Hrange. lia.
      + eapply holds_same_orders; [|exact Hh1]. done.
      + cbn [mbind outcome_bind]. exists sim2. split; [done|].
        cbn [strategy_ set_strategy noteStrategyToExchange set_latencyStats]
          in Hs1, Hs2.
        split.
        * split; rewrite Hs2, Hs1; [done|]. by rewrite Hids.
        * rewrite Hs2, Hs1, Hn. lia. }
  destruct Hsub as (sim2 & -> & Hm2 & Hn2).
  cbn [mbind outcome_bind].
  destruct (mirrored_reevaluate fuel bookTop
              (map_to_list (activeOrders_ sim2)).*1 sim2 Hm2)
    as (sim3 & -> & Hm3 & Hn3 & _).
  exists sim3. split_and!; [done..|]. rewrite Hn3. exact Hn2.
Qed.

Lemma mirrored_applyPayload fuel ev b sim b' sim' c :
  mirrored sim ->
  applyPayload rev (S fuel) ev b sim = Done (b', sim', c) ->
  mirrored sim' /\
  BasicStrategy.nextOrderId_ (strategy_ sim')
    = BasicStrategy.nextOrderId_ (strategy_ sim).
Proof.
  intros Hm.
  assert (Hex : forall id q x trade r total queue,
    executeOrder rev (S fuel) ev id q x trade r total queue b sim
      = Done (b', sim', c) ->
    mirrored sim' /\
    BasicStrategy.nextOrderId_ (strategy_ sim')
      = BasicStrategy.nextOrderId_ (strategy_ sim)).
  { intros id q x trade r total queue. unfold executeOrder.
    destruct (queue_find _ _) as [o|]; [|done]. cbv zeta.
    destruct (mirrored_processBookFill fuel
                (executionFill ev id q x (default (ref_price r) trade) r o
                               total b) sim Hm) as (sim1 & -> & Hm1 & Hn1).
    cbn [mbind outcome_bind]. destruct (_ =? 0)%N; [done|].
    by intros [= _ <- _]. }
  unfold applyPayload.
  destruct (payload ev)
    as [px id q ib | id | px orig new q | id q | id q | id q x | id q x px
        | | ].
  - destruct (insertOrder _ _ _ _ _ _) as [b1 c1]. by intros [= _ <- _].
  - destruct (order_map b !! id) as [r|]; [|by intros [= _ <- _]].
    destruct (removeOrder _ _ _) as [[b1 c1]| |];
      cbn [mbind outcome_bind]; [|done..].
    by intros [= _ <- _].
  - destruct (order_map b !! orig) as [r|].
    + by destruct (removeOrder _ _ _) as [[b1 c1]| |].
    + destruct (insertOrder _ _ _ _ _ _) as [b1 c1]. by intros [= _ <- _].
  - destruct (order_map b !! id) as [r|]; [|by intros [= _ <- _]].
    destruct (side _ _ !! _) as [[total queue]|]; [|by intros [= _ <- _]].
    destruct (queue_find _ _) as [o|]; [|done]. by intros [= _ <- _].
  - destruct (order_map b !! id) as [r|]; [|by intros [= _ <- _]].
    destruct (side _ _ !! _) as [[total queue]|]; [|by intros [= _ <- _]].
    destruct (queue_find _ _) as [o|]; [|done]. cbv zeta.
    destruct (_ =? 0)%N; [done|]. by intros [= _ <- _].
  - destruct (order_map b !! id) as [r|]; [|by intros [= _ <- _]].
    destruct (side _ _ !! _) as [[total queue]|]; [|by intros [= _ <- _]].
    apply Hex.
  - destruct (order_map b !! id) as [r|]; [|by intros [= _ <- _]].
    destruct (side _ _ !! _) as [[total queue]|]; [|by intros [= _ <- _]].
    apply Hex.
  - by intros [= _ <- _].
  - by intros [= _ <- _].
Qed.

Lemma mirrored_processBookEvent fuel ev b sim b' sim' :
  mirrored sim ->
  (BasicStrategy.nextOrderId_ (strategy_ sim) + 1 < UINT64_MOD)%N ->
  processBookEvent rev (S fuel) ev (b, sim) = Done (b', sim') ->
  mirrored sim' /\
  (BasicStrategy.nextOrderId_ (strategy_ sim')
     <= BasicStrategy.nextOrderId_ (strategy_ sim) + 1)%N.
Proof.
  intros Hm Hmax. unfold processBookEvent.
  destruct (applyPayload _ _ _ _ _) as [[[b1 sim1] c]| |] eqn:Ha;
    cbn [mbind outcome_bind]; [|done..].
  apply mirrored_applyPayload in Ha as [Hm1 Hn1]; [|done].
  destruct c.
  - destruct (mirrored_processBookTop fuel (currentTop (updateTopLevels b1))
                sim1 Hm1) as (sim2 & -> & Hm2 & Hn2); [by rewrite Hn1|].
    cbn [mbind outcome_bind]. intros [= _ <-]. split; [done|].
    by rewrite <- Hn1.
  - intros [= _ <-]. split; [done|]. rewrite Hn1. lia.
Qed.

(** X17.  With [BasicStrategy] in the simulator, a run over tops and fills
    always returns, with any fuel above zero: the strategy answers a fill
    notification with no action, so the calls between [processAction] and
    [processFill] stop after one turn, and none of its actions is a
    REPLACE.  When the run returns, the orders the strategy holds in its
    list are the orders active in the simulator: the same ids, each once,
    none zero, each for one share with nothing filled.  A quote rests when
    it is made (it is at its own side of a top whose bid is below its ask),
    a cancel for an expired order removes it on both sides, and a fill of
    the one share removes it on both sides.  This is for a run of at most
    [n] events that stays within the [uint64_t] range of the id counter.
    A queue-mode run, when it returns, leaves the two in agreement as
    well. *)
Theorem basic_strategy_mirrors_simulator (fuel n : nat) sim :
  mirrored sim ->
  (BasicStrategy.nextOrderId_ (strategy_ sim) + N.of_nat n < UINT64_MOD)%N ->
  (forall evs : list MdEvent,
     (length evs <= n)%nat ->
     exists sim',
       dispatchAll rev (S fuel) evs sim = Done sim' /\
       mirrored sim' /\
       (BasicStrategy.nextOrderId_ (strategy_ sim')
          <= BasicStrategy.nextOrderId_ (strategy_ sim)
             + N.of_nat (length evs))%N) /\
  (forall (evs : list BookEvent) b b' sim',
     (length evs <= n)%nat ->
     runQueueSimulation rev (S fuel) evs (b, sim) = Done (b', sim') ->
     mirrored sim').
Proof.
  intros Hm Hmax. split.
  - intros evs. revert n sim Hm Hmax.
    induction evs as [|ev evs IH]; intros n sim Hm Hmax Hlen.
    { exists sim. split_and!; [done..|]. simpl. lia. }
    cbn [dispatchAll length] in *.
    assert (Hstep : exists sim1,
      dispatch rev (S fuel) ev sim = Done sim1 /\ mirrored sim1 /\
      (BasicStrategy.nextOrderId_ (strategy_ sim1)
         <= BasicStrategy.nextOrderId_ (strategy_ sim) + 1)%N).
    { destruct ev as [bookTop|fill]; cbn [dispatch].
      - apply mirrored_processBookTop; [done|lia].
      - destruct (mirrored_processBookFill fuel fill sim Hm)
          as (sim1 & -> & Hm1 & Hn1).
        exists sim1. split_and!; [done..|]. lia. }
    destruct Hstep as (sim1 & -> & Hm1 & Hn1). cbn [mbind outcome_bind].
    destruct (IH (pred n) sim1 Hm1) as (sim2 & -> & Hm2 & Hn2); [lia..|].
    exists sim2. split_and!; [done..|]. lia.
  - intros evs. revert n sim Hm Hmax.
    induction evs as [|ev evs IH]; intros n sim Hm Hmax b b' sim' Hlen.
    { by intros [= _ <-]. }
    change (runQueueSimulation rev (S fuel) (ev :: evs) (b, sim))
      with (st' ← processBookEvent rev (S fuel) ev (b, sim);
            runQueueSimulation rev (S fuel) evs st').
    destruct (processBookEvent _ _ _ _) as [[b1 sim1]| |] eqn:He;
      cbn [mbind outcome_bind]; [|done..].
    cbn [length] in Hlen.
    apply mirrored_processBookEvent in He as [Hm1 Hn1]; [|done|lia].
    apply (IH (pred n) sim1 Hm1); lia.
Qed.

End Mirror.

Lemma basic_strategy_mirrors_simulator_witness :
  let sim := newFillSimulator BasicStrategy.newBasicStrategy 1000 10000 in
  let evs := [TopEvent (Examples.mkTop 1000000 99 101);
              TopEvent (Examples.mkTop 1200000 97 99)] in
  exists sim',
    dispatchAll (Strategy0 := BasicStrategy.strategy 600000000000
                                (Examples.mkAction CANCEL 0 0 0 0 false false))
                QueueRevision 1 evs sim = Done sim' /\
    mirrored sim' /\
    heldIds (strategy_ sim') = [2%N] /\
    position_ sim' = 1.
Proof.
  intros sim evs.
  assert (Hm : mirrored sim).
  { split.
    - split_and!; [apply NoDup_nil_2|done|constructor].
    - split.
      + intros id. split; [by intros ?%elem_of_nil|].
        intros [o Ho]. destruct (lookup_empty_Some _ _ Ho).
      + intros id o Ho. destruct (lookup_empty_Some _ _ Ho). }
  destruct (basic_strategy_mirrors_simulator 600000000000
              (Examples.mkAction CANCEL 0 0 0 0 false false)
              QueueRevision 0 2 sim Hm ltac:(reflexivity)) as [Hrun _].
  destruct (Hrun evs ltac:(reflexivity)) as (sim' & Hdone & Hm' & _).
  exists sim'. split_and!; [exact Hdone|exact Hm'|..];
    vm_compute in Hdone; injection Hdone as <-; reflexivity.
Defined.

(** * The latency totals *)

Lemma paced_same_stats {SS} (sim sim' : FillSimulator SS) :
  latencyStats_ sim' = latencyStats_ sim ->
  strategyMdLatencyNs_ sim' = strategyMdLatencyNs_ sim ->
  exchangeLatencyNs_ sim' = exchangeLatencyNs_ sim ->
  keepsPace sim sim'.
Proof. unfold keepsPace, paced. by intros -> -> ->. Qed.

Lemma add_u64_multiple (k L : N) :
  add_u64 ((k * L) mod UINT64_MOD) L = (((k + 1) * L) mod UINT64_MOD)%N.
Proof.
  unfold add_u64. rewrite N.Div0.add_mod_idemp_l. f_equal. lia.
Qed.

Lemma add_u64_count (e L : N) :
  add_u64 ((e * L) mod UINT64_MOD) L
    = ((add_u64 e 1 * L) mod UINT64_MOD)%N.
Proof.
  rewrite add_u64_multiple. unfold add_u64.
  by rewrite N.Div0.mul_mod_idemp_l.
Qed.

Section Pace.
Context {SS : Type} `{!Strategy SS}.
Variable rev : Revision.
Implicit Type sim : FillSimulator SS.

Lemma keepsPace_notify sim : keepsPace sim (noteExchangeToNotification sim).
Proof.
  split_and!; [done..|]. intros (Hmd & Hse & [k Hen]).
  split_and!; [done..|]. exists (k + 1)%N. simpl. rewrite Hen.
  apply add_u64_multiple.
Qed.

Lemma keepsPace_submit sim : keepsPace sim (noteStrategyToExchange sim).
Proof.
  split_and!; [done..|]. intros (Hmd & [k Hse] & Hen).
  split_and!; [done| |done]. exists (k + 1)%N. simpl. rewrite Hse.
  apply add_u64_multiple.
Qed.

Lemma keepsPace_md sim : keepsPace sim (noteMdEvent sim).
Proof.
  split_and!; [done..|]. intros (Hmd & Hse & Hen).
  split_and!; [|done..]. simpl. rewrite Hmd. apply add_u64_count.
Qed.

Lemma keepsPace_bookFill id px q b t sim t' sim' :
  bookFill rev id px q b t sim = Some (t', sim') -> keepsPace sim sim'.
Proof.
  unfold bookFill. destruct (activeOrders_ sim !! id); [|done].
  destruct (_ || _); [done|]. intros [= _ <-].
  destruct (keepsPace_notify sim) as (_ & _ & Hp).
  split_and!; [done..|]. intros Hs. unfold paced in *. simpl in *.
  destruct (0 <? _)%N; [by apply Hp|done].
Qed.

(** X18.  Each of the three latency totals is a multiple of the configured
    latency it is made of, in [uint64_t]: the market-data total is the
    strategy latency times the count of market-data events, and the
    strategy-to-exchange and exchange-to-notification totals are multiples
    of the exchange latency.  This holds of a new simulator and every run
    keeps it; the two configured latencies never change. *)
Theorem latency_totals_are_multiples :
  (forall sim, reachable rev sim -> paced sim) /\
  (forall fuel evs sim sim',
     dispatchAll rev fuel evs sim = Done sim' -> keepsPace sim sim') /\
  (forall fuel evs b sim b' sim',
     runQueueSimulation rev fuel evs (b, sim) = Done (b', sim') ->
     keepsPace sim sim').
Proof.
  assert (Hside :
    (forall sim, keepsPace sim sim) /\
    (forall sim1 sim2 sim3,
       keepsPace sim1 sim2 -> keepsPace sim2 sim3 -> keepsPace sim1 sim3) /\
    (forall sim, keepsPace sim (noteExchangeToNotification sim)) /\
    (forall sim, keepsPace sim (noteStrategyToExchange sim)) /\
    (forall sim, keepsPace sim (noteMdEvent sim)) /\
    (forall strategy sim, keepsPace sim (set_strategy strategy sim)) /\
    (forall bookTop sim, keepsPace sim (acceptBookTop bookTop sim)) /\
    (forall action sim, keepsPace sim (placeOrder action sim)) /\
    (forall action sim, keepsPace sim (cancelPostOnly action sim)) /\
    (forall action sim, keepsPace sim (cancelOrder action sim)) /\
    (forall action order sim, keepsPace sim (replaceOrder action order sim)) /\
    (forall id px q b t sim t' sim',
       bookFill rev id px q b t sim = Some (t', sim') -> keepsPace sim sim')).
  { split_and!; try (intros; by apply paced_same_stats).
    - intros sim1 sim2 sim3 (Ha & Hb & H12) (Hc & Hd & H23).
      split_and!; [congruence..|auto].
    - apply keepsPace_notify.
    - apply keepsPace_submit.
    - apply keepsPace_md.
    - intros action sim. apply paced_same_stats; unfold cancelOrder;
        by destruct (activeOrders_ sim !! orderId action).
    - apply keepsPace_bookFill. }
  destruct Hside
    as (H1 & H2 & H3 & H4 & H5 & H6 & H7 & H8 & H9 & H10 & H11 & H12).
  split_and!.
  - induction 1 as [strategy md exch | fuel bookTop sim sim' _ IH Hrun
                   | fuel fill sim sim' _ IH Hrun
                   | fuel action bookTop sim sim' _ IH Ha Hrun].
    + unfold paced. simpl. split_and!; [done|by exists 0%N..].
    + by apply (step_processBookTop rev keepsPace H1 H2 H3 H4 H5 H6 H7 H8 H9
                  H10 H11 H12 _ _ _ _ Hrun).
    + by apply (step_processBookFill rev keepsPace H1 H2 H3 H4 H5 H6 H8 H9
                  H10 H11 H12 _ _ _ _ Hrun).
    + by apply (step_processAction rev keepsPace H1 H2 H3 H4 H6 H8 H9 H10 H11
                  H12 _ _ _ _ _ Hrun).
  - intros fuel evs sim sim' Hrun.
    by apply (step_dispatchAll rev keepsPace H1 H2 H3 H4 H5 H6 H7 H8 H9 H10
                H11 H12 _ _ _ _ Hrun).
  - intros fuel evs b sim b' sim' Hrun.
    by apply (step_runQueueSimulation rev keepsPace H1 H2 H3 H4 H5 H6 H7 H8
                H9 H10 H11 H12 _ _ _ _ _ _ Hrun).
Qed.

End Pace.

(** * An order that crosses when it is added *)

Section Aggressive.
Context {SS : Type} `{!Strategy SS}.
Variable rev : Revision.
Implicit Type sim : FillSimulator SS.

(** X19.  An ADD that is not post-only and crosses the stored top is
    filled at once and in full, at the opposing price of the top handed to
    [processAction] (which has to be a valid fill price).  The add record
    is followed by the fill record for the whole quantity, the order is no
    longer active, position and the counters have moved, and the strategy
    is told: what [processAction] returns is what the strategy's answer to
    the notification leads to from there.  When the strategy answers with
    no action, that is the state just described. *)
Theorem aggressive_add_fills_at_once (fuel : nat) (action : OrderAction)
    (bookTop : book_top_t) sim :
  type action = ADD -> isPostOnly action = false ->
  (wouldOrderBeFilled (orderId action) (isBid action) (price action)
                      (quantity action) sim).1 = true ->
  0 < opposingPrice (isBid action) bookTop ->
  opposingPrice (isBid action) bookTop <> INT64_MAX ->
  in_u32 (quantity action) ->
  let px := opposingPrice (isBid action) bookTop in
  exists t sim1,
    outputFile_ sim1
      = outputFile_ sim
          ++ [addRecord action;
              fillRecord t (orderId action) (symbolId action) px
                         (quantity action) (isBid action)] /\
    activeOrders_ sim1 = delete (orderId action) (activeOrders_ sim) /\
    position_ sim1
      = (if isBid action
         then add_i64 (position_ sim) (Z.of_N (quantity action))
         else sub_i64 (position_ sim) (Z.of_N (quantity action))) /\
    totalOrdersPlaced_ sim1 = add_u64 (totalOrdersPlaced_ sim) 1 /\
    totalOrdersFilled_ sim1 = add_u64 (totalOrdersFilled_ sim) 1 /\
    strategy_ sim1 = strategy_ sim /\
    marketState_ sim1 = marketState_ sim /\
    processAction rev (S (S fuel)) action bookTop sim
      = submitWith (processAction rev fuel) t
          (with_ts t (lastBookTop (marketState_ sim)))
          (onOrderFilled (orderId action) px (quantity action)
                         (isBid action) (strategy_ sim)).1
          (set_strategy
             (onOrderFilled (orderId action) px (quantity action)
                            (isBid action) (strategy_ sim)).2 sim1) /\
    ((onOrderFilled (orderId action) px (quantity action) (isBid action)
                    (strategy_ sim)).1 = [] ->
     exists sim',
       processAction rev (S (S fuel)) action bookTop sim = Done sim' /\
       outputFile_ sim' = outputFile_ sim1 /\
       activeOrders_ sim' = activeOrders_ sim1 /\
       position_ sim' = position_ sim1).
Proof.
  intros Hty Hpo Hcross Hpos Hmax Hq px.
  set (placed := placeOrder action (noteCrossing action sim)).
  assert (Hplaced : activeOrders_ placed !! orderId action
                    = Some (orderOfAction action)).
  { unfold placed. simpl. apply lookup_insert_eq. }
  assert (Hnote : outputFile_ (noteCrossing action sim) = outputFile_ sim /\
                  activeOrders_ (noteCrossing action sim) = activeOrders_ sim).
  { pose proof (noteCrossing_books action sim) as (_ & _ & Ho & _).
    split; [done|apply noteCrossing_orders]. }
  destruct Hnote as [Hlog Hord].
  destruct (noteCrossing_books action sim) as (Hp & Hc & _ & Hn & Hf).
  pose proof (noteCrossing_market action sim) as Hmk.
  assert (Hq0 : quantity action <> 0%N).
  { intros H0. unfold wouldOrderBeFilled in Hcross. rewrite H0 in Hcross.
    by rewrite orb_true_r in Hcross. }
  assert (Hfull : (o_quantity (orderOfAction action)
                   <=? add_u32 (filledQuantity (orderOfAction action))
                               (quantity action))%N = true).
  { simpl. rewrite add_u32_0_l by done. apply N.leb_refl. }
  assert (Hst : strategy_ (noteCrossing action sim) = strategy_ sim).
  { unfold noteCrossing. by rewrite Hty, wouldOrderBeFilled_eta, Hcross. }
  destruct (bookFill rev (orderId action) px (quantity action)
              (isBid action) (applyExchangeLatency placed (md_ts action))
              placed) as [[t sim1]|] eqn:Hb.
  2:{ exfalso. unfold bookFill in Hb. rewrite Hplaced in Hb.
      destruct (Z.leb_spec px 0) as [?|_]; [unfold px in *; lia|].
      destruct (Z.eqb_spec px INT64_MAX) as [?|_]; [done|].
      by destruct (N.eqb_spec (quantity action) 0) as [?|_]. }
  assert (Hsim1 :
    outputFile_ sim1
      = outputFile_ sim
          ++ [addRecord action;
              fillRecord t (orderId action) (symbolId action) px
                         (quantity action) (isBid action)] /\
    activeOrders_ sim1 = delete (orderId action) (activeOrders_ sim) /\
    position_ sim1
      = (if isBid action
         then add_i64 (position_ sim) (Z.of_N (quantity action))
         else sub_i64 (position_ sim) (Z.of_N (quantity action))) /\
    totalOrdersPlaced_ sim1 = add_u64 (totalOrdersPlaced_ sim) 1 /\
    totalOrdersFilled_ sim1 = add_u64 (totalOrdersFilled_ sim) 1 /\
    strategy_ sim1 = strategy_ sim /\
    marketState_ sim1 = marketState_ sim).
  { unfold bookFill in Hb. rewrite Hplaced in Hb.
    destruct (_ || _); [done|]. cbv zeta in Hb. rewrite Hfull in Hb.
    injection Hb as <- <-. cbn.
    rewrite Hlog, Hord, Hp, Hn, Hf, <- app_assoc.
    split_and!; try done. apply delete_insert_eq. }
  destruct Hsim1 as (Ho1 & Ha1 & Hp1 & Hn1 & Hf1 & Hs1 & Hm1).
  assert (Hrun : processAction rev (S (S fuel)) action bookTop sim
    = submitWith (processAction rev fuel) t
        (with_ts t (lastBookTop (marketState_ sim)))
        (onOrderFilled (orderId action) px (quantity action)
                       (isBid action) (strategy_ sim)).1
        (set_strategy
           (onOrderFilled (orderId action) px (quantity action)
                          (isBid action) (strategy_ sim)).2 sim1)).
  { rewrite processAction_add by done. cbv zeta. rewrite Hcross, Hpo.
    rewrite processFill_step. fold placed px. rewrite Hb. cbv zeta.
    rewrite Hs1, Hm1.
    by destruct (onOrderFilled _ _ _ _ _) as [actions strategy]. }
  exists t, sim1. split_and!; try done.
  intros Hquiet. rewrite Hrun, Hquiet. cbn [submitWith].
  eexists. split; [reflexivity|]. done.
Qed.

End Aggressive.

Lemma aggressive_add_fills_at_once_witness :
  let action := Examples.mkAction ADD 1 0 101 10 true false in
  let bookTop := Examples.mkTop 1000000 99 101 in
  let sim : FillSimulator (list (list OrderAction)) :=
    acceptBookTop bookTop (newFillSimulator [] 0 0) in
  exists sim',
    processAction QueueRevision 2 action bookTop sim = Done sim' /\
    position_ sim' = 10 /\
    activeOrders_ sim' !! 1%N = None /\
    event_type <$> outputFile_ sim' = [1; 3]%N /\
    r_price <$> outputFile_ sim' = [101; 101].
Proof.
  intros action bookTop sim.
  destruct (aggressive_add_fills_at_once QueueRevision 0 action bookTop sim)
    as (t & sim1 & Hlog & Hact & Hpos & _ & _ & _ & _ & _ & Hquiet);
    [reflexivity|reflexivity|reflexivity|reflexivity|done|reflexivity|].
  destruct (Hquiet eq_refl) as (sim' & Hrun & Hlog' & Hact' & Hpos').
  exists sim'. split_and!.
  - exact Hrun.
  - rewrite Hpos', Hpos. reflexivity.
  - rewrite Hact', Hact. apply lookup_delete_eq.
  - rewrite Hlog', Hlog. reflexivity.
  - rewrite Hlog', Hlog. reflexivity.
Defined.

(** * The stored market state *)

Section Coherence.
Context {SS : Type} `{!Strategy SS}.
Variable rev : Revision.
Implicit Type sim : FillSimulator SS.

Lemma coherent_same sim sim' :
  marketState_ sim' = marketState_ sim ->
  lastProcessedTime sim' = lastProcessedTime sim ->
  coherent rev sim -> coherent rev sim'.
Proof. unfold coherent. by intros -> ->. Qed.

Lemma coherent_sameMarket sim sim' :
  sameMarket sim sim' -> coherent rev sim -> coherent rev sim'.
Proof. intros (? & ? & _). by apply coherent_same. Qed.

Lemma coherent_processBookTop fuel bookTop sim sim' :
  coherent rev sim ->
  processBookTop rev fuel bookTop sim = Done sim' -> coherent rev sim'.
Proof.
  intros Hc. unfold processBookTop.
  destruct (tooSoon _ _); [by intros [= <-]|].
  destruct (invalidBookTop rev bookTop) eqn:Hok; [by intros [= <-]|].
  unfold deliverBookTop. cbv zeta.
  destruct (onBookTopUpdate _ _) as [actions strategy].
  destruct (submitWith _ _ _ _ _) as [sim1| |] eqn:Hsub;
    cbn [mbind outcome_bind]; [|done..].
  intros Hre%(sameMarket_reevaluate rev).
  apply (sameMarket_submitWith _ _ _ _
           (proj1 (sameMarket_processAction_processFill rev fuel))) in Hsub.
  eapply coherent_sameMarket; [exact Hre|].
  eapply coherent_sameMarket; [exact Hsub|].
  unfold coherent. cbn. split_and!; [done..|by right].
Qed.

(** X20.  In every state a simulation passes through, the stored market
    state fits the stored top: [lastProcessedTime] is the top's time,
    [lastValidMidPrice] is the mid of its first level, and the stored top
    is the value-initialised one or a top the validation lets through (a
    top that was dropped or coalesced leaves no mark).  In the queue
    revision the sum does not overflow and the mid lies between the stored
    bid and ask. *)
Theorem stored_market_state_is_coherent sim :
  reachable rev sim ->
  coherent rev sim /\
  (rev = QueueRevision ->
   let top := top_level (lastBookTop (marketState_ sim)) in
   bid_nanos top <= lastValidMidPrice (marketState_ sim) <= ask_nanos top).
Proof.
  intros Hreach.
  assert (Hc : coherent rev sim).
  { induction Hreach as [strategy md exch | fuel bookTop sim sim' _ IH Hrun
                        | fuel fill sim sim' _ IH Hrun
                        | fuel action bookTop sim sim' _ IH Ha Hrun].
    - unfold coherent. cbn. split_and!; [done..|by left].
    - by eapply coherent_processBookTop.
    - destruct (processBookFill_counts rev _ _ _ _ Hrun) as (Hm & Hl & _).
      by eapply coherent_same.
    - eapply coherent_sameMarket; [|exact IH].
      by eapply (proj1 (sameMarket_processAction_processFill rev fuel)). }
  split; [done|]. intros -> top.
  destruct Hc as (_ & -> & [Hz|Hv]).
  - subst top. rewrite Hz. cbn. done.
  - fold top. unfold invalidBookTop in Hv. fold top in Hv.
    unfold MAX_REASONABLE_PRICE in Hv.
    rewrite !orb_false_iff in Hv.
    destruct Hv as (((H1 & H2) & H3) & (H4 & H5)).
    apply Z.leb_gt in H1, H2.
    destruct (Z.geb_spec (bid_nanos top) (ask_nanos top)) as [?|H3']; [done|].
    destruct (Z.gtb_spec (bid_nanos top) (10000 * 1000000000)) as [?|H4'];
      [done|].
    destruct (Z.gtb_spec (ask_nanos top) (10000 * 1000000000)) as [?|H5'];
      [done|].
    unfold add_i64. rewrite wrap_i64_id
      by (unfold in_i64, INT64_MIN, INT64_MAX; lia).
    split.
    + apply Z.quot_le_lower_bound; lia.
    + apply Z.quot_le_upper_bound; lia.
Qed.

End Coherence.

Lemma stored_market_state_is_coherent_witness :
  coherent QueueRevision Examples.quotedTwice /\
  lastValidMidPrice (marketState_ Examples.quotedTwice) = 98.
Proof.
  split; [|reflexivity].
  apply (stored_market_state_is_coherent QueueRevision Examples.quotedTwice
           quotedTwice_reachable).
Defined.

(** * When an added order refreshes the top *)

Lemma head_descending_insert (book : gmap Z level_t) price level :
  exists best l,
    head (descending (<[price := level]> book)) = Some (best, l) /\
    price <= best /\
    (best = price \/ exists l', book !! best = Some l') /\
    (forall p l', book !! p = Some l' -> p <= best).
Proof.
  destruct (head (descending (<[price := level]> book))) as [[best l]|]
    eqn:Hhd.
  - apply head_descending in Hhd as [Hl Hmax]. exists best, l.
    assert (Hge : price <= best).
    { apply (Hmax price level). apply lookup_insert_eq. }
    split_and!; [done..| |].
    + destruct (decide (best = price)) as [?|Hne]; [by left|right].
      rewrite lookup_insert_ne in Hl by done. eauto.
    + intros p l' Hp. destruct (decide (p = price)) as [->|Hne]; [done|].
      apply (Hmax p l'). by rewrite lookup_insert_ne.
  - apply head_None in Hhd. unfold descending in Hhd.
    apply (f_equal reverse) in Hhd.
    rewrite reverse_involutive, reverse_nil in Hhd.
    apply ascending_nil in Hhd.
    by apply insert_non_empty in Hhd.
Qed.

Lemma head_ascending_insert (book : gmap Z level_t) price level :
  exists best l,
    head (ascending (<[price := level]> book)) = Some (best, l) /\
    best <= price /\
    (best = price \/ exists l', book !! best = Some l') /\
    (forall p l', book !! p = Some l' -> best <= p).
Proof.
  destruct (head (ascending (<[price := level]> book))) as [[best l]|]
    eqn:Hhd.
  - apply head_ascending in Hhd as [Hl Hmin]. exists best, l.
    assert (Hle : best <= price).
    { apply (Hmin price level). apply lookup_insert_eq. }
    split_and!; [done..| |].
    + destruct (decide (best = price)) as [?|Hne]; [by left|right].
      rewrite lookup_insert_ne in Hl by done. eauto.
    + intros p l' Hp. destruct (decide (p = price)) as [->|Hne]; [done|].
      apply (Hmin p l'). by rewrite lookup_insert_ne.
  - apply head_None, ascending_nil in Hhd.
    by apply insert_non_empty in Hhd.
Qed.

(** X21.  The test that follows an [add_order] is made on the book the
    order has already gone into, so it never finds the side empty: the top
    is refreshed (and handed to the simulator) exactly when no level of
    the order's side was at a better price before, that is when the order
    improves the best price or joins the best level.  An order added
    behind the best price leaves the stored top as it was, its second and
    third level included. *)
Theorem add_refreshes_top_iff_at_best (is_bid : bool) (price : Z)
    (order_id q t : N) (b : BookState) :
  ((insertOrder is_bid price order_id q t b).2 = true <->
   forall p l, side is_bid b !! p = Some l ->
               if is_bid then p <= price else price <= p) /\
  currentTop (insertOrder is_bid price order_id q t b).1 = currentTop b /\
  order_map (insertOrder is_bid price order_id q t b).1 !! order_id
    = Some {| ref_price := price; ref_is_bid := is_bid;
              order_it := next_handle b |} /\
  next_handle (insertOrder is_bid price order_id q t b).1
    = S (next_handle b).
Proof.
  unfold insertOrder.
  destruct (default (0%N, []) (side is_bid b !! price)) as [total queue].
  cbv zeta. cbn [fst snd]. split_and!; [|done|apply lookup_insert_eq|done].
  destruct is_bid; cbn [side set_side set_order_map set_next_handle bid_book
                        ask_book].
  - match goal with |- context [descending (<[price := ?lv]> _)] =>
      destruct (head_descending_insert (bid_book b) price lv)
        as (best & l & Hhd & Hge & Hbest & Hmax) end.
    apply head_Some in Hhd as [rest ->].
    destruct (Z.geb_spec price best) as [Hle|Hlt]; split; try done.
    + intros _ p lv Hp. specialize (Hmax _ _ Hp). lia.
    + intros Hall. destruct Hbest as [->|[l' Hl']]; [lia|].
      specialize (Hall _ _ Hl'). simpl in Hall. lia.
  - match goal with |- context [ascending (<[price := ?lv]> _)] =>
      destruct (head_ascending_insert (ask_book b) price lv)
        as (best & l & Hhd & Hge & Hbest & Hmin) end.
    apply head_Some in Hhd as [rest ->].
    destruct (Z.leb_spec price best) as [Hle|Hlt]; split; try done.
    + intros _ p lv Hp. specialize (Hmin _ _ Hp). lia.
    + intros Hall. destruct Hbest as [->|[l' Hl']]; [lia|].
      specialize (Hall _ _ Hl'). simpl in Hall. lia.
Qed.
